(** * BoltzWriter: the prediction writer of boltz (src/boltz/data/write/writer.py)

    A shallow embedding of [BoltzWriter.__init__] and
    [BoltzWriter.write_on_batch_end], and the properties of the written
    output that follow from the code.

    Modelling choices.
    - Tensor and array elements (coordinates, confidence values) are numbers
      that the writer only copies and compares; they are integers here.
    - numpy arrays are mutable objects: the atom and residue tables of a
      [Structure] are references into a store, so that in-place assignment
      ([atoms["coords"] = ...]) and [.copy()] keep their meaning.
    - Python exceptions are an error result; the state reached when the
      exception is raised is kept, since files written before it stay.
    - The text encoders [to_pdb] and [to_mmcif] are external: a written
      file records which encoder was called and on which value.
    - The file system is a log of the directories the writer creates and
      the files it writes, in order. Creating a directory and opening a
      file are taken to succeed. On a file system this is what happens
      when the output directory exists, as [__init__] leaves it, and the
      record id is a single path component: [mkdir(exist_ok=True)] of
      line 164 creates no parents, and a file cannot be opened in a
      directory that is missing, so an id with a separator in it raises
      [FileNotFoundError] there. Statements that a call returns normally
      carry this assumption on the record id ([path_component]). *)

From Stdlib Require Import ZArith Lia.
From stdpp Require Import base option list gmap strings pretty sorting.

Local Open Scope string_scope.
Local Open Scope nat_scope.
Local Open Scope list_scope.

(** ** Data model *)

Definition scalar : Type := Z.
Definition vec3 : Type := scalar * scalar * scalar.

(** Rows of the structured arrays of [boltz.data.types]; only the columns
    the writer touches are named, [*_name] stands for the others. *)
Record Atom := mkAtom {
  atom_name : string;
  coords : vec3;
  is_present : bool;
}.

Record Residue := mkResidue {
  res_name : string;
  res_is_present : bool;
}.

Record Chain := mkChain {
  chain_name : string;
  asym_id : nat;
}.

Record Interface := mkInterface {
  chain_1 : nat;
  chain_2 : nat;
}.

Global Instance Atom_eq_dec : EqDecision Atom.
Proof. solve_decision. Defined.
Global Instance Residue_eq_dec : EqDecision Residue.
Proof. solve_decision. Defined.
Global Instance Chain_eq_dec : EqDecision Chain.
Proof. solve_decision. Defined.
Global Instance Interface_eq_dec : EqDecision Interface.
Proof. solve_decision. Defined.

(** References to arrays in the store. *)
Definition loc : Type := nat.

(** The [Structure] dataclass. [atoms] and [residues] are the arrays the
    writer assigns into, hence references; the other fields are only read. *)
Record Structure := mkStructure {
  atoms : loc;
  residues : loc;
  chains : list Chain;
  interfaces : list Interface;
  mask : list bool;
}.

(** A structure with its arrays read out: what an encoder or [asdict] sees,
    and what an [.npz] archive of a structure holds. *)
Record StructureData := mkStructureData {
  d_atoms : list Atom;
  d_residues : list Residue;
  d_chains : list Chain;
  d_interfaces : list Interface;
  d_mask : list bool;
}.

Global Instance StructureData_eq_dec : EqDecision StructureData.
Proof. solve_decision. Defined.

(** [Record] and its [ChainInfo] entries (batch["record"]). *)
Record ChainInfo := mkChainInfo {
  chain_id : nat;
  info_name : string;
  valid : bool;
}.

Record RecordT := mkRecord {
  record_id : string;
  record_chains : list ChainInfo;
}.

Record Batch := mkBatch {
  batch_record : list RecordT;
}.

(** Python dictionaries keep insertion order: association lists, with
    assignment replacing the value of a key already present. *)
Definition odict (K V : Type) : Type := list (K * V).

Fixpoint dict_get {K V} `{EqDecision K} (k : K) (d : odict K V) : option V :=
  match d with
  | [] => None
  | (k', v) :: d' => if decide (k = k') then Some v else dict_get k d'
  end.

Fixpoint dict_set {K V} `{EqDecision K} (k : K) (v : V) (d : odict K V)
  : odict K V :=
  match d with
  | [] => [(k, v)]
  | (k', v') :: d' =>
      if decide (k = k') then (k, v) :: d' else (k', v') :: dict_set k v d'
  end.

Definition dict_keys {K V} (d : odict K V) : list K := d.*1.

(** The [prediction] dictionary. Each key holds a value of a fixed shape, so
    the dictionary is a record with one optional field per optional key;
    the per-candidate scalar tensors (among them "confidence_score") are
    looked up by name. [C] candidates, [A] padded atom slots, [R] records:
    - [coords] is [C, A, 3] (the writer adds the record axis itself);
    - [masks] is [R, A];
    - a scalar field is [C]; [plddt] is [C, A]; [pae], [pde] are [C, A, A];
    - [pair_chains_iptm] maps chain index to chain index to a [C] tensor;
    - [intermediate_coords] is a sequence of [C, A, 3] tensors. *)
Record Prediction := mkPrediction {
  exception : bool;
  pred_coords : list (list vec3);
  masks : list (list bool);
  scalars : gmap string (list scalar);
  plddt : option (list (list scalar));
  pae : option (list (list (list scalar)));
  pde : option (list (list (list scalar)));
  pair_chains_iptm : option (odict nat (odict nat (list scalar)));
  intermediate_coords : option (list (list (list vec3)));
}.

(** The value of [confidence_summary_dict] under one key. *)
Inductive summary_value :=
| SFloat (x : scalar)
| SChains (d : odict nat scalar)
| SPairs (d : odict nat (odict nat scalar)).

Global Instance summary_value_eq_dec : EqDecision summary_value.
Proof. solve_decision. Defined.

(** What is written to a file. *)
Inductive content :=
| PdbText (s : StructureData)
| MmcifText (s : StructureData) (atom_plddt : option (list scalar))
| StructureArchive (s : StructureData)
| JsonText (d : odict string summary_value)
| VectorArchive (name : string) (a : list scalar)
| MatrixArchive (name : string) (a : list (list scalar))
| EmptyFile.

Global Instance content_eq_dec : EqDecision content.
Proof. solve_decision. Defined.

Inductive event :=
| Mkdir (path : string)
| WriteFile (path : string) (c : content).

Global Instance event_eq_dec : EqDecision event.
Proof. solve_decision. Defined.

(** ** State, exceptions and the writer monad *)

Inductive pykey := KStr (s : string) | KInt (n : nat).

Inductive exn :=
| KeyError (k : pykey)
| IndexError
| ValueError (msg : string)
| FileNotFoundError (path : string).

Global Instance pykey_eq_dec : EqDecision pykey.
Proof. solve_decision. Defined.
Global Instance exn_eq_dec : EqDecision exn.
Proof. solve_decision. Defined.

Inductive result (A : Type) :=
| Ok (a : A)
| Raise (e : exn).
Arguments Ok {A} a.
Arguments Raise {A} e.

(** [failed] is [self.failed]; [fs] is the log of file system effects, oldest
    first; [disk] holds the base structure archives under [data_dir]; the
    two stores hold the atom and residue arrays. *)
Record State := mkState {
  failed : nat;
  fs : list event;
  disk : gmap string StructureData;
  atom_arrays : gmap loc (list Atom);
  residue_arrays : gmap loc (list Residue);
  next_loc : loc;
}.

Definition M (A : Type) : Type := State → State * result A.

Global Instance M_ret : MRet M := λ A a s, (s, Ok a).
Global Instance M_bind : MBind M := λ A B f m s,
  match m s with
  | (s', Ok a) => f a s'
  | (s', Raise e) => (s', Raise e)
  end.

Definition raise {A} (e : exn) : M A := λ s, (s, Raise e).

Definition lift {A} (r : result A) : M A := λ s, (s, r).

Definition from_option {A} (e : exn) (o : option A) : result A :=
  match o with Some a => Ok a | None => Raise e end.

Definition emit (e : event) : M unit := λ s,
  (mkState (failed s) (fs s ++ [e]) (disk s) (atom_arrays s)
     (residue_arrays s) (next_loc s), Ok ()).

Fixpoint for_each {A} (l : list A) (body : A → M unit) : M unit :=
  match l with
  | [] => mret ()
  | x :: l' => body x ;; for_each l' body
  end.

(** [enumerate(l)] *)
Definition enumerate {A} (l : list A) : list (nat * A) := imap pair l.

(** Array store operations. *)
Definition read_atoms (l : loc) : M (list Atom) := λ s,
  (s, from_option (KeyError (KInt l)) (atom_arrays s !! l)).

Definition read_residues (l : loc) : M (list Residue) := λ s,
  (s, from_option (KeyError (KInt l)) (residue_arrays s !! l)).

Definition store_atoms (l : loc) (t : list Atom) : M unit := λ s,
  (mkState (failed s) (fs s) (disk s) (<[l := t]> (atom_arrays s))
     (residue_arrays s) (next_loc s), Ok ()).

Definition store_residues (l : loc) (t : list Residue) : M unit := λ s,
  (mkState (failed s) (fs s) (disk s) (atom_arrays s)
     (<[l := t]> (residue_arrays s)) (next_loc s), Ok ()).

Definition new_atoms (t : list Atom) : M loc := λ s,
  (mkState (failed s) (fs s) (disk s) (<[next_loc s := t]> (atom_arrays s))
     (residue_arrays s) (S (next_loc s)), Ok (next_loc s)).

Definition new_residues (t : list Residue) : M loc := λ s,
  (mkState (failed s) (fs s) (disk s) (atom_arrays s)
     (<[next_loc s := t]> (residue_arrays s)) (S (next_loc s)),
   Ok (next_loc s)).

(** Reading a structure out of the store, and building one in it. *)
Definition snapshot (st : Structure) : M StructureData :=
  a ← read_atoms (atoms st);
  r ← read_residues (residues st);
  mret (mkStructureData a r (chains st) (interfaces st) (mask st)).

Definition materialise (d : StructureData) : M Structure :=
  la ← new_atoms (d_atoms d);
  lr ← new_residues (d_residues d);
  mret (mkStructure la lr (d_chains d) (d_interfaces d) (d_mask d)).

(** Errors without state: indexing, lookups, comprehensions. *)
Global Instance result_ret : MRet result := λ A a, Ok a.
Global Instance result_bind : MBind result := λ A B f r,
  match r with
  | Ok a => f a
  | Raise e => Raise e
  end.

Fixpoint collect {A B} (f : A → result B) (l : list A) : result (list B) :=
  match l with
  | [] => Ok []
  | x :: l' => y ← f x; ys ← collect f l'; Ok (y :: ys)
  end.

(** [{k: f(k) for k in keys}] *)
Fixpoint dict_comp_from {K V} `{EqDecision K} (acc : odict K V)
    (keys : list K) (f : K → result V) : result (odict K V) :=
  match keys with
  | [] => Ok acc
  | k :: keys' => v ← f k; dict_comp_from (dict_set k v acc) keys' f
  end.

Definition dict_comp {K V} `{EqDecision K} (keys : list K)
    (f : K → result V) : result (odict K V) :=
  dict_comp_from [] keys f.

(** ** Paths

    [p / c] of pathlib on strings: a right operand that is absolute
    replaces the left one, any other is appended behind a separator. *)
Definition is_absolute (c : string) : bool := String.prefix "/" c.

Definition path_join (p c : string) : string :=
  if is_absolute c then c else p +:+ "/" +:+ c.
Infix "</>" := path_join (at level 45, left associativity).

Definition ends_with (suffix s : string) : bool :=
  String.prefix (String.rev suffix) (String.rev s).

(** [np.savez_compressed] appends ".npz" to a file name that lacks it. *)
Definition savez_path (p : string) : string :=
  if ends_with ".npz" p then p else p +:+ ".npz".

(** ** Collaborators outside the module

    [Structure.remove_invalid_chains] (boltz.data.types) and
    [torch.argsort(_, descending=True)] are not defined in writer.py. The
    first acts on the tables of a structure and returns a new structure
    with arrays of its own; the second returns the candidate indices in
    sorted order. *)
Class Externals := {
  remove_invalid_chains_tables : StructureData → StructureData;
  argsort_descending : list scalar → list nat;
}.

(** ** The writer *)

Record BoltzWriter := mkWriter {
  data_dir : string;
  output_dir : string;
  output_format : string;
}.

Definition set_failed (n : nat) : M unit := λ s,
  (mkState n (fs s) (disk s) (atom_arrays s) (residue_arrays s) (next_loc s),
   Ok ()).

Definition get_failed : M nat := λ s, (s, Ok (failed s)).

(** [BoltzWriter.__init__] *)
Definition init (data_dir output_dir output_format : string) : M BoltzWriter :=
  if decide (output_format ∈ ["pdb"; "mmcif"]) then
    set_failed 0;;
    emit (Mkdir output_dir);;
    mret (mkWriter data_dir output_dir output_format)
  else raise (ValueError ("Invalid output format: " +:+ output_format)).

(** Modelled from the spec: [Structure.load] (boltz.data.types) is not
    defined in writer.py. The loader "consumes a structure identifier,
    returns a structure snapshot with atom/residue/chain tables and a
    chain-validity mask", and a record with no base snapshot on disk is
    fatal for the record. Here [Structure.load(path)] returns a fresh
    structure holding the tables of the archive at [path]. *)
Definition Structure_load (path : string) : M Structure :=
  λ s, match disk s !! path with
       | Some d => materialise d s
       | None => (s, Raise (FileNotFoundError path))
       end.

Definition remove_invalid_chains `{Externals} (structure : Structure)
  : M Structure :=
  d ← snapshot structure;
  materialise (remove_invalid_chains_tables d).

(** Lines 84-87: the chain map. *)
Definition chain_map_step (chain_map : gmap nat nat) (im : nat * bool)
  : gmap nat nat :=
  if im.2 then <[size chain_map := im.1]> chain_map else chain_map.

Definition build_chain_map (mask : list bool) : gmap nat nat :=
  foldl chain_map_step ∅ (enumerate mask).

(** Lines 74-75: [idx_to_rank]. *)
Definition rank_table (order : list nat) : gmap nat nat :=
  foldl (λ m ri, <[ri.2 := ri.1]> m) ∅ (enumerate order).

(** [t[m]] for a boolean mask [m] over the first axis. *)
Fixpoint mask_select {A} (rows : list A) (m : list bool) : list A :=
  match rows, m with
  | r :: rows', b :: m' =>
      if b then r :: mask_select rows' m' else mask_select rows' m'
  | _, _ => []
  end.

(** Lines 102-103 and 129-130: [model_coord[pad_mask.bool()]]. Indexing
    fails when the mask does not have the length of the indexed axis. *)
Definition unpad (model_coord : list vec3) (pad_mask : list bool)
  : result (list vec3) :=
  if decide (length pad_mask = length model_coord)
  then Ok (mask_select model_coord pad_mask)
  else Raise IndexError.

(** [t["coords"] = v] on a table [t] of [n] rows, [v] of shape [k, 3]:
    numpy copies row by row when [k = n], repeats the single row when
    [k = 1], and fails otherwise. *)
Definition with_coords (c : vec3) (a : Atom) : Atom :=
  mkAtom (atom_name a) c (is_present a).

Definition assign_coords (t : list Atom) (v : list vec3)
  : result (list Atom) :=
  if decide (length v = length t) then Ok (zip_with (flip with_coords) t v)
  else match v with
       | [c] => Ok (with_coords c <$> t)
       | _ => Raise (ValueError "could not broadcast input array")
       end.

(** [t["is_present"] = b] *)
Definition assign_is_present (b : bool) (t : list Atom) : list Atom :=
  (λ a, mkAtom (atom_name a) (coords a) b) <$> t.

Definition assign_res_is_present (b : bool) (t : list Residue)
  : list Residue :=
  (λ r, mkResidue (res_name r) b) <$> t.

(** The same assignments through a reference: they change the array that
    every holder of the reference sees. *)
Definition set_coords (l : loc) (v : list vec3) : M unit :=
  t ← read_atoms l;
  t' ← lift (assign_coords t v);
  store_atoms l t'.

Definition set_is_present (l : loc) (b : bool) : M unit :=
  t ← read_atoms l;
  store_atoms l (assign_is_present b t).

Definition set_res_is_present (l : loc) (b : bool) : M unit :=
  t ← read_residues l;
  store_residues l (assign_res_is_present b t).

(** [a.copy()] *)
Definition copy_atoms (l : loc) : M loc :=
  t ← read_atoms l;
  new_atoms t.

(** Lines 106-115: the snapshot of an intermediate step. *)
Definition assemble_intermediate (structure : Structure)
    (coord_unpad : list vec3) : M Structure :=
  atoms_ ← copy_atoms (atoms structure);
  set_coords atoms_ coord_unpad;;
  set_is_present atoms_ true;;
  mret (mkStructure atoms_ (residues structure) (chains structure) []
          (mask structure)).

(** Lines 133-148: the snapshot of a final candidate. *)
Definition assemble_final (structure : Structure)
    (coord_unpad : list vec3) : M Structure :=
  let atoms_ := atoms structure in
  set_coords atoms_ coord_unpad;;
  set_is_present atoms_ true;;
  let residues_ := residues structure in
  set_res_is_present residues_ true;;
  mret (mkStructure atoms_ residues_ (chains structure) []
          (mask structure)).

(** Lines 151-160: the chain info of one chain of the new structure. *)
Definition new_chain_info (chain_map : gmap nat nat) (record : RecordT)
    (chain : Chain) : result ChainInfo :=
  old_chain_idx ← from_option (KeyError (KInt (asym_id chain)))
                     (chain_map !! asym_id chain);
  old_chain_info ← from_option IndexError
                     (record_chains record !! old_chain_idx);
  Ok (mkChainInfo (asym_id chain) (info_name old_chain_info) true).

(** [idx_to_rank[model_idx]] *)
Definition rank_of (idx_to_rank : gmap nat nat) (model_idx : nat)
  : result nat :=
  from_option (KeyError (KInt model_idx)) (idx_to_rank !! model_idx).

(** Lines 98-125: one refinement step of one candidate. The file name takes
    [self.output_format] as its suffix. In the last branch the file is
    opened, and the archive goes to the name [np.savez_compressed] makes of
    the path. *)
Definition intermediate_name (record : RecordT) (rank step : nat)
    (format : string) : string :=
  record_id record +:+ "_model_" +:+ pretty rank +:+ "_step_" +:+ pretty step
    +:+ "." +:+ format.

Definition save_intermediate_step (self : BoltzWriter) (record : RecordT)
    (structure : Structure) (pad_mask : list bool)
    (idx_to_rank : gmap nat nat) (model_idx : nat) (intermediate_dir : string)
    (step_coords : nat * list (list vec3)) : M unit :=
  let '(step, step_coords) := step_coords in
  model_step_coords ← lift (from_option IndexError (step_coords !! model_idx));
  coord_unpad ← lift (unpad model_step_coords pad_mask);
  new_structure ← assemble_intermediate structure coord_unpad;
  rank ← lift (rank_of idx_to_rank model_idx);
  let path :=
    intermediate_dir </> intermediate_name record rank step (output_format self)
  in
  d ← snapshot new_structure;
  if decide (output_format self = "pdb") then
    emit (WriteFile path (PdbText d))
  else if decide (output_format self = "mmcif") then
    emit (WriteFile path (MmcifText d None))
  else
    emit (WriteFile path EmptyFile);;
    emit (WriteFile (savez_path path) (StructureArchive d)).

(** Lines 94-125. *)
Definition save_intermediate (self : BoltzWriter) (prediction : Prediction)
    (record : RecordT) (structure : Structure) (pad_mask : list bool)
    (idx_to_rank : gmap nat nat) (model_idx : nat) : M unit :=
  match intermediate_coords prediction with
  | Some steps =>
      let intermediate_dir :=
        output_dir self </> record_id record </> "intermediate" in
      emit (Mkdir intermediate_dir);;
      for_each (enumerate steps)
        (save_intermediate_step self record structure pad_mask idx_to_rank
           model_idx intermediate_dir)
  | None => mret ()
  end.

(** Lines 163-187: the structure file of a final candidate. When the
    per-atom confidence of the candidate cannot be indexed, the file has
    been opened already and stays empty. *)
Definition model_name (record : RecordT) (rank : nat) (ext : string)
  : string :=
  record_id record +:+ "_model_" +:+ pretty rank +:+ "." +:+ ext.

Definition save_structure (self : BoltzWriter) (prediction : Prediction)
    (record : RecordT) (idx_to_rank : gmap nat nat) (model_idx : nat)
    (new_structure : Structure) : M unit :=
  let struct_dir := output_dir self </> record_id record in
  emit (Mkdir struct_dir);;
  if decide (output_format self = "pdb") then
    rank ← lift (rank_of idx_to_rank model_idx);
    let path := struct_dir </> model_name record rank "pdb" in
    d ← snapshot new_structure;
    emit (WriteFile path (PdbText d))
  else if decide (output_format self = "mmcif") then
    rank ← lift (rank_of idx_to_rank model_idx);
    let path := struct_dir </> model_name record rank "cif" in
    match plddt prediction with
    | Some p =>
        match p !! model_idx with
        | Some atom_plddt =>
            d ← snapshot new_structure;
            emit (WriteFile path (MmcifText d (Some atom_plddt)))
        | None => emit (WriteFile path EmptyFile);; raise IndexError
        end
    | None =>
        d ← snapshot new_structure;
        emit (WriteFile path (MmcifText d None))
    end
  else
    rank ← lift (rank_of idx_to_rank model_idx);
    let path := struct_dir </> model_name record rank "npz" in
    d ← snapshot new_structure;
    emit (WriteFile (savez_path path) (StructureArchive d)).

(** Lines 195-220: [confidence_summary_dict]. *)
Definition scalar_keys : list string :=
  [ "confidence_score"; "ptm"; "iptm"; "ligand_iptm"; "protein_iptm";
    "complex_plddt"; "complex_iplddt"; "complex_pde"; "complex_ipde" ].

(** [prediction[key][model_idx].item()] *)
Definition scalar_item (prediction : Prediction) (model_idx : nat)
    (key : string) : result scalar :=
  t ← from_option (KeyError (KStr key)) (scalars prediction !! key);
  from_option IndexError (t !! model_idx).

Fixpoint add_scalars (prediction : Prediction) (model_idx : nat)
    (keys : list string) (d : odict string summary_value)
  : result (odict string summary_value) :=
  match keys with
  | [] => Ok d
  | key :: keys' =>
      x ← scalar_item prediction model_idx key;
      add_scalars prediction model_idx keys' (dict_set key (SFloat x) d)
  end.

(** [prediction["pair_chains_iptm"][idx1][idx2][model_idx].item()] *)
Definition pair_item (prediction : Prediction) (model_idx idx1 idx2 : nat)
  : result scalar :=
  pc ← from_option (KeyError (KStr "pair_chains_iptm"))
         (pair_chains_iptm prediction);
  row ← from_option (KeyError (KInt idx1)) (dict_get idx1 pc);
  t ← from_option (KeyError (KInt idx2)) (dict_get idx2 row);
  from_option IndexError (t !! model_idx).

Definition pair_row_keys (prediction : Prediction) (idx1 : nat)
  : result (list nat) :=
  pc ← from_option (KeyError (KStr "pair_chains_iptm"))
         (pair_chains_iptm prediction);
  row ← from_option (KeyError (KInt idx1)) (dict_get idx1 pc);
  Ok (dict_keys row).

Definition pair_keys (prediction : Prediction) : result (list nat) :=
  pc ← from_option (KeyError (KStr "pair_chains_iptm"))
         (pair_chains_iptm prediction);
  Ok (dict_keys pc).

Definition confidence_summary (prediction : Prediction) (model_idx : nat)
  : result (odict string summary_value) :=
  d ← add_scalars prediction model_idx scalar_keys [];
  keys ← pair_keys prediction;
  chains_ptm ← dict_comp keys (λ idx, pair_item prediction model_idx idx idx);
  let d := dict_set "chains_ptm" (SChains chains_ptm) d in
  keys ← pair_keys prediction;
  pairs ← dict_comp keys (λ idx1,
             keys2 ← pair_row_keys prediction idx1;
             dict_comp keys2 (λ idx2, pair_item prediction model_idx idx1 idx2));
  Ok (dict_set "pair_chains_iptm" (SPairs pairs) d).

Definition side_name (kind : string) (record : RecordT) (rank : nat)
    (ext : string) : string :=
  kind +:+ "_" +:+ model_name record rank ext.

(** Lines 190-235: the confidence summary and the per-atom confidence. *)
Definition save_confidence (self : BoltzWriter) (prediction : Prediction)
    (record : RecordT) (idx_to_rank : gmap nat nat) (model_idx : nat)
  : M unit :=
  let struct_dir := output_dir self </> record_id record in
  match plddt prediction with
  | Some p =>
      rank ← lift (rank_of idx_to_rank model_idx);
      let path := struct_dir </> side_name "confidence" record rank "json" in
      confidence_summary_dict ← lift (confidence_summary prediction model_idx);
      emit (WriteFile path (JsonText confidence_summary_dict));;
      atom_plddt ← lift (from_option IndexError (p !! model_idx));
      rank ← lift (rank_of idx_to_rank model_idx);
      let path := struct_dir </> side_name "plddt" record rank "npz" in
      emit (WriteFile (savez_path path) (VectorArchive "plddt" atom_plddt))
  | None => mret ()
  end.

(** Lines 238-253: the pairwise error estimates. *)
Definition save_matrix (kind : string)
    (field : option (list (list (list scalar)))) (self : BoltzWriter)
    (record : RecordT) (idx_to_rank : gmap nat nat) (model_idx : nat)
  : M unit :=
  let struct_dir := output_dir self </> record_id record in
  match field with
  | Some t =>
      a ← lift (from_option IndexError (t !! model_idx));
      rank ← lift (rank_of idx_to_rank model_idx);
      let path := struct_dir </> side_name kind record rank "npz" in
      emit (WriteFile (savez_path path) (MatrixArchive kind a))
  | None => mret ()
  end.

(** Lines 127-160: the final structure of a candidate and its chain info. *)
Definition final_structure (record : RecordT) (structure : Structure)
    (chain_map : gmap nat nat) (coord : list (list vec3))
    (pad_mask : list bool) (model_idx : nat) : M Structure :=
  model_coord ← lift (from_option IndexError (coord !! model_idx));
  coord_unpad ← lift (unpad model_coord pad_mask);
  new_structure ← assemble_final structure coord_unpad;
  chain_info ← lift (collect (new_chain_info chain_map record)
                       (chains new_structure));
  mret new_structure.

(** Lines 92-253: the body of the loop over candidates. *)
Definition process_model (self : BoltzWriter) (prediction : Prediction)
    (record : RecordT) (structure : Structure) (chain_map : gmap nat nat)
    (coord : list (list vec3)) (pad_mask : list bool)
    (idx_to_rank : gmap nat nat) (model_idx : nat) : M unit :=
  save_intermediate self prediction record structure pad_mask idx_to_rank
    model_idx;;
  new_structure ← final_structure record structure chain_map coord pad_mask
                    model_idx;
  save_structure self prediction record idx_to_rank model_idx new_structure;;
  save_confidence self prediction record idx_to_rank model_idx;;
  save_matrix "pae" (pae prediction) self record idx_to_rank model_idx;;
  save_matrix "pde" (pde prediction) self record idx_to_rank model_idx.

(** Lines 78-253: the body of the loop over records. The chain map is
    computed from the mask of the structure as loaded; the structure is
    filtered afterwards. *)
Definition process_record `{Externals} (self : BoltzWriter)
    (prediction : Prediction) (idx_to_rank : gmap nat nat)
    (item : RecordT * (list (list vec3) * list bool)) : M unit :=
  let '(record, (coord, pad_mask)) := item in
  let path := data_dir self </> (record_id record +:+ ".npz") in
  structure ← Structure_load path;
  let chain_map := build_chain_map (mask structure) in
  structure ← remove_invalid_chains structure;
  for_each (seq 0 (length coord))
    (process_model self prediction record structure chain_map coord pad_mask
       idx_to_rank).

(** Lines 74-75. *)
Definition ranking `{Externals} (prediction : Prediction)
  : result (gmap nat nat) :=
  score ← from_option (KeyError (KStr "confidence_score"))
            (scalars prediction !! "confidence_score");
  Ok (rank_table (argsort_descending score)).

(** [BoltzWriter.write_on_batch_end]. [coords.unsqueeze(0)] puts the
    candidates tensor behind a leading axis of length one, and [zip] stops
    with its shortest argument. *)
Definition write_on_batch_end `{Externals} (self : BoltzWriter)
    (prediction : Prediction) (batch : Batch) : M unit :=
  if exception prediction then
    n ← get_failed;
    set_failed (n + 1)
  else
    let records := batch_record batch in
    let coords := [pred_coords prediction] in
    let pad_masks := masks prediction in
    idx_to_rank ← lift (ranking prediction);
    for_each (zip records (zip coords pad_masks))
      (process_record self prediction idx_to_rank).

(** ** Vocabulary of the statements *)

(** The number of [True] entries of a mask. *)
Fixpoint count_true (v : list bool) : nat :=
  match v with
  | [] => 0
  | b :: v' => (if b then 1 else 0) + count_true v'
  end.

(** The positions of the [True] entries of [v], counted from [k]. *)
Fixpoint true_positions_from (k : nat) (v : list bool) : list nat :=
  match v with
  | [] => []
  | b :: v' =>
      if b then k :: true_positions_from (S k) v'
      else true_positions_from (S k) v'
  end.

(** A map defined exactly on an initial segment of the indices. *)
Definition dense (m : gmap nat nat) : Prop :=
  ∀ j, is_Some (m !! j) ↔ j < size m.


(** A computation leaves the failure counter alone and adds to the file
    system log only events that satisfy [Φ], whether it returns or raises. *)
Definition only_writes {A} (Φ : event → Prop) (m : M A) : Prop :=
  ∀ s, failed (m s).1 = failed s ∧
       ∃ d, fs (m s).1 = fs s ++ d ∧ Forall Φ d.

(** A name that is a single path component: not empty, not "." or "..",
    and without a separator. For a record id of this kind, pathlib puts
    the directory of the record directly under the output directory, and
    the files of the record directly under the directory of the record or
    under its "intermediate" directory. *)
Fixpoint has_separator (name : string) : bool :=
  match name with
  | EmptyString => false
  | String _ rest => is_absolute name || has_separator rest
  end.

Definition path_component (name : string) : Prop :=
  name ≠ "" ∧ name ≠ "." ∧ name ≠ ".." ∧ has_separator name = false.

(** The files of one candidate of rank [rank] of a record: name and
    content. This is the layout the writer produces. *)
Definition struct_dir_of (self : BoltzWriter) (record : RecordT) : string :=
  output_dir self </> record_id record.

Definition intermediate_dir_of (self : BoltzWriter) (record : RecordT)
  : string :=
  output_dir self </> record_id record </> "intermediate".

Inductive output_file (self : BoltzWriter) (record : RecordT) (rank : nat)
  : string → content → Prop :=
| file_pdb d :
    output_format self = "pdb" →
    output_file self record rank
      (struct_dir_of self record </> model_name record rank "pdb") (PdbText d)
| file_cif d atom_plddt :
    output_format self = "mmcif" →
    output_file self record rank
      (struct_dir_of self record </> model_name record rank "cif")
      (MmcifText d atom_plddt)
| file_cif_opened :
    output_format self = "mmcif" →
    output_file self record rank
      (struct_dir_of self record </> model_name record rank "cif") EmptyFile
| file_npz d :
    output_format self ≠ "pdb" → output_format self ≠ "mmcif" →
    output_file self record rank
      (struct_dir_of self record </> model_name record rank "npz")
      (StructureArchive d)
| file_confidence j :
    output_file self record rank
      (struct_dir_of self record </> side_name "confidence" record rank "json")
      (JsonText j)
| file_plddt a :
    output_file self record rank
      (struct_dir_of self record </> side_name "plddt" record rank "npz")
      (VectorArchive "plddt" a)
| file_matrix kind a :
    kind ∈ ["pae"; "pde"] →
    output_file self record rank
      (struct_dir_of self record </> side_name kind record rank "npz")
      (MatrixArchive kind a)
| file_step_pdb step d :
    output_format self = "pdb" →
    output_file self record rank
      (intermediate_dir_of self record
         </> intermediate_name record rank step (output_format self))
      (PdbText d)
| file_step_cif step d :
    output_format self = "mmcif" →
    output_file self record rank
      (intermediate_dir_of self record
         </> intermediate_name record rank step (output_format self))
      (MmcifText d None)
| file_step_opened step :
    output_format self ≠ "pdb" → output_format self ≠ "mmcif" →
    output_file self record rank
      (intermediate_dir_of self record
         </> intermediate_name record rank step (output_format self))
      EmptyFile
| file_step_npz step d :
    output_format self ≠ "pdb" → output_format self ≠ "mmcif" →
    output_file self record rank
      (savez_path
         (intermediate_dir_of self record
            </> intermediate_name record rank step (output_format self)))
      (StructureArchive d).

(** The events of processing candidate [model_idx] of a record: every file
    is named by the rank that [idx_to_rank] gives the candidate. *)
Definition model_event (self : BoltzWriter) (record : RecordT)
    (idx_to_rank : gmap nat nat) (model_idx : nat) (e : event) : Prop :=
  match e with
  | Mkdir p =>
      p = struct_dir_of self record ∨ p = intermediate_dir_of self record
  | WriteFile p c =>
      ∃ rank, idx_to_rank !! model_idx = Some rank ∧
              output_file self record rank p c
  end.

(** The events of a batch: those of some candidate of some record of the
    batch, under the one rank table of the batch. *)
Definition batch_event `{Externals} (self : BoltzWriter)
    (prediction : Prediction) (batch : Batch) (e : event) : Prop :=
  ∃ idx_to_rank record model_idx,
    ranking prediction = Ok idx_to_rank ∧
    record ∈ batch_record batch ∧
    model_idx < length (pred_coords prediction) ∧
    model_event self record idx_to_rank model_idx e.

(** What [torch.argsort(scores, descending=True)] promises of its result
    [order]: it lists every index once, and scores do not increase along
    it. The order of indices with equal scores is left open. *)
Definition descending_argsort (scores : list scalar) (order : list nat)
  : Prop :=
  order ≡ₚ seq 0 (length scores) ∧
  ∀ (r1 r2 i1 i2 : nat) (x1 x2 : scalar),
    r1 < r2 → order !! r1 = Some i1 → order !! r2 = Some i2 →
    scores !! i1 = Some x1 → scores !! i2 = Some x2 → (x2 ≤ x1)%Z.

(** Candidates of equal score stand in [order] by ascending index, as a
    stable sort leaves them. *)
Definition ties_in_index_order (scores : list scalar) (order : list nat)
  : Prop :=
  ∀ (r1 r2 i1 i2 : nat) (x : scalar),
    r1 < r2 → order !! r1 = Some i1 → order !! r2 = Some i2 →
    scores !! i1 = Some x → scores !! i2 = Some x → i1 < i2.

(** [KeyError] and [IndexError] are the lookup errors of Python. *)
Definition lookup_error (e : exn) : Prop :=
  match e with
  | KeyError _ | IndexError => True
  | _ => False
  end.

(** What [snapshot] returns in a given state. *)
Definition read_structure (st : Structure) (s : State) : result StructureData :=
  match atom_arrays s !! atoms st with
  | Some a =>
      match residue_arrays s !! residues st with
      | Some r =>
          Ok (mkStructureData a r (chains st) (interfaces st) (mask st))
      | None => Raise (KeyError (KInt (residues st)))
      end
  | None => Raise (KeyError (KInt (atoms st)))
  end.

(** The suffix of the final structure file of each format. *)
Definition format_suffix (format : string) : string :=
  if decide (format = "pdb") then "pdb"
  else if decide (format = "mmcif") then "cif"
  else "npz".

Definition structure_content (c : content) : Prop :=
  match c with
  | PdbText _ | MmcifText _ _ | StructureArchive _ => True
  | _ => False
  end.

(** The candidate loop up to and including the structure file
    (lines 92-187). *)
Definition until_structure_saved (self : BoltzWriter)
    (prediction : Prediction) (record : RecordT) (structure : Structure)
    (chain_map : gmap nat nat) (coord : list (list vec3))
    (pad_mask : list bool) (idx_to_rank : gmap nat nat) (model_idx : nat)
  : M unit :=
  save_intermediate self prediction record structure pad_mask idx_to_rank
    model_idx;;
  new_structure ← final_structure record structure chain_map coord pad_mask
                    model_idx;
  save_structure self prediction record idx_to_rank model_idx new_structure.

(** One of the keys read for the confidence summary is absent. *)
Definition confidence_field_missing (prediction : Prediction) : Prop :=
  (∃ key, key ∈ scalar_keys ∧ scalars prediction !! key = None) ∨
  pair_chains_iptm prediction = None.

(** An entry [jx] of a row of the summary against the entry [jt] of the
    batch tensor: the same chain index, and the value of the tensor for the
    candidate. *)
Definition summary_cell (model_idx : nat) (jt : nat * list scalar)
    (jx : nat * scalar) : Prop :=
  jx.1 = jt.1 ∧ jt.2 !! model_idx = Some jx.2.

(** ** The files of a candidate, with what they hold *)

(** A computation started in [s] adds to the file system log only events
    that satisfy [Φ], whether it returns or raises. *)
Definition writes_at {A} (Φ : event → Prop) (m : M A) (s : State) : Prop :=
  ∃ d, fs (m s).1 = fs s ++ d ∧ Forall Φ d.

(** The atom table of [d] is a table to which the coordinates [v] were
    assigned, with every atom marked present. *)
Definition carries_coords (v : list vec3) (d : StructureData) : Prop :=
  ∃ t t', assign_coords t v = Ok t' ∧ d_atoms d = assign_is_present true t'.

(** [d] carries the unpadded final coordinates of candidate [model_idx]. *)
Definition final_data (coord : list (list vec3)) (pad_mask : list bool)
    (model_idx : nat) (d : StructureData) : Prop :=
  ∃ model_coord,
    coord !! model_idx = Some model_coord ∧
    carries_coords (mask_select model_coord pad_mask) d.

(** [d] carries the unpadded coordinates of candidate [model_idx] at
    refinement step [step]. *)
Definition step_data (prediction : Prediction) (pad_mask : list bool)
    (model_idx step : nat) (d : StructureData) : Prop :=
  ∃ steps step_coords model_step_coords,
    intermediate_coords prediction = Some steps ∧
    steps !! step = Some step_coords ∧
    step_coords !! model_idx = Some model_step_coords ∧
    carries_coords (mask_select model_step_coords pad_mask) d.

(** A file of candidate [model_idx] of a record: it is named by [rank], and
    it holds the data of the prediction at index [model_idx]. *)
Inductive candidate_file (self : BoltzWriter) (prediction : Prediction)
    (record : RecordT) (coord : list (list vec3)) (pad_mask : list bool)
    (model_idx rank : nat) : string → content → Prop :=
| cfile_pdb d :
    output_format self = "pdb" →
    final_data coord pad_mask model_idx d →
    candidate_file self prediction record coord pad_mask model_idx rank
      (struct_dir_of self record </> model_name record rank "pdb") (PdbText d)
| cfile_cif d :
    output_format self = "mmcif" →
    plddt prediction = None →
    final_data coord pad_mask model_idx d →
    candidate_file self prediction record coord pad_mask model_idx rank
      (struct_dir_of self record </> model_name record rank "cif")
      (MmcifText d None)
| cfile_cif_plddt d p atom_plddt :
    output_format self = "mmcif" →
    plddt prediction = Some p → p !! model_idx = Some atom_plddt →
    final_data coord pad_mask model_idx d →
    candidate_file self prediction record coord pad_mask model_idx rank
      (struct_dir_of self record </> model_name record rank "cif")
      (MmcifText d (Some atom_plddt))
| cfile_cif_opened p :
    output_format self = "mmcif" →
    plddt prediction = Some p → p !! model_idx = None →
    candidate_file self prediction record coord pad_mask model_idx rank
      (struct_dir_of self record </> model_name record rank "cif") EmptyFile
| cfile_npz d :
    output_format self ≠ "pdb" → output_format self ≠ "mmcif" →
    final_data coord pad_mask model_idx d →
    candidate_file self prediction record coord pad_mask model_idx rank
      (struct_dir_of self record </> model_name record rank "npz")
      (StructureArchive d)
| cfile_confidence j :
    confidence_summary prediction model_idx = Ok j →
    candidate_file self prediction record coord pad_mask model_idx rank
      (struct_dir_of self record </> side_name "confidence" record rank "json")
      (JsonText j)
| cfile_plddt p atom_plddt :
    plddt prediction = Some p → p !! model_idx = Some atom_plddt →
    candidate_file self prediction record coord pad_mask model_idx rank
      (struct_dir_of self record </> side_name "plddt" record rank "npz")
      (VectorArchive "plddt" atom_plddt)
| cfile_pae t a :
    pae prediction = Some t → t !! model_idx = Some a →
    candidate_file self prediction record coord pad_mask model_idx rank
      (struct_dir_of self record </> side_name "pae" record rank "npz")
      (MatrixArchive "pae" a)
| cfile_pde t a :
    pde prediction = Some t → t !! model_idx = Some a →
    candidate_file self prediction record coord pad_mask model_idx rank
      (struct_dir_of self record </> side_name "pde" record rank "npz")
      (MatrixArchive "pde" a)
| cfile_step_pdb step d :
    output_format self = "pdb" →
    step_data prediction pad_mask model_idx step d →
    candidate_file self prediction record coord pad_mask model_idx rank
      (intermediate_dir_of self record
         </> intermediate_name record rank step (output_format self))
      (PdbText d)
| cfile_step_cif step d :
    output_format self = "mmcif" →
    step_data prediction pad_mask model_idx step d →
    candidate_file self prediction record coord pad_mask model_idx rank
      (intermediate_dir_of self record
         </> intermediate_name record rank step (output_format self))
      (MmcifText d None)
| cfile_step_opened step d :
    output_format self ≠ "pdb" → output_format self ≠ "mmcif" →
    step_data prediction pad_mask model_idx step d →
    candidate_file self prediction record coord pad_mask model_idx rank
      (intermediate_dir_of self record
         </> intermediate_name record rank step (output_format self))
      EmptyFile
| cfile_step_npz step d :
    output_format self ≠ "pdb" → output_format self ≠ "mmcif" →
    step_data prediction pad_mask model_idx step d →
    candidate_file self prediction record coord pad_mask model_idx rank
      (savez_path
         (intermediate_dir_of self record
            </> intermediate_name record rank step (output_format self)))
      (StructureArchive d).

(** The events of processing candidate [model_idx] of a record: every file
    is named by the rank that [idx_to_rank] gives the candidate and holds
    the data of that candidate. *)
Definition candidate_event (self : BoltzWriter) (prediction : Prediction)
    (record : RecordT) (coord : list (list vec3)) (pad_mask : list bool)
    (idx_to_rank : gmap nat nat) (model_idx : nat) (e : event) : Prop :=
  match e with
  | Mkdir p =>
      p = struct_dir_of self record ∨ p = intermediate_dir_of self record
  | WriteFile p c =>
      ∃ rank, idx_to_rank !! model_idx = Some rank ∧
              candidate_file self prediction record coord pad_mask model_idx
                rank p c
  end.

(** ** Sample collaborators and inputs

    A stable sort, which returns the candidate indices by descending score
    and keeps candidates of equal score in index order, and a chain filter
    that keeps the chains whose mask entry is [True] and renumbers them.
    The filter leaves the atom, residue and interface tables as they are:
    which rows belong to which chain is recorded in columns of
    [boltz.data.types] that the writer does not read. *)
Definition score_order (tie : nat → nat → Prop) (x y : nat * scalar) : Prop :=
  (y.2 < x.2)%Z ∨ (x.2 = y.2 ∧ tie x.1 y.1).

Global Instance score_order_dec (tie : nat → nat → Prop)
  `{∀ i j, Decision (tie i j)} : RelDecision (score_order tie).
Proof. intros x y. unfold score_order. apply _. Defined.

Definition argsort_low_index_first (scores : list scalar) : list nat :=
  (merge_sort (score_order le) (enumerate scores)).*1.

Definition keep_valid_chains (d : StructureData) : StructureData :=
  mkStructureData (d_atoms d) (d_residues d)
    (imap (λ i c, mkChain (chain_name c) i)
       (mask_select (d_chains d) (d_mask d)))
    (d_interfaces d)
    (replicate (count_true (d_mask d)) true).

Definition sample_externals : Externals :=
  {| remove_invalid_chains_tables := keep_valid_chains;
     argsort_descending := argsort_low_index_first |}.

Definition empty_state (d : gmap string StructureData) : State :=
  mkState 0 [] d ∅ ∅ 0.

(** A base structure of two atoms, one residue and one valid chain. *)
Definition two_atoms : StructureData :=
  mkStructureData
    [mkAtom "N" (0, 0, 0)%Z false; mkAtom "CA" (0, 0, 0)%Z false]
    [mkResidue "ALA" false]
    [mkChain "A" 0]
    [mkInterface 0 0]
    [true].

Definition sample_record (name : string) : RecordT :=
  mkRecord name [mkChainInfo 0 "A" true].

Definition sample_writer (format : string) : BoltzWriter :=
  mkWriter "data" "out" format.

Definition sample_prediction : Prediction :=
  mkPrediction false
    [[(1, 1, 1)%Z; (9, 9, 9)%Z; (2, 2, 2)%Z];
     [(3, 3, 3)%Z; (9, 9, 9)%Z; (4, 4, 4)%Z]]
    [[true; false; true]]
    {[ "confidence_score" := [2; 9]%Z ]}
    None None None None None.

(** The sample base structure in the store, as [Structure.load] and
    [remove_invalid_chains] leave it for the candidate loop. *)
Definition base_structure : Structure :=
  mkStructure 0 1 [mkChain "A" 0] [mkInterface 0 0] [true].

Definition base_state : State :=
  mkState 0 [] ∅ {[ 0 := d_atoms two_atoms ]} {[ 1 := d_residues two_atoms ]} 2.

Definition moved (c1 c2 : vec3) (residues_present : bool) : StructureData :=
  mkStructureData
    [mkAtom "N" c1 true; mkAtom "CA" c2 true]
    [mkResidue "ALA" residues_present]
    [mkChain "A" 0] [] [true].

(** One candidate, three padded slots of which the second is padding. *)
Definition one_candidate : Prediction :=
  mkPrediction false
    [[(1, 1, 1)%Z; (9, 9, 9)%Z; (2, 2, 2)%Z]]
    [[true; false; true]; [true; false; true]]
    {[ "confidence_score" := [5]%Z ]}
    None None None None None.

(** The same with the coordinates of one refinement step. *)
Definition one_candidate_one_step : Prediction :=
  mkPrediction false
    [[(1, 1, 1)%Z; (9, 9, 9)%Z; (2, 2, 2)%Z]]
    [[true; false; true]]
    {[ "confidence_score" := [5]%Z ]}
    None None None None
    (Some [[[(7, 7, 7)%Z; (9, 9, 9)%Z; (8, 8, 8)%Z]]]).

(** One candidate and two refinement steps. *)
Definition one_candidate_two_steps : Prediction :=
  mkPrediction false
    [[(1, 1, 1)%Z; (9, 9, 9)%Z; (2, 2, 2)%Z]]
    [[true; false; true]]
    {[ "confidence_score" := [5]%Z ]}
    None None None None
    (Some [[[(5, 5, 5)%Z; (9, 9, 9)%Z; (6, 6, 6)%Z]];
           [[(7, 7, 7)%Z; (9, 9, 9)%Z; (8, 8, 8)%Z]]]).

(** Two candidates and one refinement step. *)
Definition two_candidates_one_step : Prediction :=
  mkPrediction false
    [[(1, 1, 1)%Z; (9, 9, 9)%Z; (2, 2, 2)%Z];
     [(3, 3, 3)%Z; (9, 9, 9)%Z; (4, 4, 4)%Z]]
    [[true; false; true]]
    {[ "confidence_score" := [9; 2]%Z ]}
    None None None None
    (Some [[[(5, 5, 5)%Z; (9, 9, 9)%Z; (5, 5, 5)%Z];
            [(6, 6, 6)%Z; (9, 9, 9)%Z; (6, 6, 6)%Z]]]).

(** Two candidates of equal score. *)
Definition tied_candidates : Prediction :=
  mkPrediction false
    [[(1, 1, 1)%Z; (9, 9, 9)%Z; (2, 2, 2)%Z];
     [(3, 3, 3)%Z; (9, 9, 9)%Z; (4, 4, 4)%Z]]
    [[true; false; true]]
    {[ "confidence_score" := [5; 5]%Z ]}
    None None None None None.

(** A mask that marks one atom for a structure of two. *)
Definition one_atom_marked : Prediction :=
  mkPrediction false
    [[(1, 1, 1)%Z; (9, 9, 9)%Z; (2, 2, 2)%Z]]
    [[true; false; false]]
    {[ "confidence_score" := [5]%Z ]}
    None None None None None.

Definition all_scalars : gmap string (list scalar) :=
  list_to_map ((λ key, (key, [5]%Z)) <$> scalar_keys).

Definition two_chain_pairs : odict nat (odict nat (list scalar)) :=
  [(0, [(0, [10]%Z); (1, [11]%Z)]); (1, [(0, [12]%Z); (1, [13]%Z)])].

(** Every scalar confidence field and the pairwise chain tensor, without
    per-atom confidence. *)
Definition scalars_without_plddt : Prediction :=
  mkPrediction false
    [[(1, 1, 1)%Z; (9, 9, 9)%Z; (2, 2, 2)%Z]]
    [[true; false; true]]
    all_scalars
    None None None (Some two_chain_pairs) None.

(** The same with per-atom confidence. *)
Definition full_confidence : Prediction :=
  mkPrediction false
    [[(1, 1, 1)%Z; (9, 9, 9)%Z; (2, 2, 2)%Z]]
    [[true; false; true]]
    all_scalars
    (Some [[70; 0; 80]%Z]) None None (Some two_chain_pairs) None.

(** Per-atom confidence without "confidence_score". *)
Definition plddt_without_score : Prediction :=
  mkPrediction false
    [[(1, 1, 1)%Z; (9, 9, 9)%Z; (2, 2, 2)%Z]]
    [[true; false; true]]
    (delete "confidence_score" all_scalars)
    (Some [[70; 0; 80]%Z]) None None (Some two_chain_pairs) None.

(** Per-atom confidence and "confidence_score" without "ptm". *)
Definition plddt_without_ptm : Prediction :=
  mkPrediction false
    [[(1, 1, 1)%Z; (9, 9, 9)%Z; (2, 2, 2)%Z]]
    [[true; false; true]]
    (delete "ptm" all_scalars)
    (Some [[70; 0; 80]%Z]) None None (Some two_chain_pairs) None.

(** A base structure of three chains, the second of them invalid. *)
Definition three_chains : StructureData :=
  mkStructureData
    [mkAtom "N" (0, 0, 0)%Z true; mkAtom "O" (0, 0, 0)%Z true;
     mkAtom "C" (0, 0, 0)%Z true]
    [mkResidue "ALA" true; mkResidue "HOH" true; mkResidue "GLY" true]
    [mkChain "A" 0; mkChain "B" 1; mkChain "C" 2]
    []
    [true; false; true].

(** A batch that upstream marked as failed. *)
Definition flagged : Prediction :=
  mkPrediction true [] [] ∅ None None None None None.

Definition sample_disk : gmap string StructureData :=
  {[ "data/A.npz" := two_atoms; "data/B.npz" := two_atoms;
     "data/C.npz" := three_chains ]}.

Definition run `{Externals} (format : string) (prediction : Prediction)
    (names : list string) : State * result () :=
  write_on_batch_end (sample_writer format) prediction
    (mkBatch (sample_record <$> names)) (empty_state sample_disk).

(** ** The end of the predict phase and the run of the harness *)

(** [BoltzWriter.on_predict_epoch_end] prints one line and changes nothing;
    the line is the value returned here. *)
Definition on_predict_epoch_end : M string := λ s,
  (s, Ok ("Number of failed examples: " +:+ pretty (failed s))).

(** The harness calls the writer once per batch, in order; an exception of
    a call ends the run. *)
Definition predict_run `{Externals} (self : BoltzWriter)
    (calls : list (Prediction * Batch)) : M unit :=
  for_each calls (λ call, write_on_batch_end self call.1 call.2).

(** The batches of a run that upstream marked as failed. *)
Definition flagged_count (calls : list (Prediction * Batch)) : nat :=
  length (filter (λ call, exception call.1 = true) calls).

(** Two calls of a run, the first of them flagged. *)
Definition sample_calls : list (Prediction * Batch) :=
  [ (flagged, mkBatch [sample_record "A"]);
    (one_candidate, mkBatch [sample_record "A"]) ].

(** The content of a structure file: the text of the encoder of the format,
    or the archive. *)
Definition structure_text (format : string) (d : StructureData)
    (atom_plddt : option (list scalar)) : content :=
  if decide (format = "pdb") then PdbText d
  else if decide (format = "mmcif") then MmcifText d atom_plddt
  else StructureArchive d.

(** [d] is the filtered base [base] with the coordinates [v]: the atoms
    carry [v] row by row and are present, the residues are present, the
    interfaces are empty, and all else is as in [base]. *)
Definition candidate_of (base : StructureData) (v : list vec3)
    (d : StructureData) : Prop :=
  coords <$> d_atoms d = v ∧
  Forall (λ a, is_present a = true) (d_atoms d) ∧
  atom_name <$> d_atoms d = atom_name <$> d_atoms base ∧
  Forall (λ r, res_is_present r = true) (d_residues d) ∧
  res_name <$> d_residues d = res_name <$> d_residues base ∧
  d_chains d = d_chains base ∧
  d_interfaces d = [] ∧
  d_mask d = d_mask base.

(** The store holds the tables of the base, up to the columns the writer
    assigns. *)
Definition holds_base (structure : Structure) (base : StructureData)
    (s : State) : Prop :=
  ∃ t r,
    atom_arrays s !! atoms structure = Some t ∧
    residue_arrays s !! residues structure = Some r ∧
    atom_name <$> t = atom_name <$> d_atoms base ∧
    res_name <$> r = res_name <$> d_residues base.

(** The file system effects of a candidate of a batch without optional
    fields: the directory of the record, then the structure file named by
    the rank, holding the base with the unpadded coordinates. *)
Definition candidate_events (self : BoltzWriter) (record : RecordT)
    (idx_to_rank : gmap nat nat) (pad_mask : list bool)
    (base : StructureData) (model_idx : nat) (model_coord : list vec3)
    (events : list event) : Prop :=
  ∃ rank d,
    idx_to_rank !! model_idx = Some rank ∧
    events =
      [ Mkdir (struct_dir_of self record);
        WriteFile (struct_dir_of self record
                     </> model_name record rank
                           (format_suffix (output_format self)))
          (structure_text (output_format self) d None) ] ∧
    candidate_of base (mask_select model_coord pad_mask) d.

(** The file of one refinement step of a candidate of rank [rank]: named by
    rank and step, holding the base atom table [t] with the unpadded
    coordinates of the step and every atom present, and the residue table
    [r] of the base as it is. *)
Definition step_file (self : BoltzWriter) (record : RecordT)
    (structure : Structure) (pad_mask : list bool) (model_idx rank : nat)
    (t : list Atom) (r : list Residue)
    (item : nat * list (list vec3)) (e : event) : Prop :=
  ∃ model_step_coords d,
    item.2 !! model_idx = Some model_step_coords ∧
    e = WriteFile
          (intermediate_dir_of self record
             </> intermediate_name record rank item.1 (output_format self))
          (structure_text (output_format self) d None) ∧
    coords <$> d_atoms d = mask_select model_step_coords pad_mask ∧
    Forall (λ a, is_present a = true) (d_atoms d) ∧
    atom_name <$> d_atoms d = atom_name <$> t ∧
    d_residues d = r ∧
    d_chains d = chains structure ∧
    d_interfaces d = [] ∧
    d_mask d = mask structure.
(** ** The chain map *)

Lemma enumerate_from_zip {A} (l : list A) (k : nat) :
  imap (λ i, pair (k + i)) l = zip (seq k (length l)) l.
Proof.
  revert k. induction l as [|x l IH]; intros k; [done|].
  cbn [imap length seq zip zip_with]. rewrite Nat.add_0_r. f_equal.
  rewrite <- IH. apply imap_ext. intros i y _. cbn. f_equal. lia.
Qed.

Lemma enumerate_zip {A} (l : list A) :
  enumerate l = zip (seq 0 (length l)) l.
Proof. apply (enumerate_from_zip l 0). Qed.

Lemma dense_empty : dense ∅.
Proof.
  intros j. rewrite lookup_empty, map_size_empty. split.
  - intros [? ?]; discriminate.
  - lia.
Qed.

Lemma dense_fresh (m : gmap nat nat) : dense m → m !! size m = None.
Proof.
  intros Hd. destruct (m !! size m) eqn:E; [|done].
  assert (size m < size m) by (apply Hd; eauto). lia.
Qed.

Lemma dense_push (m : gmap nat nat) (a : nat) :
  dense m → dense (<[size m := a]> m) ∧ size (<[size m := a]> m) = S (size m).
Proof.
  intros Hd. pose proof (dense_fresh m Hd) as Hf.
  assert (Hs : size (<[size m := a]> m) = S (size m))
    by (by apply map_size_insert_None).
  split; [|done]. intros j. rewrite Hs.
  destruct (decide (j = size m)) as [->|Hne].
  - rewrite lookup_insert_eq. split; [lia|eauto].
  - rewrite lookup_insert_ne by done. rewrite (Hd j). lia.
Qed.

Lemma chain_map_loop (l : list bool) : ∀ (k : nat) (m : gmap nat nat),
  dense m →
  ∀ j, foldl chain_map_step m (zip (seq k (length l)) l) !! j
       = if decide (j < size m) then m !! j
         else true_positions_from k l !! (j - size m).
Proof.
  induction l as [|b l IH]; intros k m Hd j; cbn [length seq zip zip_with foldl].
  - case_decide; [done|]. cbn [true_positions_from]. rewrite lookup_nil.
    apply eq_None_not_Some.
    rewrite (Hd j). lia.
  - unfold chain_map_step at 2. cbn [fst snd true_positions_from].
    destruct b.
    + destruct (dense_push m k Hd) as [Hd' Hs].
      rewrite (IH (S k) _ Hd' j), Hs.
      destruct (decide (j < size m)) as [Hlt|Hge].
      * rewrite decide_True by lia. apply lookup_insert_ne. lia.
      * destruct (decide (j = size m)) as [->|Hne].
        -- rewrite decide_True by lia. rewrite lookup_insert_eq.
           by rewrite Nat.sub_diag.
        -- rewrite decide_False by lia.
           replace (j - size m) with (S (j - S (size m))) by lia. done.
    + by rewrite (IH (S k) m Hd j).
Qed.

Lemma build_chain_map_lookup (v : list bool) (i : nat) :
  build_chain_map v !! i = true_positions_from 0 v !! i.
Proof.
  unfold build_chain_map. rewrite enumerate_zip.
  rewrite (chain_map_loop v 0 ∅ dense_empty i), map_size_empty.
  rewrite decide_False by lia. by rewrite Nat.sub_0_r.
Qed.

Lemma true_positions_length (v : list bool) (k : nat) :
  length (true_positions_from k v) = count_true v.
Proof.
  revert k. induction v as [|[] v IH]; intros k; cbn; [done| |]; by rewrite IH.
Qed.

Lemma true_positions_lookup (v : list bool) : ∀ (k i a : nat),
  true_positions_from k v !! i = Some a →
  k ≤ a ∧ v !! (a - k) = Some true ∧ count_true (take (a - k) v) = i.
Proof.
  induction v as [|b v IH]; intros k i a H; cbn in H; [done|].
  destruct b.
  - destruct i as [|i]; cbn in H.
    + inversion H; subst. rewrite Nat.sub_diag. by repeat split.
    + destruct (IH _ _ _ H) as (Hle & Hv & Hc).
      replace (a - k) with (S (a - S k)) by lia. cbn.
      split; [lia|]. split; [done|]. by rewrite Hc.
  - destruct (IH _ _ _ H) as (Hle & Hv & Hc).
    replace (a - k) with (S (a - S k)) by lia. cbn.
    split; [lia|]. by split.
Qed.

Lemma count_true_take_mono (v : list bool) (a b : nat) :
  a ≤ b → count_true (take a v) ≤ count_true (take b v).
Proof.
  revert a b. induction v as [|x v IH]; intros a b Hab.
  - by rewrite !take_nil.
  - destruct a as [|a]; [cbn; lia|]. destruct b as [|b]; [lia|].
    cbn. specialize (IH a b). lia.
Qed.

Lemma materialise_eq (d : StructureData) (s : State) :
  materialise d s =
    (mkState (failed s) (fs s) (disk s)
       (<[next_loc s := d_atoms d]> (atom_arrays s))
       (<[S (next_loc s) := d_residues d]> (residue_arrays s))
       (S (S (next_loc s))),
     Ok (mkStructure (next_loc s) (S (next_loc s)) (d_chains d)
           (d_interfaces d) (d_mask d))).
Proof. reflexivity. Qed.

(** C6. The chain map of a validity mask [v] is defined exactly on
    [0 .. count(v)-1]; its value at [i] is a position of [v] that holds
    [True] and has exactly [i] [True] entries before it (the position of the
    [i]-th [True]); it is strictly increasing, hence injective; and the
    record loop builds it from the mask of the structure as loaded, before
    [remove_invalid_chains] is applied. *)
Theorem chain_map_increasing_injection `{Externals} (v : list bool) :
  let chain_map := build_chain_map v in
  (∀ i, is_Some (chain_map !! i) ↔ i < count_true v) ∧
  (∀ i a, chain_map !! i = Some a →
     a < length v ∧ v !! a = Some true ∧ count_true (take a v) = i) ∧
  (∀ i j a b, chain_map !! i = Some a → chain_map !! j = Some b →
     i < j → a < b) ∧
  (∀ i j a, chain_map !! i = Some a → chain_map !! j = Some a → i = j) ∧
  (∀ self prediction idx_to_rank record coord pad_mask s d,
     disk s !! (data_dir self </> (record_id record +:+ ".npz")) = Some d →
     d_mask d = v →
     process_record self prediction idx_to_rank (record, (coord, pad_mask)) s
     = (loaded ← materialise d;
        structure ← remove_invalid_chains loaded;
        for_each (seq 0 (length coord))
          (process_model self prediction record structure chain_map coord
             pad_mask idx_to_rank)) s).
Proof.
  intros chain_map.
  assert (Hpos : ∀ i a, chain_map !! i = Some a →
            a < length v ∧ v !! a = Some true ∧ count_true (take a v) = i).
  { intros i a Hi. unfold chain_map in Hi.
    rewrite build_chain_map_lookup in Hi.
    destruct (true_positions_lookup v 0 i a Hi) as (_ & Hv & Hc).
    rewrite Nat.sub_0_r in Hv, Hc. split; [|done].
    by apply lookup_lt_Some in Hv. }
  split; [|split; [exact Hpos|split; [|split]]].
  - intros i. unfold chain_map. rewrite build_chain_map_lookup.
    rewrite <- (true_positions_length v 0). apply lookup_lt_is_Some.
  - intros i j a b Hi Hj Hij.
    destruct (Hpos i a Hi) as (_ & _ & Ha).
    destruct (Hpos j b Hj) as (_ & _ & Hb).
    destruct (decide (a < b)) as [|Hge]; [done|].
    pose proof (count_true_take_mono v b a ltac:(lia)). lia.
  - intros i j a Hi Hj.
    destruct (Hpos i a Hi) as (_ & _ & Ha).
    destruct (Hpos j a Hj) as (_ & _ & Hb). congruence.
  - intros self prediction idx_to_rank record coord pad_mask s d Hd Hv.
    unfold process_record, Structure_load, mbind, M_bind.
    rewrite Hd, materialise_eq. cbn [mask]. by rewrite Hv.
Qed.

(** ** Reasoning about effects *)

Section only_writes.
Context (Φ : event → Prop).

Lemma only_writes_pure {A} (m : M A) :
  (∀ s, failed (m s).1 = failed s ∧ fs (m s).1 = fs s) → only_writes Φ m.
Proof.
  intros Hm s. destruct (Hm s) as [Hf Hl]. split; [done|].
  exists []. by rewrite Hl, app_nil_r.
Qed.

Lemma only_writes_ret {A} (a : A) : only_writes Φ (mret a).
Proof. by apply only_writes_pure. Qed.

Lemma only_writes_raise {A} (e : exn) : only_writes Φ (@raise A e).
Proof. by apply only_writes_pure. Qed.

Lemma only_writes_lift {A} (r : result A) : only_writes Φ (lift r).
Proof. by apply only_writes_pure. Qed.

Lemma only_writes_bind {A B} (m : M A) (f : A → M B) :
  only_writes Φ m → (∀ a, only_writes Φ (f a)) → only_writes Φ (m ≫= f).
Proof.
  intros Hm Hf s. unfold mbind, M_bind.
  destruct (Hm s) as (Hfail & d & Hd & HΦ).
  destruct (m s) as [s1 [a|e]]; cbn [fst] in *.
  - destruct (Hf a s1) as (Hfail' & d' & Hd' & HΦ').
    split; [congruence|]. exists (d ++ d'). split.
    + by rewrite Hd', Hd, app_assoc.
    + by apply Forall_app.
  - split; [done|]. by exists d.
Qed.

Lemma only_writes_emit (e : event) : Φ e → only_writes Φ (emit e).
Proof.
  intros He s. split; [done|]. exists [e]. split; [done|].
  by apply Forall_singleton.
Qed.

Lemma only_writes_for_each {A} (l : list A) (body : A → M unit) :
  (∀ x, x ∈ l → only_writes Φ (body x)) → only_writes Φ (for_each l body).
Proof.
  induction l as [|x l IH]; intros Hb; cbn [for_each].
  - apply only_writes_ret.
  - apply only_writes_bind.
    + apply Hb. by left.
    + intros _. apply IH. intros y Hy. apply Hb. by right.
Qed.

Lemma only_writes_read_atoms l : only_writes Φ (read_atoms l).
Proof. by apply only_writes_pure. Qed.
Lemma only_writes_read_residues l : only_writes Φ (read_residues l).
Proof. by apply only_writes_pure. Qed.
Lemma only_writes_store_atoms l t : only_writes Φ (store_atoms l t).
Proof. by apply only_writes_pure. Qed.
Lemma only_writes_store_residues l t : only_writes Φ (store_residues l t).
Proof. by apply only_writes_pure. Qed.
Lemma only_writes_new_atoms t : only_writes Φ (new_atoms t).
Proof. by apply only_writes_pure. Qed.
Lemma only_writes_new_residues t : only_writes Φ (new_residues t).
Proof. by apply only_writes_pure. Qed.
End only_writes.

Lemma only_writes_mono {A} (Φ Ψ : event → Prop) (m : M A) :
  (∀ e, Φ e → Ψ e) → only_writes Φ m → only_writes Ψ m.
Proof.
  intros HΦΨ Hm s. destruct (Hm s) as (Hf & d & Hd & HΦ).
  split; [done|]. exists d. split; [done|].
  eapply Forall_impl; [exact HΦ|exact HΦΨ].
Qed.

Create HintDb effects discriminated.
Global Hint Resolve only_writes_ret only_writes_raise only_writes_lift
  only_writes_read_atoms only_writes_read_residues only_writes_store_atoms
  only_writes_store_residues only_writes_new_atoms only_writes_new_residues
  : effects.

(** Walks through a computation built from binds, conditionals and the
    operations registered in the [effects] database. *)
Ltac walk :=
  repeat first
    [ solve [auto with effects]
    | apply only_writes_bind; [|intros ?]
    | case_decide
    | case_match ].

Section heap_effects.
Context (Φ : event → Prop).

Lemma only_writes_snapshot st : only_writes Φ (snapshot st).
Proof. unfold snapshot. walk. Qed.

Lemma only_writes_materialise d : only_writes Φ (materialise d).
Proof. unfold materialise. walk. Qed.

Lemma only_writes_Structure_load path : only_writes Φ (Structure_load path).
Proof.
  intros s. unfold Structure_load. destruct (disk s !! path).
  - apply only_writes_materialise.
  - by apply (only_writes_raise Φ).
Qed.

Lemma only_writes_remove_invalid_chains `{Externals} st :
  only_writes Φ (remove_invalid_chains st).
Proof.
  unfold remove_invalid_chains.
  apply only_writes_bind; [apply only_writes_snapshot|intros ?].
  apply only_writes_materialise.
Qed.

Lemma only_writes_set_coords l v : only_writes Φ (set_coords l v).
Proof. unfold set_coords. walk. Qed.

Lemma only_writes_set_is_present l b : only_writes Φ (set_is_present l b).
Proof. unfold set_is_present. walk. Qed.

Lemma only_writes_set_res_is_present l b :
  only_writes Φ (set_res_is_present l b).
Proof. unfold set_res_is_present. walk. Qed.

Lemma only_writes_copy_atoms l : only_writes Φ (copy_atoms l).
Proof. unfold copy_atoms. walk. Qed.
End heap_effects.

Global Hint Resolve only_writes_snapshot only_writes_materialise
  only_writes_Structure_load only_writes_remove_invalid_chains
  only_writes_set_coords only_writes_set_is_present
  only_writes_set_res_is_present only_writes_copy_atoms : effects.

Lemma only_writes_assemble_intermediate Φ structure coord_unpad :
  only_writes Φ (assemble_intermediate structure coord_unpad).
Proof. unfold assemble_intermediate. walk. Qed.

Lemma only_writes_assemble_final Φ structure coord_unpad :
  only_writes Φ (assemble_final structure coord_unpad).
Proof. unfold assemble_final. walk. Qed.

Lemma only_writes_final_structure Φ record structure chain_map coord
    pad_mask model_idx :
  only_writes Φ
    (final_structure record structure chain_map coord pad_mask model_idx).
Proof.
  unfold final_structure. walk.
Qed.

(** ** File names *)

Lemma append_cons (a : Ascii.ascii) (x y : string) :
  String a x +:+ y = String a (x +:+ y).
Proof. reflexivity. Qed.

Lemma append_empty (y : string) : "" +:+ y = y.
Proof. reflexivity. Qed.

Lemma rev_app_append (x y acc : string) :
  String.rev_app (x +:+ y) acc = String.rev_app y (String.rev_app x acc).
Proof.
  revert acc. induction x as [|a x IH]; intros acc; [done|].
  rewrite append_cons. cbn [String.rev_app]. apply IH.
Qed.

Lemma append_assoc (x y z : string) : (x +:+ y) +:+ z = x +:+ y +:+ z.
Proof.
  induction x as [|a x IH]; [done|]. by rewrite !append_cons, IH.
Qed.

Lemma rev_app_acc (y acc : string) :
  String.rev_app y acc = String.rev_app y "" +:+ acc.
Proof.
  revert acc. induction y as [|a y IH]; intros acc; [done|].
  cbn [String.rev_app].
  rewrite (IH (String a acc)), (IH (String a "")). by rewrite append_assoc.
Qed.

Lemma prefix_append (p a b : string) :
  String.prefix p a = true → String.prefix p (a +:+ b) = true.
Proof.
  revert p. induction a as [|c' a IH]; intros p.
  - destruct p; cbn [String.prefix]; [|done].
    intros _. rewrite append_empty. by destruct b.
  - rewrite append_cons. destruct p as [|c p]; cbn [String.prefix]; [done|].
    destruct (Ascii.ascii_dec c c'); [apply IH|done].
Qed.

Lemma ends_with_append (suffix x y : string) :
  ends_with suffix y = true → ends_with suffix (x +:+ y) = true.
Proof.
  unfold ends_with, String.rev. intros Hy.
  rewrite rev_app_append, (rev_app_acc y). by apply prefix_append.
Qed.

Lemma savez_path_model dir record rank :
  savez_path (dir </> model_name record rank "npz")
  = dir </> model_name record rank "npz".
Proof.
  assert (ends_with ".npz" (model_name record rank "npz") = true) as Hname.
  { unfold model_name. by do 3 apply ends_with_append. }
  unfold savez_path, path_join. destruct (is_absolute _).
  - by rewrite Hname.
  - rewrite ends_with_append; [done|]. by apply ends_with_append.
Qed.

Lemma savez_path_side dir kind record rank :
  savez_path (dir </> side_name kind record rank "npz")
  = dir </> side_name kind record rank "npz".
Proof.
  assert (ends_with ".npz" (side_name kind record rank "npz") = true)
    as Hname.
  { unfold side_name, model_name. by do 5 apply ends_with_append. }
  unfold savez_path, path_join. destruct (is_absolute _).
  - by rewrite Hname.
  - rewrite ends_with_append; [done|]. by apply ends_with_append.
Qed.

(** ** The files of a candidate *)

Section events.
Context (self : BoltzWriter) (prediction : Prediction) (record : RecordT)
        (idx_to_rank : gmap nat nat) (model_idx : nat).

Local Abbreviation Φ := (model_event self record idx_to_rank model_idx).

Lemma rank_of_Ok rank :
  rank_of idx_to_rank model_idx = Ok rank →
  idx_to_rank !! model_idx = Some rank.
Proof. unfold rank_of. by destruct (idx_to_rank !! model_idx); intros [=->]. Qed.

(** After a successful rank lookup the continuation may use the rank. *)
Lemma only_writes_rank {B} (k : nat → M B) :
  (∀ rank, idx_to_rank !! model_idx = Some rank → only_writes Φ (k rank)) →
  only_writes Φ (lift (rank_of idx_to_rank model_idx) ≫= k).
Proof.
  intros Hk s. unfold mbind, M_bind, lift.
  destruct (rank_of idx_to_rank model_idx) as [rank|e] eqn:E.
  - apply Hk. by apply rank_of_Ok.
  - by apply (only_writes_raise Φ e).
Qed.

Lemma write_ok rank p c :
  idx_to_rank !! model_idx = Some rank →
  output_file self record rank p c →
  only_writes Φ (emit (WriteFile p c)).
Proof. intros Hr Hf. apply only_writes_emit. cbn. eauto. Qed.

Lemma only_writes_save_intermediate_step structure pad_mask step_coords :
  only_writes Φ
    (save_intermediate_step self record structure pad_mask idx_to_rank
       model_idx (intermediate_dir_of self record) step_coords).
Proof.
  unfold save_intermediate_step. destruct step_coords as [step step_coords].
  apply only_writes_bind; [walk|intros ?].
  apply only_writes_bind; [walk|intros ?].
  apply only_writes_bind; [apply only_writes_assemble_intermediate|intros ?].
  apply only_writes_rank. intros rank Hrank.
  apply only_writes_bind; [walk|intros d].
  repeat case_decide.
  - eapply write_ok; [done|]. by constructor.
  - eapply write_ok; [done|]. by constructor.
  - apply only_writes_bind; [|intros _].
    + eapply write_ok; [done|]. by constructor.
    + eapply write_ok; [done|]. by constructor.
Qed.

Lemma only_writes_save_intermediate structure pad_mask :
  only_writes Φ
    (save_intermediate self prediction record structure pad_mask idx_to_rank
       model_idx).
Proof.
  unfold save_intermediate. destruct (intermediate_coords prediction).
  - apply only_writes_bind; [|intros _].
    + apply only_writes_emit. cbn. by right.
    + apply only_writes_for_each. intros x _.
      apply only_writes_save_intermediate_step.
  - apply only_writes_ret.
Qed.

Lemma only_writes_save_structure new_structure :
  only_writes Φ
    (save_structure self prediction record idx_to_rank model_idx
       new_structure).
Proof.
  unfold save_structure.
  apply only_writes_bind; [apply only_writes_emit; cbn; by left|intros _].
  repeat case_decide.
  - apply only_writes_rank. intros rank Hrank.
    apply only_writes_bind; [walk|intros d].
    eapply write_ok; [done|]. by constructor.
  - apply only_writes_rank. intros rank Hrank.
    destruct (plddt prediction) as [p|].
    + destruct (p !! model_idx).
      * apply only_writes_bind; [walk|intros d].
        eapply write_ok; [done|]. by constructor.
      * apply only_writes_bind; [|intros _; apply only_writes_raise].
        eapply write_ok; [done|]. by constructor.
    + apply only_writes_bind; [walk|intros d].
      eapply write_ok; [done|]. by constructor.
  - apply only_writes_rank. intros rank Hrank.
    apply only_writes_bind; [walk|intros d].
    rewrite savez_path_model.
    eapply write_ok; [done|]. by constructor.
Qed.

Lemma only_writes_save_confidence :
  only_writes Φ
    (save_confidence self prediction record idx_to_rank model_idx).
Proof.
  unfold save_confidence. destruct (plddt prediction) as [p|].
  - apply only_writes_rank. intros rank Hrank.
    apply only_writes_bind; [walk|intros j].
    apply only_writes_bind; [|intros _].
    { eapply write_ok; [done|]. by constructor. }
    apply only_writes_bind; [walk|intros a].
    apply only_writes_rank. intros rank' Hrank'.
    rewrite savez_path_side.
    eapply write_ok; [done|]. by constructor.
  - apply only_writes_ret.
Qed.

Lemma only_writes_save_matrix kind field :
  kind ∈ ["pae"; "pde"] →
  only_writes Φ (save_matrix kind field self record idx_to_rank model_idx).
Proof.
  intros Hkind. unfold save_matrix. destruct field as [t|].
  - apply only_writes_bind; [walk|intros a].
    apply only_writes_rank. intros rank Hrank.
    rewrite savez_path_side.
    eapply write_ok; [done|]. by constructor.
  - apply only_writes_ret.
Qed.

Lemma only_writes_process_model structure chain_map coord pad_mask :
  only_writes Φ
    (process_model self prediction record structure chain_map coord pad_mask
       idx_to_rank model_idx).
Proof.
  unfold process_model.
  apply only_writes_bind; [apply only_writes_save_intermediate|intros _].
  apply only_writes_bind; [apply only_writes_final_structure|intros ns].
  apply only_writes_bind; [apply only_writes_save_structure|intros _].
  apply only_writes_bind; [apply only_writes_save_confidence|intros _].
  apply only_writes_bind; [|intros _].
  - apply only_writes_save_matrix. set_solver.
  - apply only_writes_save_matrix. set_solver.
Qed.
End events.

(** ** The batch *)

Lemma only_writes_lift_bind {A B} Φ (r : result A) (k : A → M B) :
  (∀ a, r = Ok a → only_writes Φ (k a)) → only_writes Φ (lift r ≫= k).
Proof.
  intros Hk s. unfold mbind, M_bind, lift. destruct r as [a|e].
  - by apply Hk.
  - by apply (only_writes_raise Φ e).
Qed.

Lemma only_writes_process_record `{Externals} self prediction idx_to_rank
    record coord pad_mask :
  only_writes
    (λ e, ∃ model_idx, model_idx < length coord ∧
                       model_event self record idx_to_rank model_idx e)
    (process_record self prediction idx_to_rank (record, (coord, pad_mask))).
Proof.
  unfold process_record.
  apply only_writes_bind; [apply only_writes_Structure_load|intros loaded].
  apply only_writes_bind; [apply only_writes_remove_invalid_chains|intros st].
  apply only_writes_for_each. intros model_idx Hin.
  apply elem_of_seq in Hin.
  eapply only_writes_mono; [|apply only_writes_process_model].
  intros e He. exists model_idx. split; [lia|done].
Qed.

Lemma only_writes_batch `{Externals} self prediction batch :
  exception prediction = false →
  only_writes (batch_event self prediction batch)
    (write_on_batch_end self prediction batch).
Proof.
  intros Hexc. unfold write_on_batch_end. rewrite Hexc.
  apply only_writes_lift_bind. intros idx_to_rank Hrank.
  apply only_writes_for_each. intros [record [coord pad_mask]] Hin.
  pose proof (elem_of_zip_l _ _ _ _ Hin) as Hrec.
  apply elem_of_zip_r, elem_of_zip_l, list_elem_of_singleton in Hin as ->.
  eapply only_writes_mono; [|apply only_writes_process_record].
  intros e (model_idx & Hlt & He). by exists idx_to_rank, record, model_idx.
Qed.

(** [zip] stops after the one entry of the coordinates: only the first
    record of the batch is reached. *)
Lemma zip_singleton_middle {A B C} (l : list A) (c : B) (m : list C) :
  zip l (zip [c] m) = zip (take 1 l) (zip [c] m).
Proof. destruct l as [|x l], m as [|y m]; try done. by destruct l. Qed.

Lemma write_on_batch_end_first_record `{Externals} self prediction batch s :
  write_on_batch_end self prediction batch s
  = write_on_batch_end self prediction
      (mkBatch (take 1 (batch_record batch))) s.
Proof.
  unfold write_on_batch_end. destruct (exception prediction); [done|].
  cbn [batch_record]. unfold mbind, M_bind, lift.
  destruct (ranking prediction); [|done].
  by rewrite zip_singleton_middle.
Qed.

(** C5. A batch whose exception flag is set adds exactly one to the failure
    counter, returns without raising and leaves the file system log (and
    the rest of the state) as it was; a batch whose flag is not set leaves
    the failure counter unchanged, however its processing ends. *)
Theorem failed_batch_is_counted_not_written `{Externals}
    (self : BoltzWriter) (prediction : Prediction) (batch : Batch)
    (s : State) :
  (exception prediction = true →
   write_on_batch_end self prediction batch s
   = (mkState (failed s + 1) (fs s) (disk s) (atom_arrays s)
        (residue_arrays s) (next_loc s), Ok ())) ∧
  (exception prediction = false →
   failed (write_on_batch_end self prediction batch s).1 = failed s).
Proof.
  split; intros Hexc.
  - unfold write_on_batch_end. by rewrite Hexc.
  - by destruct (only_writes_batch self prediction batch Hexc s) as [Hf _].
Qed.

(** ** Ranking *)

Lemma rank_table_loop (l : list nat) : ∀ (k : nat) (m : gmap nat nat) (i : nat),
  NoDup l →
  let m' := foldl (λ m ri, <[ri.2 := ri.1]> m) m (zip (seq k (length l)) l) in
  (∀ r, l !! r = Some i → m' !! i = Some (k + r)) ∧
  (i ∉ l → m' !! i = m !! i).
Proof.
  induction l as [|x l IH]; intros k m i Hnd; cbn [length seq zip zip_with foldl].
  - split; [intros r Hr; by rewrite lookup_nil in Hr|done].
  - apply NoDup_cons in Hnd as [Hx Hnd]. cbn [fst snd].
    destruct (IH (S k) (<[x:=k]> m) i Hnd) as [IH1 IH2].
    split.
    + intros [|r] Hr; cbn in Hr.
      * injection Hr as ->. rewrite IH2 by done.
        rewrite lookup_insert_eq. f_equal. lia.
      * rewrite (IH1 r Hr). f_equal. lia.
    + intros Hi. apply not_elem_of_cons in Hi as [Hne Hi].
      rewrite IH2 by done. by apply lookup_insert_ne.
Qed.

(** Under a table built from a duplicate-free order, the rank of a
    candidate is its position in the order. *)
Lemma rank_table_lookup (order : list nat) (i r : nat) :
  NoDup order → rank_table order !! i = Some r ↔ order !! r = Some i.
Proof.
  intros Hnd. unfold rank_table. rewrite enumerate_zip.
  destruct (rank_table_loop order 0 ∅ i Hnd) as [H1 H2]. split.
  - intros Hr. destruct (decide (i ∈ order)) as [Hin|Hout].
    + apply list_elem_of_lookup_1 in Hin as [r' Hr'].
      rewrite (H1 r' Hr') in Hr. by simplify_eq/=.
    + rewrite (H2 Hout), lookup_empty in Hr. done.
  - intros Hr. by rewrite (H1 r Hr).
Qed.

Lemma StronglySorted_lookup_lt {A} (R : relation A) (l : list A) i j x y :
  StronglySorted R l → i < j → l !! i = Some x → l !! j = Some y → R x y.
Proof.
  intros Hs. revert i j. induction Hs as [|a l Hs IH Hall]; intros i j Hij Hi Hj.
  - by rewrite lookup_nil in Hi.
  - destruct j as [|j]; [lia|]. cbn in Hj. destruct i as [|i]; cbn in Hi.
    + injection Hi as ->. rewrite Forall_forall in Hall.
      apply Hall. by eapply list_elem_of_lookup_2.
    + apply (IH i j); [lia|done..].
Qed.

Lemma enumerate_lookup {A} (l : list A) (i : nat) (x : A) :
  (i, x) ∈ enumerate l ↔ l !! i = Some x.
Proof.
  unfold enumerate. rewrite list_elem_of_lookup. split.
  - intros [j Hj]. apply list_lookup_imap_Some in Hj as (y & Hy & Heq).
    by simplify_eq.
  - intros Hi. exists i. rewrite list_lookup_imap, Hi. done.
Qed.

Lemma enumerate_fst {A} (l : list A) : (enumerate l).*1 = seq 0 (length l).
Proof.
  rewrite enumerate_zip. apply fst_zip. by rewrite length_seq.
Qed.

Section sample_sorts.
Context (tie : relation nat) `{!RelDecision tie, !Total tie, !Transitive tie}.

Local Instance score_order_total : Total (score_order tie).
Proof.
  intros [i x] [j y]. unfold score_order. cbn.
  destruct (Z.lt_trichotomy x y) as [?|[->|?]]; [by right; left| |by left; left].
  destruct (total tie i j); [left|right]; by right.
Qed.

Local Instance score_order_trans : Transitive (score_order tie).
Proof.
  intros [i x] [j y] [k z]. unfold score_order. cbn.
  intros [?|[-> ?]] [?|[-> ?]]; [left; lia|by left|by left|right].
  split; [done|by etrans].
Qed.

(** A sort by score, with any total order on the indices for equal scores,
    meets the contract of a descending argsort, on every input. *)
Lemma sorted_by_score_descending (scores : list scalar) :
  descending_argsort scores
    (merge_sort (score_order tie) (enumerate scores)).*1.
Proof.
  set (sorted := merge_sort (score_order tie) (enumerate scores)).
  assert (Hperm : sorted ≡ₚ enumerate scores)
    by apply merge_sort_Permutation.
  assert (Hsorted : StronglySorted (score_order tie) sorted)
    by apply (StronglySorted_merge_sort _).
  split.
  - by rewrite Hperm, enumerate_fst.
  - intros r1 r2 i1 i2 x1 x2 Hr H1 H2 Hx1 Hx2.
    rewrite list_lookup_fmap in H1, H2.
    destruct (sorted !! r1) as [[i1' y1]|] eqn:E1; [|done].
    destruct (sorted !! r2) as [[i2' y2]|] eqn:E2; [|done].
    cbn in H1, H2. simplify_eq.
    assert (scores !! i1 = Some y1) as Hy1.
    { apply enumerate_lookup. rewrite <- Hperm.
      by eapply list_elem_of_lookup_2. }
    assert (scores !! i2 = Some y2) as Hy2.
    { apply enumerate_lookup. rewrite <- Hperm.
      by eapply list_elem_of_lookup_2. }
    assert (y1 = x1) as -> by congruence.
    assert (y2 = x2) as -> by congruence.
    pose proof (StronglySorted_lookup_lt _ _ _ _ _ _ Hsorted Hr E1 E2) as Ho.
    unfold score_order in Ho. cbn in Ho. destruct Ho as [?|[-> _]]; lia.
Qed.
(** Among equal scores it puts the indices in the order [tie]. *)
Lemma sorted_by_score_ties (scores : list scalar) (r1 r2 i1 i2 : nat)
    (x : scalar) :
  let order := (merge_sort (score_order tie) (enumerate scores)).*1 in
  r1 < r2 → order !! r1 = Some i1 → order !! r2 = Some i2 →
  scores !! i1 = Some x → scores !! i2 = Some x → tie i1 i2.
Proof.
  set (sorted := merge_sort (score_order tie) (enumerate scores)).
  assert (Hperm : sorted ≡ₚ enumerate scores)
    by apply merge_sort_Permutation.
  assert (Hsorted : StronglySorted (score_order tie) sorted)
    by apply (StronglySorted_merge_sort _).
  intros order Hr H1 H2 Hx1 Hx2. unfold order in H1, H2.
  rewrite list_lookup_fmap in H1, H2.
  destruct (sorted !! r1) as [[i1' y1]|] eqn:E1; [|done].
  destruct (sorted !! r2) as [[i2' y2]|] eqn:E2; [|done].
  cbn in H1, H2. simplify_eq.
  assert (scores !! i1 = Some y1) as Hy1.
  { apply enumerate_lookup. rewrite <- Hperm.
    by eapply list_elem_of_lookup_2. }
  assert (scores !! i2 = Some y2) as Hy2.
  { apply enumerate_lookup. rewrite <- Hperm.
    by eapply list_elem_of_lookup_2. }
  assert (y1 = x) as -> by congruence.
  assert (y2 = x) as -> by congruence.
  pose proof (StronglySorted_lookup_lt _ _ _ _ _ _ Hsorted Hr E1 E2) as Ho.
  unfold score_order in Ho. cbn in Ho. destruct Ho as [?|[_ ?]]; [lia|done].
Qed.
End sample_sorts.

Lemma argsort_low_index_first_descending (scores : list scalar) :
  descending_argsort scores (argsort_low_index_first scores).
Proof. apply (sorted_by_score_descending le). Qed.

(** The sample sort is stable. *)
Lemma argsort_low_index_first_ties (scores : list scalar) :
  ties_in_index_order scores (argsort_low_index_first scores).
Proof.
  intros r1 r2 i1 i2 x Hr H1 H2 Hx1 Hx2.
  pose proof (sorted_by_score_ties le scores r1 r2 i1 i2 x Hr H1 H2 Hx1 Hx2)
    as Hle.
  destruct (argsort_low_index_first_descending scores) as [Hperm _].
  assert (NoDup (argsort_low_index_first scores)) as Hnd
    by (rewrite Hperm; apply NoDup_seq).
  destruct (decide (i1 = i2)) as [->|]; [|lia].
  pose proof (NoDup_lookup _ _ _ _ Hnd H1 H2). lia.
Qed.

(** ** The writer on sample batches *)

(** C1, where the code departs from it. The final candidate path assigns
    into the arrays of the base snapshot ([atoms = structure.atoms], no
    copy): after the first call the base snapshot holds the first
    coordinates with every presence flag set, and after the second call the
    snapshot returned by the first call shows the second coordinates. The
    intermediate path copies the atom table first and leaves the base as it
    was. *)
Theorem assemble_final_writes_into_base :
  materialise two_atoms (empty_state ∅) = (base_state, Ok base_structure) ∧
  (snapshot base_structure base_state).2 = Ok two_atoms ∧
  let first :=
    assemble_final base_structure [(1, 1, 1); (2, 2, 2)]%Z base_state in
  let second :=
    assemble_final base_structure [(3, 3, 3); (4, 4, 4)]%Z first.1 in
  let candidate := mkStructure 0 1 [mkChain "A" 0] [] [true] in
  first.2 = Ok candidate ∧
  second.2 = Ok candidate ∧
  (snapshot base_structure first.1).2
    = Ok (mkStructureData
            [mkAtom "N" (1, 1, 1)%Z true; mkAtom "CA" (2, 2, 2)%Z true]
            [mkResidue "ALA" true]
            [mkChain "A" 0] [mkInterface 0 0] [true]) ∧
  (snapshot candidate first.1).2 = Ok (moved (1, 1, 1)%Z (2, 2, 2)%Z true) ∧
  (snapshot candidate second.1).2 = Ok (moved (3, 3, 3)%Z (4, 4, 4)%Z true) ∧
  (snapshot base_structure
     (assemble_intermediate base_structure [(1, 1, 1); (2, 2, 2)]%Z
        base_state).1).2
    = Ok two_atoms.
Proof. repeat split; by vm_compute. Qed.

(** The same seen in the files of a batch: the base residues start absent;
    the intermediate file of the first candidate shows them absent, that of
    the second candidate shows them present, because the final path of the
    first candidate has set the flag in the shared residue table. *)
Example intermediate_files_show_earlier_candidate :
  let r := @run sample_externals "pdb" two_candidates_one_step ["A"] in
  r.2 = Ok () ∧
  fs r.1 =
    [ Mkdir "out/A/intermediate";
      WriteFile "out/A/intermediate/A_model_0_step_0.pdb"
        (PdbText (moved (5, 5, 5)%Z (5, 5, 5)%Z false));
      Mkdir "out/A";
      WriteFile "out/A/A_model_0.pdb"
        (PdbText (moved (1, 1, 1)%Z (2, 2, 2)%Z true));
      Mkdir "out/A/intermediate";
      WriteFile "out/A/intermediate/A_model_1_step_0.pdb"
        (PdbText (moved (6, 6, 6)%Z (6, 6, 6)%Z true));
      Mkdir "out/A";
      WriteFile "out/A/A_model_1.pdb"
        (PdbText (moved (3, 3, 3)%Z (4, 4, 4)%Z true)) ].
Proof. split; by vm_compute. Qed.

(** C2, where the code departs from it. A batch of two records, both with
    a base structure on disk and a mask row each: the call returns
    normally and has written the files of record "A" only. *)
Theorem second_record_is_not_processed :
  let r := @run sample_externals "pdb" one_candidate ["A"; "B"] in
  r.2 = Ok () ∧
  fs r.1 =
    [ Mkdir "out/A";
      WriteFile "out/A/A_model_0.pdb"
        (PdbText (moved (1, 1, 1)%Z (2, 2, 2)%Z true)) ].
Proof. split; by vm_compute. Qed.

(** C8, where the code departs from it. With format "mmcif" the final
    structure file ends in ".cif", the intermediate step file in ".mmcif":
    its name takes [self.output_format] itself as the suffix. *)
Theorem intermediate_file_suffix_is_the_format_name :
  let r := @run sample_externals "mmcif" one_candidate_one_step ["A"] in
  r.2 = Ok () ∧
  fs r.1 =
    [ Mkdir "out/A/intermediate";
      WriteFile "out/A/intermediate/A_model_0_step_0.mmcif"
        (MmcifText (moved (7, 7, 7)%Z (8, 8, 8)%Z false) None);
      Mkdir "out/A";
      WriteFile "out/A/A_model_0.cif"
        (MmcifText (moved (1, 1, 1)%Z (2, 2, 2)%Z true) None) ].
Proof. split; by vm_compute. Qed.

(** Against C4 as stated. The mask marks one atom, the filtered structure
    has two: unpadding returns the one row without an error, the batch is
    written without an error, and both atoms of the written structure carry
    the coordinates of that row. *)
Lemma one_marked_atom_is_repeated :
  count_true [true; false; false] = 1 ∧
  length (d_atoms (keep_valid_chains two_atoms)) = 2 ∧
  unpad [(1, 1, 1); (9, 9, 9); (2, 2, 2)]%Z [true; false; false]
    = Ok [(1, 1, 1)%Z] ∧
  let r := @run sample_externals "pdb" one_atom_marked ["A"] in
  r.2 = Ok () ∧
  fs r.1 =
    [ Mkdir "out/A";
      WriteFile "out/A/A_model_0.pdb"
        (PdbText (moved (1, 1, 1)%Z (1, 1, 1)%Z true)) ].
Proof. repeat split; by vm_compute. Qed.

(** Against C7 as stated. The batch supplies every scalar confidence field
    and the pairwise chain tensor but no per-atom confidence: the structure
    file is written and no confidence summary. *)
Lemma scalar_fields_alone_give_no_summary :
  Forall (λ key, ∃ x, scalar_item scalars_without_plddt 0 key = Ok x)
    scalar_keys ∧
  pair_chains_iptm scalars_without_plddt = Some two_chain_pairs ∧
  let r := @run sample_externals "pdb" scalars_without_plddt ["A"] in
  r.2 = Ok () ∧
  fs r.1 =
    [ Mkdir "out/A";
      WriteFile "out/A/A_model_0.pdb"
        (PdbText (moved (1, 1, 1)%Z (2, 2, 2)%Z true)) ].
Proof.
  split; [|repeat split; by vm_compute].
  repeat constructor; by exists 5%Z.
Qed.

(** Against C9 as stated. No format other than "pdb" and "mmcif"
    constructs a writer. *)
Lemma no_third_format_constructs_a_writer :
  ¬ ∃ data_dir output_dir output_format s s' self,
      output_format ≠ "pdb" ∧ output_format ≠ "mmcif" ∧
      init data_dir output_dir output_format s = (s', Ok self).
Proof.
  intros (data_dir & output_dir & output_format & s & s' & self
          & Hpdb & Hcif & Hinit).
  unfold init in Hinit. case_decide as Hin; [|done].
  apply elem_of_cons in Hin as [->|Hin]; [done|].
  by apply list_elem_of_singleton in Hin as ->.
Qed.

(** Against C10 as stated. With per-atom confidence present and
    "confidence_score" absent, the lookup error is raised by the ranking,
    before any record is loaded: nothing has been written. *)
Lemma missing_score_stops_before_any_file :
  is_Some (plddt plddt_without_score) ∧
  scalars plddt_without_score !! "confidence_score" = None ∧
  @run sample_externals "pdb" plddt_without_score ["A"]
    = (empty_state sample_disk, Raise (KeyError (KStr "confidence_score"))) ∧
  fs (empty_state sample_disk) = [].
Proof. split; [by eexists|]. repeat split; by vm_compute. Qed.

(** ** Running the monad *)

Lemma bind_Ok {A B} (m : M A) (f : A → M B) s s1 a :
  m s = (s1, Ok a) → (m ≫= f) s = f a s1.
Proof. intros Hm. unfold mbind, M_bind. by rewrite Hm. Qed.

Lemma bind_Raise {A B} (m : M A) (f : A → M B) s s1 e :
  m s = (s1, Raise e) → (m ≫= f) s = (s1, Raise e).
Proof. intros Hm. unfold mbind, M_bind. by rewrite Hm. Qed.

Lemma bind_Ok_inv {A B} (m : M A) (f : A → M B) s s2 b :
  (m ≫= f) s = (s2, Ok b) → ∃ s1 a, m s = (s1, Ok a) ∧ f a s1 = (s2, Ok b).
Proof.
  unfold mbind, M_bind. destruct (m s) as [s1 [a|e]]; [eauto|done].
Qed.

(** ** Unpadding and the atom count *)

Lemma mask_select_length {A} (rows : list A) (m : list bool) :
  length m = length rows → length (mask_select rows m) = count_true m.
Proof.
  revert m. induction rows as [|r rows IH]; intros [|b m] Hlen;
    cbn in *; try done.
  destruct b; cbn; rewrite IH by lia; done.
Qed.

Lemma assign_coords_mismatch (t : list Atom) (v : list vec3) :
  length v ≠ length t → length v ≠ 1 →
  assign_coords t v = Raise (ValueError "could not broadcast input array").
Proof.
  intros Hn H1. unfold assign_coords. rewrite decide_False by done.
  by destruct v as [|c [|c' v]].
Qed.

Lemma assemble_final_raises structure (v : list vec3) (t : list Atom) e s :
  atom_arrays s !! atoms structure = Some t →
  assign_coords t v = Raise e →
  assemble_final structure v s = (s, Raise e).
Proof.
  intros Ht Hv.
  unfold assemble_final, set_coords, read_atoms, mbind, M_bind, lift.
  rewrite Ht. cbn. by rewrite Hv.
Qed.

Lemma assemble_intermediate_raises structure (v : list vec3) (t : list Atom)
    e s :
  atom_arrays s !! atoms structure = Some t →
  assign_coords t v = Raise e →
  ∃ s', assemble_intermediate structure v s = (s', Raise e) ∧
        fs s' = fs s ∧ atom_arrays s' !! atoms structure = Some t.
Proof.
  intros Ht Hv.
  unfold assemble_intermediate, copy_atoms, set_coords, read_atoms, new_atoms,
    mbind, M_bind, lift.
  rewrite Ht. cbn. rewrite lookup_insert_eq. cbn. rewrite Hv.
  eexists. split; [reflexivity|]. split; [done|]. cbn.
  destruct (decide (atoms structure = next_loc s)) as [->|Hne].
  - by rewrite lookup_insert_eq.
  - by rewrite lookup_insert_ne.
Qed.

(** C4, as the code has it. Unpadding does not look at the atom table: for
    a mask of the length of the coordinate slice it returns the marked
    rows, as many as the mask has [True] entries. When that count differs
    from the number of atom rows of the filtered structure and is not one,
    the assignment of the rows to the atom table raises a [ValueError]: the
    final structure of the candidate raises it with the state as it was,
    and without intermediate coordinates so does the whole candidate, with
    nothing written and no table changed; the snapshot of an intermediate
    step raises it as well, with nothing written and the base atom table as
    it was. *)
Theorem atom_count_mismatch_raises_on_assignment
    (record : RecordT) (structure : Structure) (chain_map : gmap nat nat)
    (coord : list (list vec3)) (pad_mask : list bool) (model_idx : nat)
    (model_coord : list vec3) (t : list Atom) (s : State) :
  coord !! model_idx = Some model_coord →
  length pad_mask = length model_coord →
  atom_arrays s !! atoms structure = Some t →
  count_true pad_mask ≠ length t →
  count_true pad_mask ≠ 1 →
  let broadcast := ValueError "could not broadcast input array" in
  unpad model_coord pad_mask = Ok (mask_select model_coord pad_mask) ∧
  length (mask_select model_coord pad_mask) = count_true pad_mask ∧
  final_structure record structure chain_map coord pad_mask model_idx s
    = (s, Raise broadcast) ∧
  (∀ self prediction idx_to_rank,
     intermediate_coords prediction = None →
     process_model self prediction record structure chain_map coord pad_mask
       idx_to_rank model_idx s
     = (s, Raise broadcast)) ∧
  (∀ step_coord : list vec3,
     length pad_mask = length step_coord →
     ∃ s', assemble_intermediate structure (mask_select step_coord pad_mask) s
           = (s', Raise broadcast) ∧
           fs s' = fs s ∧ atom_arrays s' !! atoms structure = Some t).
Proof.
  intros Hcoord Hlen Ht Hn H1 broadcast.
  pose proof (mask_select_length model_coord pad_mask Hlen) as Hsel.
  assert (Hunpad : unpad model_coord pad_mask
                   = Ok (mask_select model_coord pad_mask)).
  { unfold unpad. by rewrite decide_True. }
  assert (Hfinal : final_structure record structure chain_map coord pad_mask
                     model_idx s = (s, Raise broadcast)).
  { unfold final_structure.
    rewrite (bind_Ok _ _ s s model_coord)
      by (unfold lift; by rewrite Hcoord).
    rewrite (bind_Ok _ _ s s (mask_select model_coord pad_mask))
      by (unfold lift; by rewrite Hunpad).
    apply bind_Raise. apply (assemble_final_raises _ _ t); [done|].
    apply assign_coords_mismatch; by rewrite Hsel. }
  split; [done|]. split; [done|]. split; [done|]. split.
  - intros self prediction idx_to_rank Hnone.
    unfold process_model, save_intermediate. rewrite Hnone.
    rewrite (bind_Ok _ _ s s ()) by done.
    by apply bind_Raise.
  - intros step_coord Hstep.
    apply (assemble_intermediate_raises _ _ t); [done|].
    apply assign_coords_mismatch;
      by rewrite (mask_select_length step_coord pad_mask Hstep).
Qed.

(** ** Construction *)

(** C9, as the code has it. For every format other than "pdb" and "mmcif"
    construction raises a [ValueError] and changes nothing. A writer that
    was constructed has one of the two formats, and no batch makes it write
    a structure as a raw-array archive. *)
Theorem unsupported_format_is_rejected `{Externals}
    (data_dir output_dir output_format : string) (s : State) :
  (output_format ≠ "pdb" → output_format ≠ "mmcif" →
   init data_dir output_dir output_format s
   = (s, Raise (ValueError ("Invalid output format: " +:+ output_format)))) ∧
  (∀ s' self,
     init data_dir output_dir output_format s = (s', Ok self) →
     (output_format = "pdb" ∨ output_format = "mmcif") ∧
     ∀ prediction batch s0, ∃ d,
       fs (write_on_batch_end self prediction batch s0).1 = fs s0 ++ d ∧
       Forall (λ e, ∀ p a, e ≠ WriteFile p (StructureArchive a)) d).
Proof.
  split.
  - intros Hpdb Hcif. unfold init. rewrite decide_False; [done|].
    intros Hin. apply elem_of_cons in Hin as [->|Hin]; [done|].
    by apply list_elem_of_singleton in Hin as ->.
  - intros s' self Hinit. unfold init in Hinit.
    case_decide as Hin; [|done].
    assert (Hfmt : output_format = "pdb" ∨ output_format = "mmcif").
    { apply elem_of_cons in Hin as [->|Hin]; [by left|].
      apply list_elem_of_singleton in Hin as ->. by right. }
    split; [done|]. intros prediction batch s0.
    assert (Hself : Ok self = Ok (mkWriter data_dir output_dir output_format)).
    { unfold mbind, M_bind, set_failed, emit, mret, M_ret in Hinit.
      by injection Hinit as _ <-. }
    injection Hself as ->.
    destruct (exception prediction) eqn:Hexc.
    + exists []. unfold write_on_batch_end. rewrite Hexc. cbn.
      split; [by rewrite app_nil_r|done].
    + destruct (only_writes_batch (mkWriter data_dir output_dir output_format)
                  prediction batch Hexc s0) as (_ & d & Hd & HΦ).
      exists d. split; [done|].
      eapply Forall_impl; [exact HΦ|].
      intros e (table & record & model_idx & _ & _ & _ & He) p a ->.
      destruct He as (rank & _ & Hfile).
      inversion Hfile; cbn in *; destruct Hfmt; congruence.
Qed.

(** ** Missing confidence fields *)

Lemma snapshot_eq (st : Structure) (s : State) :
  snapshot st s = (s, read_structure st s).
Proof.
  unfold snapshot, read_structure, read_atoms, read_residues, mbind, M_bind.
  destruct (atom_arrays s !! atoms st); cbn; [|done].
  by destruct (residue_arrays s !! residues st).
Qed.

Lemma from_option_lookup_error {A} (e e' : exn) (o : option A) :
  lookup_error e → from_option e o = Raise e' → lookup_error e'.
Proof. destruct o; cbn; [done|]. by intros ? [= <-]. Qed.

Lemma scalar_item_error prediction model_idx key e :
  scalar_item prediction model_idx key = Raise e → lookup_error e.
Proof.
  unfold scalar_item, mbind, result_bind.
  destruct (scalars prediction !! key) as [t|]; cbn.
  - by apply from_option_lookup_error.
  - by intros [= <-].
Qed.

Lemma add_scalars_error prediction model_idx keys : ∀ d e,
  add_scalars prediction model_idx keys d = Raise e → lookup_error e.
Proof.
  induction keys as [|key keys IH]; intros d e; cbn; [done|].
  unfold mbind, result_bind.
  destruct (scalar_item prediction model_idx key) as [x|e'] eqn:E.
  - apply IH.
  - intros [= <-]. by eapply scalar_item_error.
Qed.

Lemma add_scalars_present prediction model_idx keys : ∀ d d' key,
  add_scalars prediction model_idx keys d = Ok d' →
  key ∈ keys → is_Some (scalars prediction !! key).
Proof.
  induction keys as [|k keys IH]; intros d d' key; cbn.
  - intros _ Hin. by apply elem_of_nil in Hin.
  - unfold mbind, result_bind.
    destruct (scalar_item prediction model_idx k) as [x|e'] eqn:E; [|done].
    intros Hrest Hin. apply elem_of_cons in Hin as [->|Hin].
    + unfold scalar_item in E. by destruct (scalars prediction !! k).
    + by eapply IH.
Qed.

Lemma confidence_summary_missing prediction model_idx :
  confidence_field_missing prediction →
  ∃ e, confidence_summary prediction model_idx = Raise e ∧ lookup_error e.
Proof.
  intros Hmiss. unfold confidence_summary, mbind, result_bind.
  destruct (add_scalars prediction model_idx scalar_keys []) as [d|e] eqn:E.
  - destruct Hmiss as [(key & Hin & Hnone)|Hnone].
    + destruct (add_scalars_present _ _ _ _ _ key E Hin) as [t Ht].
      congruence.
    + unfold pair_keys. rewrite Hnone. cbn. by eexists.
  - exists e. split; [done|]. by eapply add_scalars_error.
Qed.

Lemma save_confidence_missing self prediction record idx_to_rank model_idx s :
  is_Some (plddt prediction) →
  confidence_field_missing prediction →
  ∃ e, save_confidence self prediction record idx_to_rank model_idx s
       = (s, Raise e) ∧ lookup_error e.
Proof.
  intros [p Hp] Hmiss. unfold save_confidence. rewrite Hp.
  unfold rank_of. destruct (idx_to_rank !! model_idx) as [rank|].
  - rewrite (bind_Ok _ _ s s rank) by done.
    destruct (confidence_summary_missing prediction model_idx Hmiss)
      as (e & Hsum & He).
    exists e. split; [|done]. apply bind_Raise. unfold lift. by rewrite Hsum.
  - eexists. split; [by apply bind_Raise|done].
Qed.

Lemma emit_eq (e : event) (s : State) :
  emit e s = (mkState (failed s) (fs s ++ [e]) (disk s) (atom_arrays s)
                (residue_arrays s) (next_loc s), Ok ()).
Proof. reflexivity. Qed.

(** A structure file that was saved is the last entry of the log, under the
    name of the rank and with the suffix of the format. *)
Lemma save_structure_Ok self prediction record idx_to_rank model_idx
    new_structure s s2 :
  save_structure self prediction record idx_to_rank model_idx new_structure s
    = (s2, Ok ()) →
  ∃ rank c,
    idx_to_rank !! model_idx = Some rank ∧ structure_content c ∧
    fs s2 = fs s ++
      [ Mkdir (struct_dir_of self record);
        WriteFile (struct_dir_of self record
                     </> model_name record rank
                           (format_suffix (output_format self))) c ].
Proof.
  unfold save_structure, format_suffix, struct_dir_of.
  intros Hrun. apply bind_Ok_inv in Hrun as (s1 & [] & Hmk & Hrun).
  rewrite emit_eq in Hmk. injection Hmk as <-.
  unfold rank_of in Hrun.
  destruct (idx_to_rank !! model_idx) as [rank|] eqn:Hrank;
    [|by repeat case_decide].
  exists rank.
  repeat case_decide; unfold mbind, M_bind, lift in Hrun; cbn in Hrun.
  - rewrite snapshot_eq in Hrun.
    destruct (read_structure new_structure _) as [d|]; [|done].
    rewrite emit_eq in Hrun. injection Hrun as <-. cbn.
    exists (PdbText d). by rewrite <- app_assoc.
  - destruct (plddt prediction) as [p|].
    + destruct (p !! model_idx) as [a|]; [|done].
      rewrite snapshot_eq in Hrun.
      destruct (read_structure new_structure _) as [d|]; [|done].
      rewrite emit_eq in Hrun. injection Hrun as <-. cbn.
      exists (MmcifText d (Some a)). by rewrite <- app_assoc.
    + rewrite snapshot_eq in Hrun.
      destruct (read_structure new_structure _) as [d|]; [|done].
      rewrite emit_eq in Hrun. injection Hrun as <-. cbn.
      exists (MmcifText d None). by rewrite <- app_assoc.
  - rewrite snapshot_eq in Hrun.
    destruct (read_structure new_structure _) as [d|]; [|done].
    rewrite savez_path_model, emit_eq in Hrun. injection Hrun as <-. cbn.
    exists (StructureArchive d). by rewrite <- app_assoc.
Qed.

Lemma process_model_split self prediction record structure chain_map coord
    pad_mask idx_to_rank model_idx s :
  process_model self prediction record structure chain_map coord pad_mask
    idx_to_rank model_idx s
  = (until_structure_saved self prediction record structure chain_map coord
       pad_mask idx_to_rank model_idx;;
     save_confidence self prediction record idx_to_rank model_idx;;
     save_matrix "pae" (pae prediction) self record idx_to_rank model_idx;;
     save_matrix "pde" (pde prediction) self record idx_to_rank model_idx) s.
Proof.
  unfold process_model, until_structure_saved, mbind, M_bind.
  destruct (save_intermediate _ _ _ _ _ _ _ s) as [s1 [[]|e]]; [|done].
  destruct (final_structure _ _ _ _ _ _ s1) as [s2 [ns|e]]; [|done].
  by destruct (save_structure _ _ _ _ _ ns s2) as [s3 [[]|e]].
Qed.

(** C10, as the code has it. Let per-atom confidence be present and one of
    the keys of the confidence summary be absent. If the absent key is
    "confidence_score", a batch that is not flagged raises the key error in
    the ranking and the state is as before: no file has been written.
    In any case no candidate is processed to the end; and when the
    processing of a candidate has come as far as saving its structure
    file, it stops right there with a lookup error: the log ends with that
    structure file, named by the rank of the candidate. *)
Theorem plddt_requires_the_summary_fields `{Externals}
    (self : BoltzWriter) (prediction : Prediction) :
  is_Some (plddt prediction) →
  confidence_field_missing prediction →
  (exception prediction = false →
   scalars prediction !! "confidence_score" = None →
   ∀ batch s,
     write_on_batch_end self prediction batch s
     = (s, Raise (KeyError (KStr "confidence_score")))) ∧
  (∀ record structure chain_map coord pad_mask idx_to_rank model_idx s,
     (∀ s', process_model self prediction record structure chain_map coord
              pad_mask idx_to_rank model_idx s ≠ (s', Ok ())) ∧
     (∀ s2,
        until_structure_saved self prediction record structure chain_map
          coord pad_mask idx_to_rank model_idx s = (s2, Ok ()) →
        ∃ e rank c pre,
          lookup_error e ∧
          process_model self prediction record structure chain_map coord
            pad_mask idx_to_rank model_idx s = (s2, Raise e) ∧
          idx_to_rank !! model_idx = Some rank ∧
          structure_content c ∧
          fs s2 = pre ++
            [ WriteFile (struct_dir_of self record
                           </> model_name record rank
                                 (format_suffix (output_format self))) c ])).
Proof.
  intros Hplddt Hmiss. split.
  - intros Hexc Hscore batch s. unfold write_on_batch_end, ranking.
    by rewrite Hexc, Hscore.
  - intros record structure chain_map coord pad_mask idx_to_rank model_idx s.
    assert (Hstop : ∀ s2,
      until_structure_saved self prediction record structure chain_map
        coord pad_mask idx_to_rank model_idx s = (s2, Ok ()) →
      ∃ e, lookup_error e ∧
           process_model self prediction record structure chain_map coord
             pad_mask idx_to_rank model_idx s = (s2, Raise e)).
    { intros s2 Hpre. rewrite process_model_split.
      rewrite (bind_Ok _ _ s s2 ()) by done.
      destruct (save_confidence_missing self prediction record idx_to_rank
                  model_idx s2 Hplddt Hmiss) as (e & Hconf & He).
      exists e. split; [done|]. by apply bind_Raise. }
    split.
    + intros s' Hrun.
      destruct (until_structure_saved self prediction record structure
                  chain_map coord pad_mask idx_to_rank model_idx s)
        as [s2 [[]|e]] eqn:Hpre.
      * destruct (Hstop s2 eq_refl) as (e & _ & Hraise). congruence.
      * rewrite process_model_split in Hrun.
        rewrite (bind_Raise _ _ s s2 e) in Hrun by done. done.
    + intros s2 Hpre. destruct (Hstop s2 Hpre) as (e & He & Hraise).
      unfold until_structure_saved in Hpre.
      apply bind_Ok_inv in Hpre as (s0 & [] & _ & Hpre).
      apply bind_Ok_inv in Hpre as (s1 & ns & _ & Hsave).
      apply save_structure_Ok in Hsave as (rank & c & Hrank & Hc & Hlog).
      exists e, rank, c, (fs s1 ++ [Mkdir (struct_dir_of self record)]).
      repeat split; try done. by rewrite Hlog, <- app_assoc.
Qed.

(** ** The confidence summary *)

Lemma dict_set_fresh {K V} `{EqDecision K} (k : K) (v : V) (d : odict K V) :
  k ∉ dict_keys d → dict_set k v d = d ++ [(k, v)].
Proof.
  unfold dict_keys. induction d as [|[k' v'] d IH]; intros Hk; [done|].
  cbn in *. apply not_elem_of_cons in Hk as [Hne Hk].
  rewrite decide_False by done. by rewrite IH.
Qed.

Lemma dict_get_elem_of {K V} `{EqDecision K} (k : K) (v : V) (d : odict K V) :
  NoDup (dict_keys d) → (k, v) ∈ d → dict_get k d = Some v.
Proof.
  unfold dict_keys. induction d as [|[k' v'] d IH]; intros Hnd Hin.
  - by apply elem_of_nil in Hin.
  - cbn in *. apply NoDup_cons in Hnd as [Hk' Hnd].
    apply elem_of_cons in Hin as [[= -> ->]|Hin].
    + by rewrite decide_True.
    + rewrite decide_False; [by apply IH|].
      intros ->. apply Hk'. apply list_elem_of_fmap. by exists (k', v).
Qed.

(** A comprehension over distinct keys lists the keys in order, each with
    the value computed for it. *)
Lemma dict_comp_from_spec {K V} `{EqDecision K} (f : K → result V)
    (keys : list K) : ∀ (acc : odict K V) (vs : list V),
  NoDup keys → (∀ k, k ∈ keys → k ∉ dict_keys acc) →
  Forall2 (λ k v, f k = Ok v) keys vs →
  dict_comp_from acc keys f = Ok (acc ++ zip keys vs).
Proof.
  induction keys as [|k keys IH]; intros acc vs Hnd Hfresh Hvs.
  - apply Forall2_nil_inv_l in Hvs as ->. cbn. by rewrite app_nil_r.
  - apply Forall2_cons_inv_l in Hvs as (v & vs' & Hv & Hvs & ->).
    apply NoDup_cons in Hnd as [Hk Hnd].
    cbn. unfold mbind, result_bind. rewrite Hv.
    rewrite dict_set_fresh by (apply Hfresh; by left).
    rewrite (IH _ vs' Hnd); [by rewrite <- app_assoc|..|done].
    intros k' Hk'. unfold dict_keys. rewrite fmap_app.
    rewrite elem_of_app. intros [Hin|Hin].
    + eapply Hfresh; [by right|done].
    + cbn in Hin. apply list_elem_of_singleton in Hin as ->. done.
Qed.

Lemma dict_comp_spec {K V} `{EqDecision K} (f : K → result V)
    (keys : list K) (vs : list V) :
  NoDup keys → Forall2 (λ k v, f k = Ok v) keys vs →
  dict_comp keys f = Ok (zip keys vs).
Proof.
  intros Hnd Hvs. unfold dict_comp.
  rewrite (dict_comp_from_spec f keys [] vs); [done|done| |done].
  intros k _ Hin. by apply elem_of_nil in Hin.
Qed.

Lemma Forall_exists_Forall2 {A B} (P : A → B → Prop) (l : list A) :
  Forall (λ a, ∃ b, P a b) l → ∃ k, Forall2 P l k.
Proof.
  induction 1 as [|a l [b Hb] _ [k Hk]]; [by exists []|].
  exists (b :: k). by constructor.
Qed.

Lemma Forall2_impl_elem {A B} (P Q : A → B → Prop) (l : list A)
    (k : list B) :
  Forall2 P l k → (∀ x y, x ∈ l → P x y → Q x y) → Forall2 Q l k.
Proof.
  induction 1 as [|x y l k Hxy _ IH]; intros HPQ; constructor.
  - apply HPQ; [by left|done].
  - apply IH. intros x' y' Hin. apply HPQ. by right.
Qed.

Lemma zip_fst_snd {A B} (l : list (A * B)) : zip l.*1 l.*2 = l.
Proof. induction l as [|[] l IH]; [done|]. cbn. by rewrite IH. Qed.

Section summary.
Context (prediction : Prediction) (model_idx : nat)
        (pc : odict nat (odict nat (list scalar))).
Hypothesis Hpc : pair_chains_iptm prediction = Some pc.
Hypothesis Hkeys : NoDup (dict_keys pc).

Local Abbreviation cell := (summary_cell model_idx).

Lemma pair_item_row i row j t x :
  (i, row) ∈ pc → dict_get j row = Some t → t !! model_idx = Some x →
  pair_item prediction model_idx i j = Ok x.
Proof.
  intros Hin Hj Hx. unfold pair_item, mbind, result_bind.
  rewrite Hpc. cbn. rewrite (dict_get_elem_of i row pc Hkeys Hin). cbn.
  rewrite Hj. cbn. by rewrite Hx.
Qed.

Lemma pair_row_keys_row i row :
  (i, row) ∈ pc → pair_row_keys prediction i = Ok (dict_keys row).
Proof.
  intros Hin. unfold pair_row_keys, mbind, result_bind.
  rewrite Hpc. cbn. by rewrite (dict_get_elem_of i row pc Hkeys Hin).
Qed.

Lemma cells_exist (row : odict nat (list scalar)) :
  Forall (λ jt, is_Some (jt.2 !! model_idx)) row →
  ∃ row', Forall2 cell row row'.
Proof.
  intros Hall. apply Forall_exists_Forall2.
  eapply Forall_impl; [exact Hall|].
  intros [j t] [x Hx]. by exists (j, x).
Qed.

Lemma cells_keys row row' :
  Forall2 cell row row' → dict_keys row' = dict_keys row.
Proof.
  unfold dict_keys. induction 1 as [|jt jx row row' [Hk _] _ IH]; [done|].
  cbn. by rewrite Hk, IH.
Qed.

Lemma cells_get row row' j t :
  Forall2 cell row row' → dict_get j row = Some t →
  ∃ x, dict_get j row' = Some x ∧ t !! model_idx = Some x.
Proof.
  induction 1 as [|[j1 t1] [j2 x2] row row' [Hk Hx] _ IH]; [done|].
  cbn in *. subst j2. case_decide.
  - intros [= ->]. by exists x2.
  - apply IH.
Qed.

(** The computation of one row of [pair_chains_iptm]. *)
Lemma row_comp i row row' :
  (i, row) ∈ pc → NoDup (dict_keys row) → Forall2 cell row row' →
  (keys2 ← pair_row_keys prediction i;
   dict_comp keys2 (λ idx2, pair_item prediction model_idx i idx2))
  = Ok row'.
Proof.
  intros Hin Hnd Hcells. unfold mbind at 1, result_bind at 1.
  rewrite (pair_row_keys_row i row Hin).
  rewrite (dict_comp_spec _ _ row'.*2 Hnd).
  - f_equal. rewrite <- (cells_keys row row' Hcells). unfold dict_keys.
    apply zip_fst_snd.
  - unfold dict_keys. apply Forall2_fmap.
    eapply Forall2_impl_elem; [exact Hcells|].
    intros [j t] [j' x] Hjt [Hk Hx]. cbn in *.
    apply (pair_item_row i row j t x Hin); [|done].
    by apply dict_get_elem_of.
Qed.
End summary.

Lemma add_scalars_spec prediction model_idx (keys : list string) :
  ∀ (d : odict string summary_value) (xs : list scalar),
  NoDup keys → (∀ k, k ∈ keys → k ∉ dict_keys d) →
  Forall2 (λ key x, scalar_item prediction model_idx key = Ok x) keys xs →
  add_scalars prediction model_idx keys d
  = Ok (d ++ zip keys (SFloat <$> xs)).
Proof.
  induction keys as [|k keys IH]; intros d xs Hnd Hfresh Hxs.
  - apply Forall2_nil_inv_l in Hxs as ->. cbn. by rewrite app_nil_r.
  - apply Forall2_cons_inv_l in Hxs as (x & xs' & Hx & Hxs & ->).
    apply NoDup_cons in Hnd as [Hk Hnd].
    cbn. unfold mbind, result_bind. rewrite Hx.
    rewrite dict_set_fresh by (apply Hfresh; by left).
    rewrite (IH _ xs' Hnd); [by rewrite <- app_assoc|..|done].
    intros k' Hk'. unfold dict_keys. rewrite fmap_app.
    rewrite elem_of_app. intros [Hin|Hin].
    + eapply Hfresh; [by right|done].
    + cbn in Hin. apply list_elem_of_singleton in Hin as ->. done.
Qed.

Lemma Forall2_same_keys {A B K} (f : A → K) (g : B → K) (P : A → B → Prop)
    (l : list A) (k : list B) :
  Forall2 P l k → (∀ x y, P x y → g y = f x) → g <$> k = f <$> l.
Proof.
  induction 1 as [|x y l k Hxy _ IH]; intros Hfg; [done|].
  cbn. by rewrite (Hfg x y Hxy), IH.
Qed.

Lemma Forall2_right {A B} (P : A → B → Prop) (Q : B → Prop)
    (l : list A) (k : list B) :
  Forall2 P l k → (∀ x y, P x y → Q y) → Forall Q k.
Proof. induction 1; intros HPQ; constructor; eauto. Qed.

Lemma Forall_fst_snd {A B} (R : A → B → Prop) (l : list (A * B)) :
  Forall (λ ab, R ab.1 ab.2) l → Forall2 R l.*1 l.*2.
Proof. induction 1; cbn; constructor; done. Qed.

Lemma zip_keys {A B} (keys : list A) (d : list (A * B)) :
  d.*1 = keys → zip keys d.*2 = d.
Proof. intros <-. apply zip_fst_snd. Qed.

Lemma result_bind_Ok {A B} (a : A) (f : A → result B) : (Ok a ≫= f) = f a.
Proof. reflexivity. Qed.

Lemma NoDup_scalar_keys : NoDup scalar_keys.
Proof. by apply (bool_decide_unpack _). Qed.

(** C7, as the code has it. The summary is written when the per-atom
    confidence is present. Then, for a candidate with a rank, with every
    scalar field readable at the candidate and a well-formed pairwise
    tensor (distinct chain indices, a diagonal entry in every row, every
    tensor readable at the candidate), the first file the confidence stage
    writes is the summary, named by the rank. The summary holds, in this
    order: the nine scalar fields with their values for the candidate;
    "chains_ptm"; "pair_chains_iptm". The pairwise mapping has the chain
    indices of the batch tensor at both levels, in the order of the batch
    tensor, each with the value for the candidate; "chains_ptm" has the
    same first-level indices, each with the diagonal entry of its row. *)
Theorem confidence_summary_is_written_with_plddt
    (self : BoltzWriter) (prediction : Prediction) (record : RecordT)
    (idx_to_rank : gmap nat nat) (model_idx rank : nat)
    (atom_table : list (list scalar))
    (pc : odict nat (odict nat (list scalar))) (s : State) :
  plddt prediction = Some atom_table →
  idx_to_rank !! model_idx = Some rank →
  Forall (λ key, ∃ x, scalar_item prediction model_idx key = Ok x)
    scalar_keys →
  pair_chains_iptm prediction = Some pc →
  NoDup (dict_keys pc) →
  Forall (λ irow, NoDup (dict_keys irow.2) ∧
                  is_Some (dict_get irow.1 irow.2) ∧
                  Forall (λ jt, is_Some (jt.2 !! model_idx)) irow.2) pc →
  ∃ xs chains pairs rest,
    let summary :=
      zip scalar_keys (SFloat <$> xs)
        ++ [ ("chains_ptm", SChains chains);
             ("pair_chains_iptm", SPairs pairs) ] in
    confidence_summary prediction model_idx = Ok summary ∧
    fs (save_confidence self prediction record idx_to_rank model_idx s).1
    = fs s ++
        WriteFile (struct_dir_of self record
                     </> side_name "confidence" record rank "json")
          (JsonText summary) :: rest ∧
    Forall2 (λ key x, scalar_item prediction model_idx key = Ok x)
      scalar_keys xs ∧
    Forall2 (λ irow irow',
               irow'.1 = irow.1 ∧
               Forall2 (summary_cell model_idx) irow.2 irow'.2) pc pairs ∧
    Forall2 (λ irow' ix,
               ix.1 = irow'.1 ∧ dict_get irow'.1 irow'.2 = Some ix.2)
      pairs chains.
Proof.
  intros Hplddt Hrank Hscal Hpc Hkeys Hrows.
  destruct (Forall_exists_Forall2 _ _ Hscal) as [xs Hxs].
  (* every row of the tensor with its summary row and its diagonal value *)
  set (entry := λ (irow : nat * odict nat (list scalar))
                  (b : (nat * odict nat scalar) * (nat * scalar)),
         b.1.1 = irow.1 ∧ Forall2 (summary_cell model_idx) irow.2 b.1.2 ∧
         b.2.1 = irow.1 ∧ dict_get irow.1 b.1.2 = Some b.2.2 ∧
         pair_item prediction model_idx irow.1 irow.1 = Ok b.2.2 ∧
         (keys2 ← pair_row_keys prediction irow.1;
          dict_comp keys2
            (λ idx2, pair_item prediction model_idx irow.1 idx2))
         = Ok b.1.2).
  assert (Hboth : ∃ both, Forall2 entry pc both).
  { apply Forall_exists_Forall2. apply Forall_forall.
    intros [i row] Hin. rewrite Forall_forall in Hrows.
    destruct (Hrows _ Hin) as (Hnd & [t Ht] & Hcells). cbn in *.
    destruct (cells_exist model_idx row Hcells) as [row' Hrow'].
    destruct (cells_get model_idx row row' i t Hrow' Ht) as (x & Hx & Htx).
    exists ((i, row'), (i, x)). unfold entry. cbn.
    split; [done|]. split; [done|]. split; [done|]. split; [done|]. split.
    - by apply (pair_item_row prediction model_idx pc Hpc Hkeys i row i t x).
    - by apply (row_comp prediction model_idx pc Hpc Hkeys i row row'). }
  destruct Hboth as [both Hboth].
  set (pairs := both.*1). set (chains := both.*2).
  assert (Hpk : pairs.*1 = dict_keys pc).
  { unfold pairs, dict_keys. rewrite <- list_fmap_compose.
    apply (Forall2_same_keys _ _ _ _ _ Hboth). by intros ?? (? & _). }
  assert (Hck : chains.*1 = dict_keys pc).
  { unfold chains, dict_keys. rewrite <- list_fmap_compose.
    apply (Forall2_same_keys _ _ _ _ _ Hboth). by intros ?? (_ & _ & ? & _). }
  assert (Hsum : confidence_summary prediction model_idx
                 = Ok (zip scalar_keys (SFloat <$> xs)
                         ++ [ ("chains_ptm", SChains chains);
                              ("pair_chains_iptm", SPairs pairs) ])).
  { unfold confidence_summary.
    rewrite (add_scalars_spec _ _ _ [] xs NoDup_scalar_keys);
      [|by intros ? _ ?%elem_of_nil|done].
    unfold pair_keys. rewrite Hpc. cbn [from_option].
    rewrite !result_bind_Ok.
    rewrite (dict_comp_spec _ _ chains.*2 Hkeys).
    2:{ unfold dict_keys, chains. rewrite <- list_fmap_compose.
        apply Forall2_fmap.
        eapply Forall2_impl; [exact Hboth|].
        by intros ?? (_ & _ & _ & _ & ? & _). }
    rewrite (zip_keys _ _ Hck), !result_bind_Ok.
    rewrite (dict_comp_spec _ _ pairs.*2 Hkeys).
    2:{ unfold dict_keys, pairs. rewrite <- list_fmap_compose.
        apply Forall2_fmap.
        eapply Forall2_impl; [exact Hboth|].
        by intros ?? (_ & _ & _ & _ & _ & ?). }
    rewrite (zip_keys _ _ Hpk), !result_bind_Ok.
    assert (Hlen : length xs = 9).
    { apply Forall2_length in Hxs. by rewrite <- Hxs. }
    do 10 (destruct xs as [|? xs]; try done). }
  exists xs, chains, pairs.
  (* the confidence stage *)
  assert (Hrest : only_writes (λ _, True)
            (atom_plddt ← lift (from_option IndexError
                                  (atom_table !! model_idx));
             rank ← lift (rank_of idx_to_rank model_idx);
             emit (WriteFile
                     (savez_path (struct_dir_of self record
                                    </> side_name "plddt" record rank "npz"))
                     (VectorArchive "plddt" atom_plddt)))).
  { apply only_writes_bind; [walk|intros ?].
    apply only_writes_bind; [walk|intros ?]. by apply only_writes_emit. }
  set (s1 := (emit (WriteFile (struct_dir_of self record
                                 </> side_name "confidence" record rank "json")
                      (JsonText (zip scalar_keys (SFloat <$> xs)
                         ++ [ ("chains_ptm", SChains chains);
                              ("pair_chains_iptm", SPairs pairs) ]))) s).1).
  destruct (Hrest s1) as (_ & rest & Hlog & _).
  exists rest. cbn zeta. split; [done|]. split.
  - unfold save_confidence. rewrite Hplddt.
    rewrite (bind_Ok _ _ s s rank)
      by (unfold lift, rank_of; by rewrite Hrank).
    rewrite (bind_Ok _ _ s s _) by (unfold lift; by rewrite Hsum).
    rewrite (bind_Ok _ _ s s1 ()) by done.
    unfold struct_dir_of in *. rewrite Hlog. unfold s1. cbn.
    by rewrite <- app_assoc.
  - split; [done|]. split.
    + unfold pairs. apply Forall2_fmap_r.
      eapply Forall2_impl; [exact Hboth|]. by intros ?? (? & ? & _).
    + unfold pairs, chains. apply Forall_fst_snd.
      eapply Forall2_right; [exact Hboth|].
      intros [i row] [[i' row'] [i'' x]] (Hi & _ & Hi' & Hget & _).
      cbn in *. by subst.
Qed.

(** ** The theorems at sample inputs *)

Lemma chain_map_increasing_injection_witness :
  (2 < 3 ∧ [true; false; true] !! 2 = Some true
   ∧ count_true (take 2 [true; false; true]) = 1) ∧
  0 < 2 ∧
  @process_record sample_externals (sample_writer "pdb") one_candidate
    {[ 0 := 0 ]}
    (sample_record "C", ([[(1, 1, 1); (9, 9, 9); (2, 2, 2)]%Z],
                         [true; false; true]))
    (empty_state sample_disk)
  = (loaded ← materialise three_chains;
     structure ← @remove_invalid_chains sample_externals loaded;
     for_each (seq 0 1)
       (process_model (sample_writer "pdb") one_candidate (sample_record "C")
          structure (build_chain_map [true; false; true])
          [[(1, 1, 1); (9, 9, 9); (2, 2, 2)]%Z] [true; false; true]
          {[ 0 := 0 ]})) (empty_state sample_disk).
Proof.
  destruct (@chain_map_increasing_injection sample_externals
              [true; false; true]) as (_ & Hpos & Hinc & _ & Hbuilt).
  split; [|split].
  - apply (Hpos 1 2). reflexivity.
  - apply (Hinc 0 1 0 2); [reflexivity|reflexivity|lia].
  - apply (Hbuilt (sample_writer "pdb") one_candidate {[ 0 := 0 ]}
             (sample_record "C") [[(1, 1, 1); (9, 9, 9); (2, 2, 2)]%Z]
             [true; false; true] (empty_state sample_disk) three_chains).
    + reflexivity.
    + reflexivity.
Defined.

Lemma failed_batch_is_counted_not_written_witness :
  @write_on_batch_end sample_externals (sample_writer "pdb") flagged
    (mkBatch [sample_record "A"]) (empty_state sample_disk)
  = (mkState 1 [] sample_disk ∅ ∅ 0, Ok ()) ∧
  failed (@run sample_externals "pdb" one_candidate ["A"]).1 = 0.
Proof.
  split.
  - exact (proj1 (@failed_batch_is_counted_not_written sample_externals
                    (sample_writer "pdb") flagged
                    (mkBatch [sample_record "A"]) (empty_state sample_disk))
             eq_refl).
  - exact (proj2 (@failed_batch_is_counted_not_written sample_externals
                    (sample_writer "pdb") one_candidate
                    (mkBatch [sample_record "A"]) (empty_state sample_disk))
             eq_refl).
Defined.

Lemma atom_count_mismatch_raises_on_assignment_witness :
  final_structure (sample_record "A") base_structure {[ 0 := 0 ]}
    [[(1, 1, 1); (2, 2, 2); (3, 3, 3)]%Z] [true; true; true] 0 base_state
  = (base_state, Raise (ValueError "could not broadcast input array")) ∧
  process_model (sample_writer "pdb") one_candidate (sample_record "A")
    base_structure {[ 0 := 0 ]} [[(1, 1, 1); (2, 2, 2); (3, 3, 3)]%Z]
    [true; true; true] {[ 0 := 0 ]} 0 base_state
  = (base_state, Raise (ValueError "could not broadcast input array")).
Proof.
  destruct (atom_count_mismatch_raises_on_assignment (sample_record "A")
              base_structure {[ 0 := 0 ]}
              [[(1, 1, 1); (2, 2, 2); (3, 3, 3)]%Z]
              [true; true; true] 0 [(1, 1, 1); (2, 2, 2); (3, 3, 3)]%Z
              (d_atoms two_atoms) base_state)
    as (_ & _ & Hfinal & Hmodel & _).
  - reflexivity.
  - reflexivity.
  - reflexivity.
  - cbn. lia.
  - cbn. lia.
  - split; [exact Hfinal|].
    apply (Hmodel (sample_writer "pdb") one_candidate {[ 0 := 0 ]}).
    reflexivity.
Defined.

Lemma confidence_summary_is_written_with_plddt_witness :
  ∃ xs chains pairs,
    confidence_summary full_confidence 0
    = Ok (zip scalar_keys (SFloat <$> xs)
            ++ [ ("chains_ptm", SChains chains);
                 ("pair_chains_iptm", SPairs pairs) ]).
Proof.
  destruct (confidence_summary_is_written_with_plddt (sample_writer "pdb")
              full_confidence (sample_record "A") {[ 0 := 0 ]} 0 0
              [[70; 0; 80]%Z] two_chain_pairs (empty_state sample_disk))
    as (xs & chains & pairs & rest & Hsummary & _).
  - reflexivity.
  - reflexivity.
  - repeat constructor; exists 5%Z; reflexivity.
  - reflexivity.
  - apply (bool_decide_unpack _). reflexivity.
  - constructor; [|constructor; [|constructor]];
      (split; [apply (bool_decide_unpack _); reflexivity|]);
      (split; [eexists; reflexivity|]);
      repeat constructor; eexists; reflexivity.
  - exists xs, chains, pairs. exact Hsummary.
Defined.

Lemma unsupported_format_is_rejected_witness :
  init "data" "out" "npz" (empty_state ∅)
  = (empty_state ∅, Raise (ValueError "Invalid output format: npz")) ∧
  ("pdb" = "pdb" ∨ "pdb" = "mmcif").
Proof.
  split.
  - refine (proj1 (@unsupported_format_is_rejected sample_externals
                     "data" "out" "npz" (empty_state ∅)) _ _).
    + discriminate.
    + discriminate.
  - refine (proj1 (proj2 (@unsupported_format_is_rejected sample_externals
                            "data" "out" "pdb" (empty_state ∅))
                     (mkState 0 [Mkdir "out"] ∅ ∅ ∅ 0)
                     (sample_writer "pdb") _)).
    reflexivity.
Defined.

Lemma plddt_requires_the_summary_fields_witness :
  @write_on_batch_end sample_externals (sample_writer "pdb")
    plddt_without_score (mkBatch [sample_record "A"])
    (empty_state sample_disk)
  = (empty_state sample_disk, Raise (KeyError (KStr "confidence_score"))) ∧
  ∃ e rank c pre s2,
    lookup_error e ∧
    process_model (sample_writer "pdb") plddt_without_ptm (sample_record "A")
      base_structure {[ 0 := 0 ]} [[(1, 1, 1); (2, 2, 2)]%Z] [true; true]
      {[ 0 := 0 ]} 0 base_state
    = (s2, Raise e) ∧
    ({[ 0 := 0 ]} : gmap nat nat) !! 0 = Some rank ∧
    structure_content c ∧
    fs s2 = pre ++ [ WriteFile ("out/A" </> model_name (sample_record "A")
                                              rank "pdb") c ].
Proof.
  split.
  - refine (proj1 (@plddt_requires_the_summary_fields sample_externals
                     (sample_writer "pdb") plddt_without_score _ _) _ _
              (mkBatch [sample_record "A"]) (empty_state sample_disk)).
    + eexists. reflexivity.
    + left. exists "confidence_score". split; [|reflexivity].
      apply (bool_decide_unpack _). reflexivity.
    + reflexivity.
    + reflexivity.
  - assert (Hmiss : confidence_field_missing plddt_without_ptm).
    { left. exists "ptm". split; [|reflexivity].
      apply (bool_decide_unpack _). reflexivity. }
    destruct (proj2 (proj2 (@plddt_requires_the_summary_fields
                sample_externals (sample_writer "pdb") plddt_without_ptm
                (ex_intro _ [[70; 0; 80]%Z] eq_refl) Hmiss)
                (sample_record "A") base_structure {[ 0 := 0 ]}
                [[(1, 1, 1); (2, 2, 2)]%Z] [true; true] {[ 0 := 0 ]} 0
                base_state)
              (until_structure_saved (sample_writer "pdb") plddt_without_ptm
                 (sample_record "A") base_structure {[ 0 := 0 ]}
                 [[(1, 1, 1); (2, 2, 2)]%Z] [true; true] {[ 0 := 0 ]} 0
                 base_state).1)
      as (e & rank & c & pre & He & Hrun & Hrank & Hc & Hlog).
    + vm_compute. reflexivity.
    + exists e, rank, c, pre. eexists. repeat split; eassumption.
Defined.

(** ** Further properties of the writer *)

(** *** Unpadding *)

Lemma mask_select_lookup {A} (rows : list A) : ∀ (m : list bool) (i : nat) (c : A),
  mask_select rows m !! i = Some c ↔
  ∃ a, m !! a = Some true ∧ count_true (take a m) = i ∧ rows !! a = Some c.
Proof.
  induction rows as [|r rows IH]; intros m i c.
  - cbn. split; [done|]. by intros (a & _ & _ & Ha).
  - destruct m as [|b m]; cbn [mask_select].
    + split; [done|]. by intros (a & Ha & _).
    + destruct b.
      * destruct i as [|i].
        -- cbn. split.
           ++ intros [= ->]. by exists 0.
           ++ intros ([|a] & Hm & Hc & Hr); cbn in *; [congruence|lia].
        -- cbn [lookup list_lookup]. rewrite IH. split.
           ++ intros (a & Hm & Hc & Hr). exists (S a). cbn. by rewrite Hc.
           ++ intros ([|a] & Hm & Hc & Hr); cbn in *; [lia|].
              exists a. repeat split; [done|lia|done].
      * rewrite IH. split.
        -- intros (a & Hm & Hc & Hr). by exists (S a).
        -- intros ([|a] & Hm & Hc & Hr); cbn in *; [congruence|].
           by exists a.
Qed.

(** X1. Unpadding fails exactly when the mask and the coordinate slice
    differ in length. When it succeeds it returns as many rows as the mask
    has [True] entries, and its [i]-th row is the row of the slice at the
    position of the [i]-th [True] entry of the mask: nothing is reordered,
    dropped or invented. *)
Theorem unpad_selects_the_marked_rows
    (model_coord : list vec3) (pad_mask : list bool) :
  (length pad_mask ≠ length model_coord →
   unpad model_coord pad_mask = Raise IndexError) ∧
  (length pad_mask = length model_coord →
   ∃ rows,
     unpad model_coord pad_mask = Ok rows ∧
     length rows = count_true pad_mask ∧
     ∀ i c, rows !! i = Some c ↔
            ∃ a, pad_mask !! a = Some true ∧
                 count_true (take a pad_mask) = i ∧
                 model_coord !! a = Some c).
Proof.
  split; intros Hlen; unfold unpad.
  - by rewrite decide_False.
  - rewrite decide_True by done. eexists. split; [done|]. split.
    + by apply mask_select_length.
    + apply mask_select_lookup.
Qed.

Lemma unpad_selects_the_marked_rows_witness :
  unpad [] [true] = Raise IndexError ∧
  ∃ rows,
    unpad [(1, 1, 1); (9, 9, 9); (2, 2, 2)]%Z [true; false; true] = Ok rows ∧
    length rows = 2.
Proof.
  split.
  - apply (proj1 (unpad_selects_the_marked_rows [] [true])). discriminate.
  - destruct (proj2 (unpad_selects_the_marked_rows
                       [(1, 1, 1); (9, 9, 9); (2, 2, 2)]%Z
                       [true; false; true]) eq_refl)
      as (rows & Hrows & Hlen & _).
    exists rows. split; [exact Hrows|exact Hlen].
Defined.

(** *** The snapshots of a candidate *)

Lemma assign_coords_rows (t : list Atom) (v : list vec3) :
  length v = length t →
  ∃ t', assign_coords t v = Ok t' ∧
        coords <$> t' = v ∧ atom_name <$> t' = atom_name <$> t ∧
        is_present <$> t' = is_present <$> t.
Proof.
  intros Hlen. unfold assign_coords. rewrite decide_True by done.
  eexists. split; [done|].
  revert v Hlen. induction t as [|a t IH]; intros [|c v] Hlen; cbn in *;
    try done.
  destruct (IH v ltac:(lia)) as (Hc & Hn & Hp).
  by rewrite Hc, Hn, Hp.
Qed.

Lemma assign_coords_single (t : list Atom) (c : vec3) :
  ∃ t', assign_coords t [c] = Ok t' ∧
        Forall (λ a, coords a = c) t' ∧
        atom_name <$> t' = atom_name <$> t ∧
        is_present <$> t' = is_present <$> t.
Proof.
  unfold assign_coords. case_decide as Hlen.
  - destruct t as [|a [|a' t]]; try done. eexists. split; [done|].
    split; [by repeat constructor|done].
  - eexists. split; [done|]. split; [|split].
    + apply Forall_fmap, Forall_true. done.
    + rewrite <- list_fmap_compose. by apply list_fmap_ext.
    + rewrite <- list_fmap_compose. by apply list_fmap_ext.
Qed.

Lemma assign_is_present_rows (b : bool) (t : list Atom) :
  coords <$> assign_is_present b t = coords <$> t ∧
  atom_name <$> assign_is_present b t = atom_name <$> t ∧
  Forall (λ a, is_present a = b) (assign_is_present b t).
Proof.
  unfold assign_is_present. split; [|split].
  - rewrite <- list_fmap_compose. by apply list_fmap_ext.
  - rewrite <- list_fmap_compose. by apply list_fmap_ext.
  - apply Forall_fmap, Forall_true. done.
Qed.

Lemma assign_res_is_present_rows (b : bool) (t : list Residue) :
  res_name <$> assign_res_is_present b t = res_name <$> t ∧
  Forall (λ r, res_is_present r = b) (assign_res_is_present b t).
Proof.
  unfold assign_res_is_present. split.
  - rewrite <- list_fmap_compose. by apply list_fmap_ext.
  - apply Forall_fmap, Forall_true. done.
Qed.

(** The final assembly on an assignment that numpy accepts. *)
Lemma assemble_final_run structure (v : list vec3) (t t' : list Atom)
    (r : list Residue) (s : State) :
  atom_arrays s !! atoms structure = Some t →
  residue_arrays s !! residues structure = Some r →
  assign_coords t v = Ok t' →
  assemble_final structure v s
  = (mkState (failed s) (fs s) (disk s)
       (<[atoms structure := assign_is_present true t']>
          (<[atoms structure := t']> (atom_arrays s)))
       (<[residues structure := assign_res_is_present true r]>
          (residue_arrays s))
       (next_loc s),
     Ok (mkStructure (atoms structure) (residues structure)
           (chains structure) [] (mask structure))).
Proof.
  intros Ht Hr Hv.
  unfold assemble_final, set_coords, set_is_present, set_res_is_present,
    read_atoms, read_residues, store_atoms, store_residues, mbind, M_bind,
    lift, mret, M_ret.
  rewrite Ht. cbn. rewrite Hv. cbn. rewrite lookup_insert_eq. cbn.
  by rewrite Hr.
Qed.

(** X2. The final snapshot of a candidate, when the unpadded coordinates
    have one row per atom: the call returns a structure whose atom table
    carries exactly these coordinates, row by row, with every atom present
    and the other atom columns as in the base; every residue is present and
    otherwise as in the base; the interfaces are empty; chains and mask are
    those of the base. Nothing is written and the failure counter is
    untouched. *)
Theorem final_snapshot_carries_the_prediction
    (structure : Structure) (v : list vec3) (t : list Atom)
    (r : list Residue) (s : State) :
  atom_arrays s !! atoms structure = Some t →
  residue_arrays s !! residues structure = Some r →
  length v = length t →
  ∃ s' new_structure d,
    assemble_final structure v s = (s', Ok new_structure) ∧
    read_structure new_structure s' = Ok d ∧
    coords <$> d_atoms d = v ∧
    Forall (λ a, is_present a = true) (d_atoms d) ∧
    atom_name <$> d_atoms d = atom_name <$> t ∧
    Forall (λ x, res_is_present x = true) (d_residues d) ∧
    res_name <$> d_residues d = res_name <$> r ∧
    d_interfaces d = [] ∧
    d_chains d = chains structure ∧ d_mask d = mask structure ∧
    fs s' = fs s ∧ failed s' = failed s.
Proof.
  intros Ht Hr Hlen.
  destruct (assign_coords_rows t v Hlen) as (t' & Hv & Hc & Hn & _).
  destruct (assign_is_present_rows true t') as (Hc' & Hn' & Hp').
  destruct (assign_res_is_present_rows true r) as (Hrn & Hrp).
  do 3 eexists. split; [by apply (assemble_final_run _ _ t t' r)|].
  unfold read_structure. cbn. rewrite !lookup_insert_eq.
  split; [done|]. cbn.
  repeat split; try done; congruence.
Qed.

Lemma final_snapshot_carries_the_prediction_witness :
  ∃ s' new_structure d,
    assemble_final base_structure [(1, 1, 1); (2, 2, 2)]%Z base_state
    = (s', Ok new_structure) ∧
    read_structure new_structure s' = Ok d ∧
    coords <$> d_atoms d = [(1, 1, 1); (2, 2, 2)]%Z.
Proof.
  destruct (final_snapshot_carries_the_prediction base_structure
              [(1, 1, 1); (2, 2, 2)]%Z (d_atoms two_atoms)
              (d_residues two_atoms) base_state)
    as (s' & ns & d & Hrun & Hread & Hcoords & _).
  - reflexivity.
  - reflexivity.
  - reflexivity.
  - exists s', ns, d. split; [exact Hrun|]. split; [exact Hread|exact Hcoords].
Defined.

(** X3. A mask with a single [True] entry never fails on the atom count:
    whatever the number of atoms, the final assembly succeeds and every
    atom of the new snapshot carries the one unpadded coordinate, is
    present, and keeps its other columns. *)
Theorem single_row_is_given_to_every_atom
    (structure : Structure) (c : vec3) (t : list Atom)
    (r : list Residue) (s : State) :
  atom_arrays s !! atoms structure = Some t →
  residue_arrays s !! residues structure = Some r →
  ∃ s' new_structure d,
    assemble_final structure [c] s = (s', Ok new_structure) ∧
    read_structure new_structure s' = Ok d ∧
    length (d_atoms d) = length t ∧
    Forall (λ a, coords a = c ∧ is_present a = true) (d_atoms d) ∧
    atom_name <$> d_atoms d = atom_name <$> t.
Proof.
  intros Ht Hr.
  destruct (assign_coords_single t c) as (t' & Hv & Hc & Hn & _).
  destruct (assign_is_present_rows true t') as (Hc' & Hn' & Hp').
  do 3 eexists. split; [by apply (assemble_final_run _ _ t t' r)|].
  unfold read_structure. cbn. rewrite !lookup_insert_eq.
  split; [done|]. cbn. split; [|split].
  - rewrite <- (length_fmap atom_name), Hn', Hn. apply length_fmap.
  - apply Forall_and. split; [|done].
    assert (Forall (λ x, x = c) (coords <$> assign_is_present true t')) as H.
    { rewrite Hc'. by apply Forall_fmap. }
    by apply Forall_fmap in H.
  - congruence.
Qed.

Lemma single_row_is_given_to_every_atom_witness :
  ∃ s' new_structure d,
    assemble_final base_structure [(1, 1, 1)%Z] base_state
    = (s', Ok new_structure) ∧
    read_structure new_structure s' = Ok d ∧
    length (d_atoms d) = 2.
Proof.
  destruct (single_row_is_given_to_every_atom base_structure (1, 1, 1)%Z
              (d_atoms two_atoms) (d_residues two_atoms) base_state)
    as (s' & ns & d & Hrun & Hread & Hlen & _).
  - reflexivity.
  - reflexivity.
  - exists s', ns, d. split; [exact Hrun|]. split; [exact Hread|exact Hlen].
Defined.

(** X4. The snapshot of an intermediate step works on a copy: for a base
    whose atom table lies below the allocation pointer and coordinates with
    one row per atom, the call returns a structure with a new atom table
    that carries the coordinates with every atom present, and that shares
    the residue table of the base; the atom table of the base and all
    residue tables are as before, and nothing is written. *)
Theorem intermediate_snapshot_leaves_the_base
    (structure : Structure) (v : list vec3) (t : list Atom) (s : State) :
  atom_arrays s !! atoms structure = Some t →
  atoms structure < next_loc s →
  length v = length t →
  ∃ s' new_structure t',
    assemble_intermediate structure v s = (s', Ok new_structure) ∧
    atoms new_structure = next_loc s ∧
    residues new_structure = residues structure ∧
    interfaces new_structure = [] ∧
    chains new_structure = chains structure ∧
    atom_arrays s' !! atoms new_structure = Some t' ∧
    coords <$> t' = v ∧
    Forall (λ a, is_present a = true) t' ∧
    atom_name <$> t' = atom_name <$> t ∧
    atom_arrays s' !! atoms structure = Some t ∧
    residue_arrays s' = residue_arrays s ∧
    fs s' = fs s.
Proof.
  intros Ht Hfresh Hlen.
  destruct (assign_coords_rows t v Hlen) as (t' & Hv & Hc & Hn & _).
  destruct (assign_is_present_rows true t') as (Hc' & Hn' & Hp').
  exists (mkState (failed s) (fs s) (disk s)
            (<[next_loc s := assign_is_present true t']>
               (<[next_loc s := t']>
                  (<[next_loc s := t]> (atom_arrays s))))
            (residue_arrays s) (S (next_loc s))).
  exists (mkStructure (next_loc s) (residues structure) (chains structure) []
            (mask structure)).
  exists (assign_is_present true t').
  split.
  { unfold assemble_intermediate, copy_atoms, set_coords, set_is_present,
      read_atoms, new_atoms, store_atoms, mbind, M_bind, lift, mret, M_ret.
    rewrite Ht. cbn. rewrite lookup_insert_eq. cbn. rewrite Hv. cbn.
    by rewrite lookup_insert_eq. }
  cbn. rewrite lookup_insert_eq.
  rewrite !lookup_insert_ne by lia.
  repeat split; try done; congruence.
Qed.

Lemma intermediate_snapshot_leaves_the_base_witness :
  ∃ s' new_structure,
    assemble_intermediate base_structure [(1, 1, 1); (2, 2, 2)]%Z base_state
    = (s', Ok new_structure) ∧
    atom_arrays s' !! atoms base_structure = Some (d_atoms two_atoms).
Proof.
  destruct (intermediate_snapshot_leaves_the_base base_structure
              [(1, 1, 1); (2, 2, 2)]%Z (d_atoms two_atoms) base_state)
    as (s' & ns & t' & Hrun & _ & _ & _ & _ & _ & _ & _ & _ & Hbase & _).
  - reflexivity.
  - cbn. lia.
  - reflexivity.
  - exists s', ns. split; [exact Hrun|exact Hbase].
Defined.

(** *** Chain info *)

Lemma collect_Ok {A B} (f : A → result B) (l : list A) (ys : list B) :
  collect f l = Ok ys ↔ Forall2 (λ x y, f x = Ok y) l ys.
Proof.
  revert ys. induction l as [|x l IH]; intros ys; cbn.
  - split; [intros [= <-]; constructor|].
    intros H. by apply Forall2_nil_inv_l in H as ->.
  - unfold mbind, result_bind. destruct (f x) as [y|e] eqn:Hx.
    + destruct (collect f l) as [ys'|e] eqn:Hl.
      * split.
        -- intros [= <-]. constructor; [done|]. by apply IH.
        -- intros H. apply Forall2_cons_inv_l in H as (y' & k & Hy & Hk & ->).
           apply IH in Hk. congruence.
      * split; [done|].
        intros H. apply Forall2_cons_inv_l in H as (y' & k & Hy & Hk & ->).
        apply IH in Hk. done.
    + split; [done|].
      intros H. apply Forall2_cons_inv_l in H as (y' & k & Hy & Hk & ->).
      congruence.
Qed.

Lemma collect_Raise {A B} (f : A → result B) (l : list A) (e : exn) :
  collect f l = Raise e → ∃ x, x ∈ l ∧ f x = Raise e.
Proof.
  induction l as [|x l IH]; cbn; [done|].
  unfold mbind, result_bind. destruct (f x) as [y|e'] eqn:Hx.
  - destruct (collect f l) as [ys'|e''] eqn:Hl; [done|].
    intros [= ->]. destruct (IH eq_refl) as (x' & Hin & Hx').
    exists x'. split; [by right|done].
  - intros [= ->]. exists x. split; [by left|done].
Qed.

Lemma new_chain_info_Ok (mask : list bool) (record : RecordT) (chain : Chain)
    (info : ChainInfo) :
  new_chain_info (build_chain_map mask) record chain = Ok info →
  chain_id info = asym_id chain ∧ valid info = true ∧
  ∃ pos old,
    mask !! pos = Some true ∧ count_true (take pos mask) = asym_id chain ∧
    record_chains record !! pos = Some old ∧ info_name info = info_name old.
Proof.
  unfold new_chain_info, mbind, result_bind.
  rewrite build_chain_map_lookup.
  destruct (true_positions_from 0 mask !! asym_id chain) as [pos|] eqn:Hpos;
    cbn; [|done].
  destruct (record_chains record !! pos) as [old|] eqn:Hold; cbn; [|done].
  intros [= <-]. cbn. split; [done|]. split; [done|].
  destruct (true_positions_lookup mask 0 _ pos Hpos) as (_ & Hm & Hc).
  rewrite Nat.sub_0_r in Hm, Hc. by exists pos, old.
Qed.

Lemma new_chain_info_error (chain_map : gmap nat nat) (record : RecordT)
    (chain : Chain) (e : exn) :
  new_chain_info chain_map record chain = Raise e → lookup_error e.
Proof.
  unfold new_chain_info, mbind, result_bind.
  destruct (chain_map !! asym_id chain) as [pos|]; cbn; [|by intros [= <-]].
  destruct (record_chains record !! pos); cbn; [done|by intros [= <-]].
Qed.

Lemma chain_info_computed (mask : list bool) (record : RecordT)
    (chains : list Chain) :
  Forall (λ chain, asym_id chain < count_true mask) chains →
  length mask ≤ length (record_chains record) →
  ∃ infos,
    collect (new_chain_info (build_chain_map mask) record) chains = Ok infos.
Proof.
  intros Hasym Hlen.
  assert (Hex : ∃ infos,
            Forall2 (λ chain info,
              new_chain_info (build_chain_map mask) record chain = Ok info)
              chains infos).
  { apply Forall_exists_Forall2. eapply Forall_impl; [exact Hasym|].
    intros chain Hlt. unfold new_chain_info, mbind, result_bind.
    rewrite build_chain_map_lookup.
    destruct (true_positions_from 0 mask !! asym_id chain) as [pos|] eqn:Hpos.
    - destruct (true_positions_lookup mask 0 _ pos Hpos) as (_ & Hm & _).
      rewrite Nat.sub_0_r in Hm. apply lookup_lt_Some in Hm.
      destruct (lookup_lt_is_Some_2 (record_chains record) pos) as [old Hold];
        [lia|].
      cbn. rewrite Hold. cbn. by eexists.
    - apply lookup_ge_None in Hpos.
      rewrite true_positions_length in Hpos. cbn beta in Hlt. lia. }
  destruct Hex as [infos Hinfos]. exists infos. by apply collect_Ok.
Qed.

(** X5. The chain info of a candidate (lines 151-160), under the chain map
    of a validity mask. Whenever it is computed, there is one entry per
    chain of the new structure, in order; the entry of a chain has the
    [asym_id] of the chain as its [chain_id], is valid, and is otherwise
    the entry of the record at the position of the [asym_id]-th [True] of
    the mask. It is computed whenever every [asym_id] is below the number
    of valid chains and the record has an entry for every position of the
    mask. A chain whose [asym_id] is not below the number of valid chains
    makes it raise a lookup error. *)
Theorem chain_info_follows_the_chain_map
    (mask : list bool) (record : RecordT) (chains : list Chain) :
  let chain_info :=
    collect (new_chain_info (build_chain_map mask) record) chains in
  (∀ infos, chain_info = Ok infos →
     Forall2 (λ chain info,
                chain_id info = asym_id chain ∧ valid info = true ∧
                ∃ pos old,
                  mask !! pos = Some true ∧
                  count_true (take pos mask) = asym_id chain ∧
                  record_chains record !! pos = Some old ∧
                  info_name info = info_name old) chains infos) ∧
  (Forall (λ chain, asym_id chain < count_true mask) chains →
   length mask ≤ length (record_chains record) →
   ∃ infos, chain_info = Ok infos) ∧
  (∀ chain, chain ∈ chains → count_true mask ≤ asym_id chain →
     ∃ e, chain_info = Raise e ∧ lookup_error e).
Proof.
  intros chain_info. split; [|split].
  - intros infos Hok. apply collect_Ok in Hok.
    eapply Forall2_impl; [exact Hok|].
    intros chain info. apply new_chain_info_Ok.
  - intros Hasym Hlen. by apply chain_info_computed.
  - intros chain Hin Hge. unfold chain_info.
    destruct (collect (new_chain_info (build_chain_map mask) record) chains)
      as [infos|e] eqn:Hrun.
    + apply collect_Ok in Hrun.
      apply list_elem_of_lookup_1 in Hin as [i Hi].
      destruct (Forall2_lookup_l _ _ _ _ _ Hrun Hi) as (info & _ & Hinfo).
      unfold new_chain_info, mbind, result_bind in Hinfo.
      rewrite build_chain_map_lookup in Hinfo.
      assert (true_positions_from 0 mask !! asym_id chain = None) as Hnone.
      { apply lookup_ge_None. by rewrite true_positions_length. }
      by rewrite Hnone in Hinfo.
    + exists e. split; [done|].
      apply collect_Raise in Hrun as (x & _ & Hx).
      by eapply new_chain_info_error.
Qed.

Lemma chain_info_follows_the_chain_map_witness :
  (∃ infos,
     collect (new_chain_info (build_chain_map [true; false; true])
                (mkRecord "C" [mkChainInfo 0 "A" true; mkChainInfo 1 "B" false;
                               mkChainInfo 2 "C" true]))
       [mkChain "A" 0; mkChain "C" 1]
     = Ok infos) ∧
  (∃ e,
     collect (new_chain_info (build_chain_map [true; false; true])
                (sample_record "A")) [mkChain "A" 0; mkChain "C" 2]
     = Raise e ∧ lookup_error e).
Proof.
  split.
  - apply (proj1 (proj2 (chain_info_follows_the_chain_map [true; false; true]
                          (mkRecord "C" [mkChainInfo 0 "A" true;
                                         mkChainInfo 1 "B" false;
                                         mkChainInfo 2 "C" true])
                          [mkChain "A" 0; mkChain "C" 1]))).
    + repeat constructor.
    + cbn. lia.
  - apply (proj2 (proj2 (chain_info_follows_the_chain_map [true; false; true]
                          (sample_record "A")
                          [mkChain "A" 0; mkChain "C" 2]))
             (mkChain "C" 2)).
    + apply (bool_decide_unpack _). reflexivity.
    + cbn. lia.
Defined.

(** *** Candidates and ranks *)

(** X6. A candidate that the rank table does not list (the score tensor has
    no entry for it) is never processed to the end, and no file is written
    for it: all it may leave in the log is the creation of directories. *)
Theorem candidate_without_rank_writes_no_file
    (self : BoltzWriter) (prediction : Prediction) (record : RecordT)
    (structure : Structure) (chain_map : gmap nat nat)
    (coord : list (list vec3)) (pad_mask : list bool)
    (idx_to_rank : gmap nat nat) (model_idx : nat) (s : State) :
  idx_to_rank !! model_idx = None →
  let r := process_model self prediction record structure chain_map coord
             pad_mask idx_to_rank model_idx s in
  r.2 ≠ Ok () ∧
  ∃ d, fs r.1 = fs s ++ d ∧ Forall (λ e, ∃ p, e = Mkdir p) d.
Proof.
  intros Hnone r. split.
  - unfold r. rewrite process_model_split.
    destruct (until_structure_saved self prediction record structure
                chain_map coord pad_mask idx_to_rank model_idx s)
      as [s2 [[]|e]] eqn:Hpre.
    + unfold until_structure_saved in Hpre.
      apply bind_Ok_inv in Hpre as (s0 & [] & _ & Hpre).
      apply bind_Ok_inv in Hpre as (s1 & ns & _ & Hsave).
      apply save_structure_Ok in Hsave as (rank & _ & Hrank & _). congruence.
    + by rewrite (bind_Raise _ _ s s2 e).
  - destruct (only_writes_process_model self prediction record idx_to_rank
                model_idx structure chain_map coord pad_mask s)
      as (_ & d & Hd & HΦ).
    exists d. split; [done|].
    eapply Forall_impl; [exact HΦ|].
    intros [p|p c] He; [by exists p|].
    destruct He as (rank & Hrank & _). congruence.
Qed.

Lemma candidate_without_rank_writes_no_file_witness :
  (process_model (sample_writer "pdb") one_candidate (sample_record "A")
     base_structure {[ 0 := 0 ]} [[(1, 1, 1); (2, 2, 2)]%Z] [true; true]
     ∅ 0 base_state).2 ≠ Ok ().
Proof.
  apply (candidate_without_rank_writes_no_file (sample_writer "pdb")
           one_candidate (sample_record "A") base_structure {[ 0 := 0 ]}
           [[(1, 1, 1); (2, 2, 2)]%Z] [true; true] ∅ 0 base_state).
  reflexivity.
Defined.

(** X7. Under a descending argsort the rank table is the inverse of the
    sorted order: candidate [i] has rank [r] exactly when the order holds
    [i] at position [r]. In particular the candidate whose score is
    strictly above every other score is written as model 0. *)
Theorem best_candidate_is_model_zero
    (scores : list scalar) (order : list nat) :
  descending_argsort scores order →
  (∀ i r, rank_table order !! i = Some r ↔ order !! r = Some i) ∧
  (∀ (i : nat) (x : scalar),
     scores !! i = Some x →
     (∀ (j : nat) (y : scalar), j ≠ i → scores !! j = Some y → (y < x)%Z) →
     rank_table order !! i = Some 0).
Proof.
  intros [Hperm Hdesc].
  assert (Hnd : NoDup order) by (rewrite Hperm; apply NoDup_seq).
  split; [intros i r; by apply rank_table_lookup|].
  intros i x Hx Hbest.
  assert (i ∈ order) as Hin.
  { rewrite Hperm. apply elem_of_seq. apply lookup_lt_Some in Hx. lia. }
  apply list_elem_of_lookup_1 in Hin as [r Hr].
  destruct r as [|r]; [by apply rank_table_lookup|].
  destruct (lookup_lt_is_Some_2 order 0) as [j Hj].
  { apply lookup_lt_Some in Hr. lia. }
  assert (j ≠ i) as Hji.
  { intros ->. pose proof (NoDup_lookup _ _ _ _ Hnd Hj Hr). lia. }
  assert (j ∈ seq 0 (length scores)) as Hjin.
  { rewrite <- Hperm. by eapply list_elem_of_lookup_2. }
  apply elem_of_seq in Hjin.
  destruct (lookup_lt_is_Some_2 scores j) as [y Hy]; [lia|].
  pose proof (Hbest j y Hji Hy).
  pose proof (Hdesc 0 (S r) j i y x ltac:(lia) Hj Hr Hy Hx). lia.
Qed.

Lemma best_candidate_is_model_zero_witness :
  rank_table (argsort_low_index_first [2; 9; 4]%Z) !! 1 = Some 0.
Proof.
  apply (proj2 (best_candidate_is_model_zero [2; 9; 4]%Z
                  (argsort_low_index_first [2; 9; 4]%Z)
                  (argsort_low_index_first_descending [2; 9; 4]%Z))
           1 9%Z).
  - reflexivity.
  - intros [|[|[|j]]] y Hne Hy; cbn in Hy; try done.
    + injection Hy as <-. lia.
    + injection Hy as <-. lia.
Defined.

(** *** The failure counter over a run *)

Lemma flagged_count_cons (call : Prediction * Batch) calls :
  flagged_count (call :: calls)
  = (if exception call.1 then 1 else 0) + flagged_count calls.
Proof.
  unfold flagged_count. destruct (exception call.1) eqn:E.
  - by rewrite filter_cons_True.
  - rewrite filter_cons_False; [done|]. by rewrite E.
Qed.

Lemma predict_run_failed `{Externals} self calls : ∀ s,
  let r := predict_run self calls s in
  failed s ≤ failed r.1 ∧
  failed r.1 ≤ failed s + flagged_count calls ∧
  (r.2 = Ok () → failed r.1 = failed s + flagged_count calls).
Proof.
  induction calls as [|[prediction batch] calls IH]; intros s.
  - cbn. unfold flagged_count. cbn. lia.
  - cbn zeta. rewrite flagged_count_cons. cbn [fst].
    unfold predict_run. cbn [for_each fst snd].
    assert (Hcall :
      failed (write_on_batch_end self prediction batch s).1
      = failed s + (if exception prediction then 1 else 0) ∧
      (exception prediction = true →
       (write_on_batch_end self prediction batch s).2 = Ok ())).
    { destruct (exception prediction) eqn:Hexc.
      - unfold write_on_batch_end. rewrite Hexc. by cbn.
      - split; [|done].
        destruct (only_writes_batch self prediction batch Hexc s) as [Hf _].
        lia. }
    destruct Hcall as [Hfail Hret].
    unfold mbind, M_bind.
    destruct (write_on_batch_end self prediction batch s) as [s1 [[]|e]];
      cbn [fst snd] in *.
    + specialize (IH s1). cbn zeta in IH. unfold predict_run in IH.
      destruct IH as (IH1 & IH2 & IH3).
      split; [lia|]. split; [lia|]. intros Hok. specialize (IH3 Hok). lia.
    + split; [lia|]. split; [lia|done].
Qed.

(** X8. The failure counter over the calls of a run. It never decreases,
    and it grows by at most the number of flagged batches of the run; when
    the run comes to its end without an exception it has grown by exactly
    that number. After construction, which sets the counter to zero, the
    line printed at the end of the predict phase reports the number of
    flagged batches of the run. *)
Theorem failure_report_counts_the_flagged_batches `{Externals}
    (data_dir output_dir output_format : string)
    (calls : list (Prediction * Batch)) (s0 : State) :
  (∀ self s,
     let r := predict_run self calls s in
     failed s ≤ failed r.1 ≤ failed s + flagged_count calls) ∧
  (∀ self s1 s2,
     init data_dir output_dir output_format s0 = (s1, Ok self) →
     predict_run self calls s1 = (s2, Ok ()) →
     on_predict_epoch_end s2
     = (s2, Ok ("Number of failed examples: "
                  +:+ pretty (flagged_count calls)))).
Proof.
  split.
  - intros self s r. destruct (predict_run_failed self calls s) as (? & ? & _).
    by split.
  - intros self s1 s2 Hinit Hrun.
    assert (failed s1 = 0) as Hzero.
    { unfold init in Hinit. case_decide; [|done].
      unfold mbind, M_bind, set_failed, emit, mret, M_ret in Hinit.
      by injection Hinit as <- _. }
    destruct (predict_run_failed self calls s1) as (_ & _ & Hcount).
    rewrite Hrun in Hcount. cbn in Hcount. specialize (Hcount eq_refl).
    unfold on_predict_epoch_end. by rewrite Hcount, Hzero.
Qed.

Lemma failure_report_counts_the_flagged_batches_witness :
  ∃ s2,
    on_predict_epoch_end s2 = (s2, Ok "Number of failed examples: 1").
Proof.
  exists (@predict_run sample_externals (sample_writer "pdb") sample_calls
            (init "data" "out" "pdb" (empty_state sample_disk)).1).1.
  apply (proj2 (@failure_report_counts_the_flagged_batches sample_externals
                  "data" "out" "pdb" sample_calls (empty_state sample_disk))
           (sample_writer "pdb")
           (init "data" "out" "pdb" (empty_state sample_disk)).1).
  - reflexivity.
  - vm_compute. reflexivity.
Defined.

(** *** Where files go *)

Lemma prefix_self_append (a b : string) : String.prefix a (a +:+ b) = true.
Proof.
  induction a as [|c a IH].
  - rewrite append_empty. by destruct b.
  - rewrite append_cons. cbn [String.prefix].
    by destruct (Ascii.ascii_dec c c).
Qed.

Lemma prefix_cancel (a b c : string) :
  String.prefix (a +:+ b) (a +:+ c) = String.prefix b c.
Proof.
  induction a as [|x a IH]; [done|].
  rewrite !append_cons. cbn [String.prefix].
  by destruct (Ascii.ascii_dec x x).
Qed.

Lemma prefix_dir_savez (dir p : string) :
  String.prefix dir p = true → String.prefix dir (savez_path p) = true.
Proof.
  intros Hp. unfold savez_path. destruct (ends_with ".npz" p); [done|].
  by apply prefix_append.
Qed.

Lemma prefix_empty (x : string) : String.prefix "" x = true.
Proof. by destruct x. Qed.

Lemma is_absolute_append (x y : string) :
  x ≠ "" → is_absolute (x +:+ y) = is_absolute x.
Proof.
  destruct x as [|a x]; [done|]. intros _. rewrite append_cons.
  unfold is_absolute. cbn [String.prefix].
  destruct (Ascii.ascii_dec _ a); [|done]. by rewrite !prefix_empty.
Qed.

Lemma path_component_relative (name : string) :
  path_component name → is_absolute name = false.
Proof.
  intros (Hne & _ & _ & Hsep). destruct name as [|a name]; [done|].
  cbn [has_separator] in Hsep. by apply orb_false_elim in Hsep as [? _].
Qed.

Lemma path_join_relative (p c : string) :
  is_absolute c = false → p </> c = p +:+ "/" +:+ c.
Proof. unfold path_join. by intros ->. Qed.

Lemma model_name_relative record rank ext :
  path_component (record_id record) →
  is_absolute (model_name record rank ext) = false.
Proof.
  intros Hid. unfold model_name.
  rewrite is_absolute_append by apply Hid. by apply path_component_relative.
Qed.

Lemma intermediate_name_relative record rank step format :
  path_component (record_id record) →
  is_absolute (intermediate_name record rank step format) = false.
Proof.
  intros Hid. unfold intermediate_name.
  rewrite is_absolute_append by apply Hid. by apply path_component_relative.
Qed.

Lemma struct_file_under_record_dir self record name :
  path_component (record_id record) → is_absolute name = false →
  String.prefix (output_dir self +:+ "/" +:+ record_id record +:+ "/")
    (struct_dir_of self record </> name) = true.
Proof.
  intros Hid Hname. unfold struct_dir_of.
  rewrite (path_join_relative _ name) by done.
  rewrite path_join_relative by by apply path_component_relative.
  rewrite !append_assoc, !prefix_cancel. apply prefix_self_append.
Qed.

Lemma step_file_under_record_dir self record name :
  path_component (record_id record) → is_absolute name = false →
  String.prefix (output_dir self +:+ "/" +:+ record_id record +:+ "/")
    (intermediate_dir_of self record </> name) = true.
Proof.
  intros Hid Hname. unfold intermediate_dir_of.
  rewrite (path_join_relative _ name) by done.
  rewrite (path_join_relative _ "intermediate") by done.
  rewrite path_join_relative by by apply path_component_relative.
  rewrite !append_assoc, !prefix_cancel. apply prefix_self_append.
Qed.

Lemma output_file_under_record_dir self record rank p c :
  path_component (record_id record) →
  output_file self record rank p c →
  String.prefix (output_dir self +:+ "/" +:+ record_id record +:+ "/") p
  = true.
Proof.
  intros Hid Hfile.
  pose proof (model_name_relative record rank) as Hmodel.
  pose proof (intermediate_name_relative record rank) as Hstep.
  destruct Hfile as [| | | | | |kind a Hkind| | | |];
    try (apply struct_file_under_record_dir; [done|]);
    try (apply step_file_under_record_dir; [done|]);
    try (apply prefix_dir_savez, step_file_under_record_dir; [done|]);
    try (by apply Hmodel); try (by apply Hstep); try done.
  apply elem_of_cons in Hkind as [->|Hkind]; [done|].
  by apply list_elem_of_singleton in Hkind as ->.
Qed.



(** *** File names and ranks *)

Lemma append_length (x y : string) :
  String.length (x +:+ y) = String.length x + String.length y.
Proof.
  induction x as [|a x IH]; [done|]. rewrite append_cons. cbn. by rewrite IH.
Qed.

Lemma append_inj_r (x y z : string) : x +:+ z = y +:+ z → x = y.
Proof.
  revert y. induction x as [|a x IH]; intros [|b y] Heq; [done|..].
  - apply (f_equal String.length) in Heq.
    rewrite append_empty, append_cons in Heq. cbn in Heq.
    rewrite append_length in Heq. lia.
  - apply (f_equal String.length) in Heq.
    rewrite append_empty, append_cons in Heq. cbn in Heq.
    rewrite append_length in Heq. lia.
  - rewrite !append_cons in Heq. injection Heq as -> Heq.
    by rewrite (IH y Heq).
Qed.

Lemma model_name_inj record r1 r2 ext :
  model_name record r1 ext = model_name record r2 ext → r1 = r2.
Proof.
  unfold model_name. intros Heq.
  do 2 apply String.app_inj in Heq.
  apply append_inj_r in Heq. by apply (inj pretty).
Qed.

Lemma is_absolute_model_name record rank ext :
  is_absolute (model_name record rank ext)
  = is_absolute (record_id record +:+ "_").
Proof.
  unfold model_name, is_absolute. destruct (record_id record) as [|a x].
  - reflexivity.
  - rewrite !append_cons. cbn [String.prefix].
    destruct (Ascii.ascii_dec _ a); [|done]. by rewrite !prefix_empty.
Qed.

Lemma is_absolute_side_name kind record rank ext :
  is_absolute (side_name kind record rank ext) = is_absolute (kind +:+ "_").
Proof.
  unfold side_name, is_absolute. destruct kind as [|a x].
  - reflexivity.
  - rewrite !append_cons. cbn [String.prefix].
    destruct (Ascii.ascii_dec _ a); [|done]. by rewrite !prefix_empty.
Qed.

(** X10. Candidates do not overwrite one another: under a rank table built
    from an order without repetition, two different candidates of a record
    have different ranks, and the names of their structure files and of
    their confidence, plddt, pae and pde files differ. *)
Theorem candidates_write_to_different_files
    (order : list nat) (self : BoltzWriter) (record : RecordT)
    (i j ri rj : nat) :
  NoDup order →
  rank_table order !! i = Some ri →
  rank_table order !! j = Some rj →
  i ≠ j →
  ri ≠ rj ∧
  (∀ ext,
     struct_dir_of self record </> model_name record ri ext
     ≠ struct_dir_of self record </> model_name record rj ext) ∧
  (∀ kind ext,
     struct_dir_of self record </> side_name kind record ri ext
     ≠ struct_dir_of self record </> side_name kind record rj ext).
Proof.
  intros Hnd Hi Hj Hij.
  apply rank_table_lookup in Hi, Hj; [|done..].
  assert (ri ≠ rj) as Hr by congruence.
  split; [done|]. split.
  - intros ext Heq. unfold path_join in Heq.
    rewrite !is_absolute_model_name in Heq.
    destruct (is_absolute _); [by apply model_name_inj in Heq|].
    do 2 apply String.app_inj in Heq. by apply model_name_inj in Heq.
  - intros kind ext Heq. unfold path_join in Heq.
    rewrite !is_absolute_side_name in Heq. unfold side_name in Heq.
    destruct (is_absolute _).
    + do 2 apply String.app_inj in Heq. by apply model_name_inj in Heq.
    + do 4 apply String.app_inj in Heq. by apply model_name_inj in Heq.
Qed.

Lemma candidates_write_to_different_files_witness :
  "out/A" </> model_name (sample_record "A") 1 "pdb"
  ≠ "out/A" </> model_name (sample_record "A") 0 "pdb".
Proof.
  refine (proj1 (proj2 (candidates_write_to_different_files [1; 0]
            (sample_writer "pdb") (sample_record "A") 0 1 1 0 _ _ _ _)) "pdb").
  - apply (bool_decide_unpack _). reflexivity.
  - reflexivity.
  - reflexivity.
  - discriminate.
Defined.

(** *** The structure file and the per-atom confidence *)

Lemma read_structure_emit (st : Structure) (e : event) (s : State) :
  read_structure st (emit e s).1 = read_structure st s.
Proof. reflexivity. Qed.



(** *** The records of a batch *)

(** X12. A batch that is not flagged and has a confidence score, but has
    no record or no mask row, is a no-operation: the call returns normally
    and the state is as before. *)
Theorem batch_without_records_is_a_no_op `{Externals}
    (self : BoltzWriter) (prediction : Prediction) (batch : Batch)
    (s : State) :
  exception prediction = false →
  is_Some (scalars prediction !! "confidence_score") →
  batch_record batch = [] ∨ masks prediction = [] →
  write_on_batch_end self prediction batch s = (s, Ok ()).
Proof.
  intros Hexc [score Hscore] Hempty.
  unfold write_on_batch_end, ranking. rewrite Hexc, Hscore. cbn.
  destruct Hempty as [-> | ->]; [done|].
  by destruct (batch_record batch).
Qed.

Lemma batch_without_records_is_a_no_op_witness :
  @write_on_batch_end sample_externals (sample_writer "pdb") one_candidate
    (mkBatch []) (empty_state sample_disk)
  = (empty_state sample_disk, Ok ()).
Proof.
  apply (@batch_without_records_is_a_no_op sample_externals).
  - reflexivity.
  - eexists. reflexivity.
  - left. reflexivity.
Defined.

(** X13. Only the first record of a batch and the first row of the masks
    are ever used: the call on a batch does what the call does on the batch
    cut to its first record, with the masks cut to their first row. *)
Theorem only_the_first_record_is_reached `{Externals}
    (self : BoltzWriter) (prediction : Prediction) (batch : Batch)
    (s : State) :
  write_on_batch_end self prediction batch s
  = write_on_batch_end self
      (mkPrediction (exception prediction) (pred_coords prediction)
         (take 1 (masks prediction)) (scalars prediction) (plddt prediction)
         (pae prediction) (pde prediction) (pair_chains_iptm prediction)
         (intermediate_coords prediction))
      (mkBatch (take 1 (batch_record batch))) s.
Proof.
  unfold write_on_batch_end, ranking. cbn.
  destruct (exception prediction); [done|].
  unfold mbind, M_bind, lift.
  destruct (result_bind _ _ _ _) as [idx_to_rank|e]; [|done].
  destruct (batch_record batch) as [|x [|x' l]],
    (masks prediction) as [|y [|y' m]]; reflexivity.
Qed.

(** *** The confidence summary without a diagonal entry *)

Lemma dict_comp_from_Ok {K V} `{EqDecision K} (f : K → result V)
    (keys : list K) : ∀ (acc d : odict K V),
  dict_comp_from acc keys f = Ok d → ∀ k, k ∈ keys → ∃ v, f k = Ok v.
Proof.
  induction keys as [|k0 keys IH]; intros acc d Hrun k Hin.
  - by apply elem_of_nil in Hin.
  - cbn in Hrun. unfold mbind, result_bind in Hrun.
    destruct (f k0) as [v|e] eqn:Hk0; [|done].
    apply elem_of_cons in Hin as [->|Hin]; [by exists v|].
    by eapply IH.
Qed.

Lemma dict_comp_from_Raise {K V} `{EqDecision K} (f : K → result V)
    (keys : list K) : ∀ (acc : odict K V) (e : exn),
  dict_comp_from acc keys f = Raise e → ∃ k, k ∈ keys ∧ f k = Raise e.
Proof.
  induction keys as [|k0 keys IH]; intros acc e Hrun; [done|].
  cbn in Hrun. unfold mbind, result_bind in Hrun.
  destruct (f k0) as [v|e'] eqn:Hk0.
  - destruct (IH _ _ Hrun) as (k & Hin & Hk). exists k. split; [by right|done].
  - injection Hrun as ->. exists k0. split; [by left|done].
Qed.

Lemma pair_item_error prediction model_idx idx1 idx2 e :
  pair_item prediction model_idx idx1 idx2 = Raise e → lookup_error e.
Proof.
  unfold pair_item, mbind, result_bind.
  destruct (pair_chains_iptm prediction) as [pc|]; cbn; [|by intros [= <-]].
  destruct (dict_get idx1 pc) as [row|]; cbn; [|by intros [= <-]].
  destruct (dict_get idx2 row) as [t|]; cbn; [|by intros [= <-]].
  by apply from_option_lookup_error.
Qed.

Lemma pair_row_keys_error prediction idx1 e :
  pair_row_keys prediction idx1 = Raise e → lookup_error e.
Proof.
  unfold pair_row_keys, mbind, result_bind.
  destruct (pair_chains_iptm prediction) as [pc|]; cbn; [|by intros [= <-]].
  destruct (dict_get idx1 pc) as [row|]; cbn; [done|by intros [= <-]].
Qed.

(** Whatever the confidence summary raises is a lookup error. *)
Lemma confidence_summary_error prediction model_idx e :
  confidence_summary prediction model_idx = Raise e → lookup_error e.
Proof.
  unfold confidence_summary, mbind at 1, result_bind at 1.
  destruct (add_scalars prediction model_idx scalar_keys []) as [d|e0] eqn:Hadd;
    [|intros [= <-]; by eapply add_scalars_error].
  unfold pair_keys.
  destruct (pair_chains_iptm prediction) as [pc|] eqn:Hpc;
    [|by intros [= <-]].
  cbn [from_option]. rewrite !result_bind_Ok.
  unfold mbind at 1, result_bind at 1. unfold dict_comp at 1.
  destruct (dict_comp_from [] (dict_keys pc) _) as [chains|e1] eqn:Hchains.
  - rewrite !result_bind_Ok.
    unfold mbind at 1, result_bind at 1. unfold dict_comp at 1.
    match goal with
    | |- match ?x with _ => _ end = _ → _ =>
        destruct x as [pairs|e2] eqn:Hpairs; [done|]
    end.
    intros [= <-].
    apply dict_comp_from_Raise in Hpairs as (k & _ & Hk).
    unfold mbind, result_bind in Hk.
    destruct (pair_row_keys prediction k) as [keys2|e3] eqn:Hkeys2.
    + apply dict_comp_from_Raise in Hk as (k2 & _ & Hk2).
      by eapply pair_item_error.
    + injection Hk as <-. by eapply pair_row_keys_error.
  - intros [= <-].
    apply dict_comp_from_Raise in Hchains as (k & _ & Hk).
    by eapply pair_item_error.
Qed.

(** X14. The summary needs the diagonal of the pairwise chain tensor: when
    some chain index of the tensor has a row without an entry for the chain
    itself, the confidence summary raises a lookup error, and with per-atom
    confidence present the confidence stage of every candidate raises it
    without writing the summary or anything else. *)
Theorem summary_needs_the_diagonal
    (self : BoltzWriter) (prediction : Prediction) (record : RecordT)
    (idx_to_rank : gmap nat nat) (model_idx : nat)
    (pc : odict nat (odict nat (list scalar)))
    (i : nat) (row : odict nat (list scalar)) (s : State) :
  pair_chains_iptm prediction = Some pc →
  NoDup (dict_keys pc) →
  (i, row) ∈ pc →
  dict_get i row = None →
  (∃ e, confidence_summary prediction model_idx = Raise e ∧ lookup_error e) ∧
  (is_Some (plddt prediction) →
   ∃ e, save_confidence self prediction record idx_to_rank model_idx s
        = (s, Raise e) ∧ lookup_error e).
Proof.
  intros Hpc Hnd Hin Hdiag.
  assert (Hsum : ∃ e, confidence_summary prediction model_idx = Raise e
                      ∧ lookup_error e).
  { destruct (confidence_summary prediction model_idx) as [d|e] eqn:Hrun;
      [|exists e; split; [done|by eapply confidence_summary_error]].
    exfalso. unfold confidence_summary, mbind at 1, result_bind at 1 in Hrun.
    destruct (add_scalars prediction model_idx scalar_keys []) as [d0|];
      [|done].
    unfold pair_keys in Hrun. rewrite Hpc in Hrun. cbn [from_option] in Hrun.
    rewrite !result_bind_Ok in Hrun.
    unfold mbind at 1, result_bind at 1, dict_comp at 1 in Hrun.
    destruct (dict_comp_from [] (dict_keys pc) _) as [chains|] eqn:Hchains;
      [|done].
    assert (i ∈ dict_keys pc) as Hi.
    { apply list_elem_of_fmap. by exists (i, row). }
    destruct (dict_comp_from_Ok _ _ _ _ Hchains i Hi) as [x Hx].
    unfold pair_item, mbind, result_bind in Hx. rewrite Hpc in Hx. cbn in Hx.
    rewrite (dict_get_elem_of i row pc Hnd Hin) in Hx. cbn in Hx.
    by rewrite Hdiag in Hx. }
  split; [done|]. intros [p Hp].
  destruct Hsum as (e & Hsum & He).
  unfold save_confidence. rewrite Hp. unfold rank_of.
  destruct (idx_to_rank !! model_idx) as [rank|].
  - rewrite (bind_Ok _ _ s s rank) by done.
    exists e. split; [|done]. apply bind_Raise. unfold lift. by rewrite Hsum.
  - eexists. split; [by apply bind_Raise|done].
Qed.

Lemma summary_needs_the_diagonal_witness :
  ∃ e,
    confidence_summary
      (mkPrediction false [] [] all_scalars None None None
         (Some [(0, [(1, [11]%Z)])]) None) 0
    = Raise e ∧ lookup_error e.
Proof.
  refine (proj1 (summary_needs_the_diagonal (sample_writer "pdb")
                   (mkPrediction false [] [] all_scalars None None None
                      (Some [(0, [(1, [11]%Z)])]) None)
                   (sample_record "A") ∅ 0 [(0, [(1, [11]%Z)])]
                   0 [(1, [11]%Z)] (empty_state ∅) eq_refl _ _ eq_refl)).
  - apply (bool_decide_unpack _). reflexivity.
  - apply (bool_decide_unpack _). reflexivity.
Defined.

(** *** A batch without optional fields, from end to end *)

(** The structure file of a candidate when no per-atom confidence is to be
    embedded. *)
Lemma save_structure_plain self prediction record idx_to_rank model_idx rank
    new_structure d s :
  output_format self = "pdb" ∨
    (output_format self = "mmcif" ∧ plddt prediction = None) →
  idx_to_rank !! model_idx = Some rank →
  read_structure new_structure s = Ok d →
  save_structure self prediction record idx_to_rank model_idx new_structure s
  = (mkState (failed s)
       (fs s ++
          [ Mkdir (struct_dir_of self record);
            WriteFile (struct_dir_of self record
                         </> model_name record rank
                               (format_suffix (output_format self)))
              (structure_text (output_format self) d None) ])
       (disk s) (atom_arrays s) (residue_arrays s) (next_loc s), Ok ()).
Proof.
  intros Hfmt Hrank Hread.
  assert (Hread' : read_structure new_structure
                     (emit (Mkdir (struct_dir_of self record)) s).1 = Ok d)
    by done.
  unfold save_structure, format_suffix, structure_text.
  fold (struct_dir_of self record).
  rewrite (bind_Ok _ _ s (emit (Mkdir (struct_dir_of self record)) s).1 ())
    by done.
  destruct Hfmt as [Hfmt|[Hfmt Hplddt]].
  - rewrite !decide_True by done.
    rewrite (bind_Ok _ _ _ _ rank)
      by (unfold lift, rank_of; by rewrite Hrank).
    rewrite (bind_Ok _ _ _ _ d) by (by rewrite snapshot_eq, Hread').
    rewrite emit_eq. cbn. do 2 f_equal.
    apply eq_sym, (app_assoc (fs s) [_] [_]).
  - rewrite !(decide_False (P := output_format self = "pdb"))
      by (rewrite Hfmt; discriminate).
    rewrite !decide_True by done.
    rewrite (bind_Ok _ _ _ _ rank)
      by (unfold lift, rank_of; by rewrite Hrank).
    rewrite Hplddt.
    rewrite (bind_Ok _ _ _ _ d) by (by rewrite snapshot_eq, Hread').
    rewrite emit_eq. cbn. do 2 f_equal.
    apply eq_sym, (app_assoc (fs s) [_] [_]).
Qed.

Section plain_candidates.
Context (self : BoltzWriter) (prediction : Prediction) (record : RecordT)
        (structure : Structure) (chain_map : gmap nat nat)
        (coord : list (list vec3)) (pad_mask : list bool)
        (idx_to_rank : gmap nat nat) (base : StructureData).
Hypothesis Hfmt : output_format self = "pdb" ∨ output_format self = "mmcif".
Hypothesis Hplddt : plddt prediction = None.
Hypothesis Hpae : pae prediction = None.
Hypothesis Hpde : pde prediction = None.
Hypothesis Hsteps : intermediate_coords prediction = None.
Hypothesis Hchains : chains structure = d_chains base.
Hypothesis Hmask : mask structure = d_mask base.
Hypothesis Hcount : count_true pad_mask = length (d_atoms base).
Hypothesis Hinfo :
  ∃ infos, collect (new_chain_info chain_map record) (chains structure)
           = Ok infos.

Local Abbreviation holds_base := (holds_base structure base).
Local Abbreviation candidate_events :=
  (candidate_events self record idx_to_rank pad_mask base).

Lemma process_model_plain model_idx rank model_coord s :
  idx_to_rank !! model_idx = Some rank →
  coord !! model_idx = Some model_coord →
  length pad_mask = length model_coord →
  holds_base s →
  ∃ s' events,
    process_model self prediction record structure chain_map coord pad_mask
      idx_to_rank model_idx s = (s', Ok ()) ∧
    fs s' = fs s ++ events ∧
    candidate_events model_idx model_coord events ∧
    holds_base s'.
Proof.
  intros Hrank Hcoord Hlen (t & r & Ht & Hr & Hnames & Hrnames).
  destruct Hinfo as [infos Hinfos].
  assert (Hrows : length (mask_select model_coord pad_mask) = length t).
  { rewrite (mask_select_length _ _ Hlen), Hcount.
    rewrite <- (length_fmap atom_name t), Hnames. by rewrite length_fmap. }
  destruct (assign_coords_rows t _ Hrows) as (t' & Hv & Hc & Hn & _).
  destruct (assign_is_present_rows true t') as (Hc' & Hn' & Hp').
  destruct (assign_res_is_present_rows true r) as (Hrn & Hrp).
  set (new_structure := mkStructure (atoms structure) (residues structure)
                          (chains structure) [] (mask structure)).
  set (s1 := mkState (failed s) (fs s) (disk s)
               (<[atoms structure := assign_is_present true t']>
                  (<[atoms structure := t']> (atom_arrays s)))
               (<[residues structure := assign_res_is_present true r]>
                  (residue_arrays s))
               (next_loc s)).
  set (d := mkStructureData (assign_is_present true t')
              (assign_res_is_present true r) (chains structure) []
              (mask structure)).
  assert (Hfinal : final_structure record structure chain_map coord pad_mask
                     model_idx s = (s1, Ok new_structure)).
  { unfold final_structure.
    rewrite (bind_Ok _ _ s s model_coord) by (unfold lift; by rewrite Hcoord).
    rewrite (bind_Ok _ _ s s (mask_select model_coord pad_mask))
      by (unfold lift, unpad; by rewrite decide_True).
    rewrite (bind_Ok _ _ s s1 new_structure)
      by (by apply (assemble_final_run _ _ t t' r)).
    rewrite (bind_Ok _ _ s1 s1 infos)
      by (unfold lift, new_structure; cbn [chains]; by rewrite Hinfos).
    done. }
  assert (Hread : read_structure new_structure s1 = Ok d).
  { unfold read_structure. cbn. by rewrite !lookup_insert_eq. }
  eexists _, _. split; [|split; [|split]].
  - unfold process_model, save_intermediate. rewrite Hsteps.
    rewrite (bind_Ok _ _ s s ()) by done.
    rewrite (bind_Ok _ _ s s1 new_structure) by done.
    erewrite bind_Ok;
      [|apply (save_structure_plain _ _ _ _ _ rank _ d); [|done..]].
    2:{ destruct Hfmt; [by left|by right]. }
    unfold save_confidence, save_matrix. rewrite Hplddt, Hpae, Hpde.
    reflexivity.
  - reflexivity.
  - exists rank, d. split; [done|]. split; [done|].
    unfold candidate_of. cbn.
    repeat split; try done; congruence.
  - exists (assign_is_present true t'), (assign_res_is_present true r). cbn.
    rewrite !lookup_insert_eq. repeat split; congruence.
Qed.

Lemma candidates_plain (indices : list nat) : ∀ s,
  Forall (λ i, ∃ rank model_coord,
            idx_to_rank !! i = Some rank ∧ coord !! i = Some model_coord ∧
            length pad_mask = length model_coord) indices →
  holds_base s →
  ∃ s' groups,
    for_each indices
      (process_model self prediction record structure chain_map coord
         pad_mask idx_to_rank) s = (s', Ok ()) ∧
    fs s' = fs s ++ concat groups ∧
    Forall2 (λ i events, ∃ model_coord,
               coord !! i = Some model_coord ∧
               candidate_events i model_coord events) indices groups.
Proof.
  induction indices as [|i indices IH]; intros s Hall Hbase.
  - exists s, []. cbn. split; [done|]. split; [by rewrite app_nil_r|].
    constructor.
  - apply Forall_cons in Hall as [(rank & mc & Hrank & Hmc & Hlen) Hall].
    destruct (process_model_plain i rank mc s Hrank Hmc Hlen Hbase)
      as (s1 & events & Hrun & Hlog & Hev & Hbase1).
    destruct (IH s1 Hall Hbase1) as (s' & groups & Hrest & Hlog' & Hgroups).
    exists s', (events :: groups). split; [|split].
    + cbn [for_each]. by rewrite (bind_Ok _ _ s s1 ()).
    + cbn. by rewrite Hlog', Hlog, app_assoc.
    + constructor; [by exists mc|done].
Qed.
End plain_candidates.



(** *** The files of the refinement steps *)

Lemma assemble_intermediate_run structure (v : list vec3) (t t' : list Atom)
    (s : State) :
  atom_arrays s !! atoms structure = Some t →
  assign_coords t v = Ok t' →
  assemble_intermediate structure v s
  = (mkState (failed s) (fs s) (disk s)
       (<[next_loc s := assign_is_present true t']>
          (<[next_loc s := t']> (<[next_loc s := t]> (atom_arrays s))))
       (residue_arrays s) (S (next_loc s)),
     Ok (mkStructure (next_loc s) (residues structure) (chains structure) []
           (mask structure))).
Proof.
  intros Ht Hv.
  unfold assemble_intermediate, copy_atoms, set_coords, set_is_present,
    read_atoms, new_atoms, store_atoms, mbind, M_bind, lift, mret, M_ret.
  rewrite Ht. cbn. rewrite lookup_insert_eq. cbn. rewrite Hv. cbn.
  by rewrite lookup_insert_eq.
Qed.

Section steps.
Context (self : BoltzWriter) (record : RecordT) (structure : Structure)
        (pad_mask : list bool) (idx_to_rank : gmap nat nat)
        (model_idx rank : nat) (t : list Atom) (r : list Residue)
        (residue_store : gmap loc (list Residue)).
Hypothesis Hfmt : output_format self = "pdb" ∨ output_format self = "mmcif".
Hypothesis Hrank : idx_to_rank !! model_idx = Some rank.
Hypothesis Hr : residue_store !! residues structure = Some r.
Hypothesis Hcount : count_true pad_mask = length t.

Local Abbreviation base_kept := (λ s : State,
  atom_arrays s !! atoms structure = Some t ∧
  residue_arrays s = residue_store ∧
  atoms structure < next_loc s).

Lemma save_intermediate_step_run (item : nat * list (list vec3))
    (model_step_coords : list vec3) (s : State) :
  item.2 !! model_idx = Some model_step_coords →
  length pad_mask = length model_step_coords →
  base_kept s →
  ∃ s' e,
    save_intermediate_step self record structure pad_mask idx_to_rank
      model_idx (intermediate_dir_of self record) item s = (s', Ok ()) ∧
    fs s' = fs s ++ [e] ∧
    step_file self record structure pad_mask model_idx rank t r item e ∧
    base_kept s'.
Proof.
  destruct item as [step step_coords]. cbn [fst snd].
  intros Hmc Hlen (Ht & Hres & Hfresh).
  assert (Hrows : length (mask_select model_step_coords pad_mask) = length t)
    by (by rewrite (mask_select_length _ _ Hlen)).
  destruct (assign_coords_rows t _ Hrows) as (t' & Hv & Hc & Hn & _).
  destruct (assign_is_present_rows true t') as (Hc' & Hn' & Hp').
  set (s1 := mkState (failed s) (fs s) (disk s)
               (<[next_loc s := assign_is_present true t']>
                  (<[next_loc s := t']>
                     (<[next_loc s := t]> (atom_arrays s))))
               (residue_arrays s) (S (next_loc s))).
  set (new_structure := mkStructure (next_loc s) (residues structure)
                          (chains structure) [] (mask structure)).
  set (d := mkStructureData (assign_is_present true t') r (chains structure)
              [] (mask structure)).
  set (path := intermediate_dir_of self record
                 </> intermediate_name record rank step (output_format self)).
  assert (Hread : read_structure new_structure s1 = Ok d).
  { unfold read_structure. cbn. rewrite lookup_insert_eq.
    by rewrite Hres, Hr. }
  exists (emit (WriteFile path (structure_text (output_format self) d None))
            s1).1.
  exists (WriteFile path (structure_text (output_format self) d None)).
  split; [|split; [done|split]].
  - unfold save_intermediate_step.
    rewrite (bind_Ok _ _ s s model_step_coords)
      by (unfold lift; by rewrite Hmc).
    rewrite (bind_Ok _ _ s s (mask_select model_step_coords pad_mask))
      by (unfold lift, unpad; by rewrite decide_True).
    rewrite (bind_Ok _ _ s s1 new_structure)
      by (by apply (assemble_intermediate_run _ _ t t')).
    rewrite (bind_Ok _ _ s1 s1 rank)
      by (unfold lift, rank_of; by rewrite Hrank).
    rewrite (bind_Ok _ _ s1 s1 d) by (by rewrite snapshot_eq, Hread).
    fold path. unfold structure_text.
    destruct Hfmt as [Hpdb|Hcif].
    + by rewrite !decide_True.
    + rewrite !(decide_False (P := output_format self = "pdb"))
        by (rewrite Hcif; discriminate).
      by rewrite !decide_True.
  - exists model_step_coords, d. cbn.
    repeat split; try done; congruence.
  - cbn. rewrite !lookup_insert_ne by lia. repeat split; [done..|lia].
Qed.

Lemma save_intermediate_steps_run (items : list (nat * list (list vec3))) :
  ∀ s,
  Forall (λ item, ∃ model_step_coords,
            item.2 !! model_idx = Some model_step_coords ∧
            length pad_mask = length model_step_coords) items →
  base_kept s →
  ∃ s' files,
    for_each items
      (save_intermediate_step self record structure pad_mask idx_to_rank
         model_idx (intermediate_dir_of self record)) s = (s', Ok ()) ∧
    fs s' = fs s ++ files ∧
    Forall2 (step_file self record structure pad_mask model_idx rank t r)
      items files ∧
    base_kept s'.
Proof.
  induction items as [|item items IH]; intros s Hall Hkept.
  - exists s, []. cbn. split; [done|]. split; [by rewrite app_nil_r|].
    split; [constructor|done].
  - apply Forall_cons in Hall as [(mc & Hmc & Hlen) Hall].
    destruct (save_intermediate_step_run item mc s Hmc Hlen Hkept)
      as (s1 & e & Hrun & Hlog & Hfile & Hkept1).
    destruct (IH s1 Hall Hkept1) as (s' & files & Hrest & Hlog' & Hfiles & Hk).
    exists s', (e :: files). split; [|split; [|split]].
    + cbn [for_each]. by rewrite (bind_Ok _ _ s s1 ()).
    + rewrite Hlog', Hlog. by rewrite <- app_assoc.
    + by constructor.
    + done.
Qed.
End steps.



(** ** Ranks and the files of a candidate *)

Lemma writes_at_only_writes {A} Φ (m : M A) s :
  only_writes Φ m → writes_at Φ m s.
Proof. intros Hm. by destruct (Hm s) as [_ ?]. Qed.

Lemma writes_at_bind {A B} Φ (m : M A) (f : A → M B) s :
  writes_at Φ m s →
  (∀ s1 a, m s = (s1, Ok a) → writes_at Φ (f a) s1) →
  writes_at Φ (m ≫= f) s.
Proof.
  intros (d & Hd & HΦ) Hf. unfold writes_at, mbind, M_bind.
  destruct (m s) as [s1 [a|e]] eqn:Hm; cbn [fst] in *.
  - destruct (Hf s1 a eq_refl) as (d' & Hd' & HΦ').
    exists (d ++ d'). split.
    + by rewrite Hd', Hd, app_assoc.
    + by apply Forall_app.
  - by exists d.
Qed.

Lemma writes_at_lift_bind {A B} Φ (r : result A) (k : A → M B) s :
  (∀ a, r = Ok a → writes_at Φ (k a) s) → writes_at Φ (lift r ≫= k) s.
Proof.
  intros Hk. unfold writes_at, mbind, M_bind, lift. destruct r as [a|e].
  - by apply Hk.
  - exists []. by rewrite app_nil_r.
Qed.

Lemma writes_at_emit Φ (e : event) s : Φ e → writes_at Φ (emit e) s.
Proof. intros He. exists [e]. split; [done|]. by apply Forall_singleton. Qed.

Lemma writes_at_ret {A} Φ (a : A) s : writes_at Φ (mret a) s.
Proof. exists []. by rewrite app_nil_r. Qed.

Lemma writes_at_for_each {A} Φ (l : list A) (body : A → M unit) :
  (∀ x s, x ∈ l → writes_at Φ (body x) s) →
  ∀ s, writes_at Φ (for_each l body) s.
Proof.
  induction l as [|x l IH]; intros Hb s; cbn [for_each].
  - apply writes_at_ret.
  - apply writes_at_bind.
    + apply Hb. by left.
    + intros s1 _ _. apply IH. intros y s' Hy. apply Hb. by right.
Qed.

Lemma writes_at_mono {A} (Φ Ψ : event → Prop) (m : M A) s :
  (∀ e, Φ e → Ψ e) → writes_at Φ m s → writes_at Ψ m s.
Proof.
  intros HΦΨ (d & Hd & HΦ). exists d. split; [done|].
  eapply Forall_impl; [exact HΦ|exact HΦΨ].
Qed.

(** *** What the assembled structure holds *)

Lemma from_option_Ok {A} (e : exn) (o : option A) (a : A) :
  from_option e o = Ok a → o = Some a.
Proof. destruct o; cbn; [by intros [= ->]|done]. Qed.

Lemma unpad_Ok model_coord pad_mask v :
  unpad model_coord pad_mask = Ok v → v = mask_select model_coord pad_mask.
Proof. unfold unpad. case_decide; [by intros [= <-]|done]. Qed.

Lemma lift_Ok {A} (r : result A) s s1 a :
  lift r s = (s1, Ok a) → s1 = s ∧ r = Ok a.
Proof. unfold lift. by intros [= -> ->]. Qed.

(** After [t["coords"] = v] and [t["is_present"] = True] through the
    reference [l], the array at [l] is a table with the coordinates [v]
    assigned and every atom marked present. *)
Lemma coords_then_present (l : loc) (v : list vec3) s s1 s2 :
  set_coords l v s = (s1, Ok ()) →
  set_is_present l true s1 = (s2, Ok ()) →
  ∃ t t', assign_coords t v = Ok t' ∧
          atom_arrays s2 !! l = Some (assign_is_present true t').
Proof.
  unfold set_coords, set_is_present, read_atoms, store_atoms, lift, mbind,
    M_bind.
  destruct (atom_arrays s !! l) as [t|]; cbn; [|done].
  destruct (assign_coords t v) as [t'|] eqn:Ht; cbn; [|done].
  intros [= <-]. cbn. rewrite lookup_insert_eq. cbn. intros [= <-]. cbn.
  exists t, t'. split; [done|]. apply lookup_insert_eq.
Qed.

Lemma set_res_is_present_atoms (l : loc) (b : bool) s s1 r :
  set_res_is_present l b s = (s1, r) → atom_arrays s1 = atom_arrays s.
Proof.
  unfold set_res_is_present, read_residues, store_residues, mbind, M_bind.
  destruct (residue_arrays s !! l); cbn; by intros [= <- _].
Qed.

Lemma read_structure_atoms st s d :
  read_structure st s = Ok d → atom_arrays s !! atoms st = Some (d_atoms d).
Proof.
  unfold read_structure. destruct (atom_arrays s !! atoms st); [|done].
  destruct (residue_arrays s !! residues st); [|done]. by intros [= <-].
Qed.

Lemma assemble_intermediate_Ok structure (v : list vec3) s s1 ns d :
  assemble_intermediate structure v s = (s1, Ok ns) →
  read_structure ns s1 = Ok d → carries_coords v d.
Proof.
  unfold assemble_intermediate. intros Hrun Hread.
  apply bind_Ok_inv in Hrun as (sa & l & _ & Hrun).
  apply bind_Ok_inv in Hrun as (sb & [] & Hcoords & Hrun).
  apply bind_Ok_inv in Hrun as (sc & [] & Hpresent & Hrun).
  injection Hrun as -> <-.
  destruct (coords_then_present _ _ _ _ _ Hcoords Hpresent)
    as (t & t' & Ht & Hl).
  exists t, t'. split; [done|].
  apply read_structure_atoms in Hread. cbn [atoms] in Hread. congruence.
Qed.

Lemma assemble_final_Ok structure (v : list vec3) s s1 ns d :
  assemble_final structure v s = (s1, Ok ns) →
  read_structure ns s1 = Ok d → carries_coords v d.
Proof.
  unfold assemble_final. intros Hrun Hread.
  apply bind_Ok_inv in Hrun as (sa & [] & Hcoords & Hrun).
  apply bind_Ok_inv in Hrun as (sb & [] & Hpresent & Hrun).
  apply bind_Ok_inv in Hrun as (sc & [] & Hres & Hrun).
  injection Hrun as -> <-.
  destruct (coords_then_present _ _ _ _ _ Hcoords Hpresent)
    as (t & t' & Ht & Hl).
  exists t, t'. split; [done|].
  apply read_structure_atoms in Hread. cbn [atoms] in Hread.
  rewrite (set_res_is_present_atoms _ _ _ _ _ Hres) in Hread. congruence.
Qed.

Lemma final_structure_Ok record structure chain_map coord pad_mask model_idx
    s s1 ns d :
  final_structure record structure chain_map coord pad_mask model_idx s
    = (s1, Ok ns) →
  read_structure ns s1 = Ok d → final_data coord pad_mask model_idx d.
Proof.
  unfold final_structure. intros Hrun Hread.
  apply bind_Ok_inv in Hrun as (sa & model_coord & Hmc & Hrun).
  apply lift_Ok in Hmc as [-> Hmc]. apply from_option_Ok in Hmc.
  apply bind_Ok_inv in Hrun as (sb & v & Hv & Hrun).
  apply lift_Ok in Hv as [-> Hv]. apply unpad_Ok in Hv as ->.
  apply bind_Ok_inv in Hrun as (sc & ns' & Hns & Hrun).
  apply bind_Ok_inv in Hrun as (sd & infos & Hinfos & Hrun).
  apply lift_Ok in Hinfos as [-> _]. injection Hrun as -> ->.
  exists model_coord. split; [done|]. by eapply assemble_final_Ok.
Qed.

(** *** The files of one candidate *)

Section candidate_files.
Context (self : BoltzWriter) (prediction : Prediction) (record : RecordT)
        (coord : list (list vec3)) (pad_mask : list bool)
        (idx_to_rank : gmap nat nat) (model_idx : nat).

Local Abbreviation Ψ :=
  (candidate_event self prediction record coord pad_mask idx_to_rank
     model_idx).

Lemma candidate_write rank p c s :
  idx_to_rank !! model_idx = Some rank →
  candidate_file self prediction record coord pad_mask model_idx rank p c →
  writes_at Ψ (emit (WriteFile p c)) s.
Proof. intros Hr Hf. apply writes_at_emit. cbn. eauto. Qed.

Lemma candidate_save_intermediate_step structure steps step step_coords s :
  intermediate_coords prediction = Some steps →
  steps !! step = Some step_coords →
  writes_at Ψ
    (save_intermediate_step self record structure pad_mask idx_to_rank
       model_idx (intermediate_dir_of self record) (step, step_coords)) s.
Proof.
  intros Hsteps Hstep. unfold save_intermediate_step.
  apply writes_at_lift_bind. intros mc Hmc. apply from_option_Ok in Hmc.
  apply writes_at_lift_bind. intros v Hv. apply unpad_Ok in Hv as ->.
  apply writes_at_bind;
    [apply writes_at_only_writes, only_writes_assemble_intermediate|].
  intros s1 ns Hns.
  apply writes_at_lift_bind. intros rank Hrank. apply rank_of_Ok in Hrank.
  apply writes_at_bind; [apply writes_at_only_writes, only_writes_snapshot|].
  intros s1' d Hd. rewrite snapshot_eq in Hd. injection Hd as <- Hd.
  assert (step_data prediction pad_mask model_idx step d) as Hdata.
  { exists steps, step_coords, mc. repeat split; [done..|].
    by eapply assemble_intermediate_Ok. }
  repeat case_decide.
  - eapply candidate_write; [done|]. by apply cfile_step_pdb.
  - eapply candidate_write; [done|]. by apply cfile_step_cif.
  - apply writes_at_bind; [|intros ? _ _].
    + eapply candidate_write; [done|]. by eapply cfile_step_opened.
    + eapply candidate_write; [done|]. by apply cfile_step_npz.
Qed.

Lemma candidate_save_intermediate structure s :
  writes_at Ψ
    (save_intermediate self prediction record structure pad_mask idx_to_rank
       model_idx) s.
Proof.
  unfold save_intermediate.
  destruct (intermediate_coords prediction) as [steps|] eqn:Hsteps.
  - apply writes_at_bind; [|intros s1 _ _].
    + apply writes_at_emit. cbn. by right.
    + apply writes_at_for_each. intros [step step_coords] s' Hin.
      apply enumerate_lookup in Hin.
      by eapply candidate_save_intermediate_step.
  - apply writes_at_ret.
Qed.

Lemma candidate_save_structure new_structure s :
  (∀ d, read_structure new_structure s = Ok d →
        final_data coord pad_mask model_idx d) →
  writes_at Ψ
    (save_structure self prediction record idx_to_rank model_idx
       new_structure) s.
Proof.
  intros Hdata. unfold save_structure.
  apply writes_at_bind; [apply writes_at_emit; cbn; by left|].
  intros s1 [] Hemit.
  assert (∀ d, snapshot new_structure s1 = (s1, Ok d) →
               final_data coord pad_mask model_idx d) as Hsnap.
  { intros d Hd. rewrite snapshot_eq in Hd. injection Hd as Hd.
    apply Hdata. rewrite <- Hd. by injection Hemit as <-. }
  assert (∀ d s2, snapshot new_structure s1 = (s2, Ok d) →
                  s2 = s1 ∧ final_data coord pad_mask model_idx d) as Hsnap'.
  { intros d s2 Hd. pose proof Hd as Hd'. rewrite snapshot_eq in Hd'.
    injection Hd' as <- _. split; [done|]. by apply Hsnap. }
  clear Hemit Hdata Hsnap.
  repeat case_decide.
  - apply writes_at_lift_bind. intros rank Hrank. apply rank_of_Ok in Hrank.
    apply writes_at_bind; [apply writes_at_only_writes, only_writes_snapshot|].
    intros s2 d Hd. apply Hsnap' in Hd as [-> Hd].
    eapply candidate_write; [done|]. by apply cfile_pdb.
  - apply writes_at_lift_bind. intros rank Hrank. apply rank_of_Ok in Hrank.
    destruct (plddt prediction) as [p|] eqn:Hp.
    + destruct (p !! model_idx) as [a|] eqn:Ha.
      * apply writes_at_bind;
          [apply writes_at_only_writes, only_writes_snapshot|].
        intros s2 d Hd. apply Hsnap' in Hd as [-> Hd].
        eapply candidate_write; [done|]. by eapply cfile_cif_plddt.
      * apply writes_at_bind; [|intros ? _ _; exists []; by rewrite app_nil_r].
        eapply candidate_write; [done|]. by eapply cfile_cif_opened.
    + apply writes_at_bind;
        [apply writes_at_only_writes, only_writes_snapshot|].
      intros s2 d Hd. apply Hsnap' in Hd as [-> Hd].
      eapply candidate_write; [done|]. by apply cfile_cif.
  - apply writes_at_lift_bind. intros rank Hrank. apply rank_of_Ok in Hrank.
    apply writes_at_bind; [apply writes_at_only_writes, only_writes_snapshot|].
    intros s2 d Hd. apply Hsnap' in Hd as [-> Hd].
    rewrite savez_path_model.
    eapply candidate_write; [done|]. by apply cfile_npz.
Qed.

Lemma candidate_save_confidence s :
  writes_at Ψ (save_confidence self prediction record idx_to_rank model_idx) s.
Proof.
  unfold save_confidence. destruct (plddt prediction) as [p|] eqn:Hp.
  - apply writes_at_lift_bind. intros rank Hrank. apply rank_of_Ok in Hrank.
    apply writes_at_lift_bind. intros j Hj.
    apply writes_at_bind; [|intros s1 _ _].
    { eapply candidate_write; [done|]. by apply cfile_confidence. }
    apply writes_at_lift_bind. intros a Ha. apply from_option_Ok in Ha.
    apply writes_at_lift_bind. intros rank' Hrank'.
    apply rank_of_Ok in Hrank'.
    rewrite savez_path_side.
    eapply candidate_write; [done|]. by eapply cfile_plddt.
  - apply writes_at_ret.
Qed.

Lemma candidate_save_pae s :
  writes_at Ψ
    (save_matrix "pae" (pae prediction) self record idx_to_rank model_idx) s.
Proof.
  unfold save_matrix. destruct (pae prediction) as [t|] eqn:Ht.
  - apply writes_at_lift_bind. intros a Ha. apply from_option_Ok in Ha.
    apply writes_at_lift_bind. intros rank Hrank. apply rank_of_Ok in Hrank.
    rewrite savez_path_side.
    eapply candidate_write; [done|]. by eapply cfile_pae.
  - apply writes_at_ret.
Qed.

Lemma candidate_save_pde s :
  writes_at Ψ
    (save_matrix "pde" (pde prediction) self record idx_to_rank model_idx) s.
Proof.
  unfold save_matrix. destruct (pde prediction) as [t|] eqn:Ht.
  - apply writes_at_lift_bind. intros a Ha. apply from_option_Ok in Ha.
    apply writes_at_lift_bind. intros rank Hrank. apply rank_of_Ok in Hrank.
    rewrite savez_path_side.
    eapply candidate_write; [done|]. by eapply cfile_pde.
  - apply writes_at_ret.
Qed.

Lemma candidate_process_model structure chain_map s :
  writes_at Ψ
    (process_model self prediction record structure chain_map coord pad_mask
       idx_to_rank model_idx) s.
Proof.
  unfold process_model.
  apply writes_at_bind; [apply candidate_save_intermediate|intros s1 _ _].
  apply writes_at_bind;
    [apply writes_at_only_writes, only_writes_final_structure|].
  intros s2 ns Hns.
  apply writes_at_bind; [|intros s3 _ _].
  { apply candidate_save_structure. intros d Hd.
    exact (final_structure_Ok _ _ _ _ _ _ _ _ _ _ Hns Hd). }
  apply writes_at_bind; [apply candidate_save_confidence|intros s4 _ _].
  apply writes_at_bind; [apply candidate_save_pae|intros s5 _ _].
  apply candidate_save_pde.
Qed.
End candidate_files.

Lemma candidate_process_record `{Externals} self prediction idx_to_rank
    record coord pad_mask s :
  writes_at
    (λ e, ∃ model_idx,
       candidate_event self prediction record coord pad_mask idx_to_rank
         model_idx e)
    (process_record self prediction idx_to_rank (record, (coord, pad_mask))) s.
Proof.
  unfold process_record.
  apply writes_at_bind;
    [apply writes_at_only_writes, only_writes_Structure_load|].
  intros s1 loaded _.
  apply writes_at_bind;
    [apply writes_at_only_writes, only_writes_remove_invalid_chains|].
  intros s2 st _.
  apply writes_at_for_each. intros model_idx s' _.
  eapply writes_at_mono; [|apply candidate_process_model].
  intros e He. by exists model_idx.
Qed.

Lemma candidate_batch `{Externals} self prediction batch idx_to_rank s :
  ranking prediction = Ok idx_to_rank →
  writes_at
    (λ e, ∃ record pad_mask model_idx,
       record ∈ batch_record batch ∧ pad_mask ∈ masks prediction ∧
       candidate_event self prediction record (pred_coords prediction)
         pad_mask idx_to_rank model_idx e)
    (write_on_batch_end self prediction batch) s.
Proof.
  intros Hranking. unfold write_on_batch_end.
  destruct (exception prediction).
  { exists []. by rewrite app_nil_r. }
  apply writes_at_lift_bind. intros table Htable.
  rewrite Hranking in Htable. injection Htable as <-.
  apply writes_at_for_each. intros [record [coord pad_mask]] s' Hin.
  pose proof (elem_of_zip_l _ _ _ _ Hin) as Hrec.
  pose proof (elem_of_zip_r _ _ _ _ Hin) as Hpair.
  pose proof (elem_of_zip_r _ _ _ _ Hpair) as Hmask.
  apply elem_of_zip_l, list_elem_of_singleton in Hpair as ->.
  eapply writes_at_mono; [|apply candidate_process_record].
  intros e [model_idx He]. by exists record, pad_mask, model_idx.
Qed.



(** The files of a candidate tell its rank from its index. Of the two
    sample candidates the second has the higher score: candidate 0 has
    rank 1 and candidate 1 has rank 0. A structure file that holds the
    coordinates of candidate 0 under the name of model 0, as naming by the
    index of the candidate would give it, is not a file of any candidate
    under this table; under the name of model 1 it is the file of
    candidate 0. *)
Example file_named_by_the_index_is_excluded :
  @ranking sample_externals sample_prediction = Ok {[ 0 := 1; 1 := 0 ]} ∧
  (¬ ∃ model_idx rank,
       ({[ 0 := 1; 1 := 0 ]} : gmap nat nat) !! model_idx = Some rank ∧
       candidate_file (sample_writer "pdb") sample_prediction
         (sample_record "A") (pred_coords sample_prediction)
         [true; false; true] model_idx rank
         "out/A/A_model_0.pdb"
         (PdbText (moved (1, 1, 1)%Z (2, 2, 2)%Z true))) ∧
  candidate_file (sample_writer "pdb") sample_prediction
    (sample_record "A") (pred_coords sample_prediction)
    [true; false; true] 0 1
    "out/A/A_model_1.pdb"
    (PdbText (moved (1, 1, 1)%Z (2, 2, 2)%Z true)).
Proof.
  split; [by vm_compute|]. split.
  - intros (model_idx & rank & Hrank & Hfile).
    inversion Hfile as [d _ Hdata Hpath Hd| | | | | | | | | | | |].
    assert (pretty 0 = "0") as Hzero by (by vm_compute).
    assert (pretty rank +:+ ".pdb" = pretty 0 +:+ ".pdb") as Heq
      by (rewrite Hzero; exact Hpath).
    apply append_inj_r, (inj pretty) in Heq as ->.
    assert (model_idx = 1) as ->.
    { destruct model_idx as [|[|n]]; [done|done|].
      rewrite lookup_insert_ne in Hrank by lia.
      by rewrite lookup_singleton_ne in Hrank by lia. }
    subst d. destruct Hdata as (mc & Hmc & t & t' & Ht & Hatoms).
    injection Hmc as <-. cbn [mask_select] in Ht.
    unfold assign_coords in Ht. case_decide as Hlen; [|done].
    injection Ht as <-.
    destruct t as [|a [|b [|c t]]]; cbn in Hlen; try lia.
    cbn in Hatoms. by injection Hatoms.
  - assert (struct_dir_of (sample_writer "pdb") (sample_record "A")
              </> model_name (sample_record "A") 1 "pdb"
            = "out/A/A_model_1.pdb") as <- by (by vm_compute).
    apply cfile_pdb; [done|].
    exists [(1, 1, 1)%Z; (9, 9, 9)%Z; (2, 2, 2)%Z]. split; [done|].
    exists (d_atoms two_atoms). by eexists.
Qed.
